(** * animated_map: the client-side engine of the streamflow animation

    A shallow embedding of the JavaScript of
    [src/animated_map/static/js/main.js] (module [MainJs]) and of the
    earlier revision of the same file (module [Part000]), followed by the
    properties of the identifier normaliser, the series store, the
    resampler, the value-to-style mapper, the playback scheduler, the
    layer setup, the hover popup, the series inspector and the choice of
    the files of a dropped folder (module [Loader]).

    JavaScript numbers are modelled by [number]: the finite doubles are
    taken as the real numbers they denote (rounding of the arithmetic is
    not modelled, and [-0] is identified with [0]), while the three special
    values [Infinity], [-Infinity] and [NaN] and the way they propagate
    through [+ - * /], the comparisons, [Math.log] and [Math.round] are
    modelled as IEEE 754 and ECMAScript define them.  What is proved of
    [MainJs] and [Part000] either does not depend on rounding or says
    that it is about exact arithmetic.  Where rounding and overflow
    matter, for the means of the resampler, the code is embedded a second
    time over the binary64 numbers of the kernel (module [Binary64]).

    The series tables are finite maps: they hold the own properties of
    the objects of the code.  A read such as [flowData[t][id]] also finds
    what every object inherits from [Object.prototype] when [id] is the
    name of such a property ([inherited]); what is proved of lookups
    under identifiers that the tables need not hold is stated for
    identifiers that are not such names. *)

From Stdlib Require Import Reals Lra Lia ZArith.
From Stdlib Require Floats.
From Equations Require Import Equations.
From stdpp Require Import gmap strings list pretty.

Local Open Scope string_scope.
Local Open Scope list_scope.
Local Open Scope nat_scope.

(* ===================================================================== *)
(** * JavaScript numbers *)
(* ===================================================================== *)

Module Num.

Inductive number : Type :=
| Fin (x : R)
| PInf
| NInf
| NaN.

(** Sign of a real, by the (classical) trichotomy of [R]. *)
Definition Rsgn (x : R) : comparison :=
  match total_order_T x 0 with
  | inleft (left _) => Lt
  | inleft (right _) => Eq
  | inright _ => Gt
  end.

Definition Rltb (x y : R) : bool := if Rlt_dec x y then true else false.
Definition Rleb (x y : R) : bool := if Rle_dec x y then true else false.

Definition sgn_mul (c d : comparison) : comparison :=
  match c, d with
  | Eq, _ | _, Eq => Eq
  | Gt, Gt | Lt, Lt => Gt
  | Gt, Lt | Lt, Gt => Lt
  end.

(** The infinity of a given sign; the sign [Eq] stands for the
    undefined forms [0 * Infinity] and [0 / 0], which are [NaN]. *)
Definition inf_of (c : comparison) : number :=
  match c with
  | Gt => PInf
  | Lt => NInf
  | Eq => NaN
  end.

Definition neg (a : number) : number :=
  match a with
  | Fin x => Fin (- x)
  | PInf => NInf
  | NInf => PInf
  | NaN => NaN
  end.

Definition add (a b : number) : number :=
  match a, b with
  | NaN, _ | _, NaN => NaN
  | Fin x, Fin y => Fin (x + y)
  | PInf, NInf | NInf, PInf => NaN
  | PInf, _ | _, PInf => PInf
  | NInf, _ | _, NInf => NInf
  end.

Definition sub (a b : number) : number := add a (neg b).

Definition mul (a b : number) : number :=
  match a, b with
  | NaN, _ | _, NaN => NaN
  | Fin x, Fin y => Fin (x * y)
  | Fin x, PInf | PInf, Fin x => inf_of (Rsgn x)
  | Fin x, NInf | NInf, Fin x => inf_of (sgn_mul (Rsgn x) Lt)
  | PInf, PInf | NInf, NInf => PInf
  | PInf, NInf | NInf, PInf => NInf
  end.

(** Division; a zero divisor is the positive zero. *)
Definition div (a b : number) : number :=
  match a, b with
  | NaN, _ | _, NaN => NaN
  | Fin x, Fin y =>
      match Rsgn y with
      | Eq => inf_of (Rsgn x)
      | _ => Fin (x / y)
      end
  | Fin _, (PInf | NInf) => Fin 0
  | PInf, Fin y => match Rsgn y with Lt => NInf | _ => PInf end
  | NInf, Fin y => match Rsgn y with Lt => PInf | _ => NInf end
  | (PInf | NInf), (PInf | NInf) => NaN
  end.

Definition ltb (a b : number) : bool :=
  match a, b with
  | NaN, _ | _, NaN => false
  | Fin x, Fin y => Rltb x y
  | NInf, (Fin _ | PInf) => true
  | Fin _, PInf => true
  | _, _ => false
  end.

Definition leb (a b : number) : bool :=
  match a, b with
  | NaN, _ | _, NaN => false
  | Fin x, Fin y => Rleb x y
  | NInf, _ => true
  | _, PInf => true
  | _, _ => false
  end.

Definition gtb (a b : number) : bool := ltb b a.
Definition geb (a b : number) : bool := leb b a.

(** [ToBoolean] on numbers: [0] and [NaN] are falsy. *)
Definition truthy (a : number) : bool :=
  match a with
  | Fin x => match Rsgn x with Eq => false | _ => true end
  | PInf | NInf => true
  | NaN => false
  end.

(** [Math.log]. *)
Definition log (a : number) : number :=
  match a with
  | Fin x =>
      match Rsgn x with
      | Lt => NaN
      | Eq => NInf
      | Gt => Fin (ln x)
      end
  | PInf => PInf
  | NInf => NaN
  | NaN => NaN
  end.

(** The values [Math.round] can return: an integer or one of the three
    special values. *)
Inductive rounded : Type :=
| RInt (z : Z)
| RPInf
| RNInf
| RNaN.

(** [Math.round]: the nearest integer, ties towards [+Infinity], that is
    [floor (x + 0.5)]. *)
Definition round (a : number) : rounded :=
  match a with
  | Fin x => RInt (Zfloor (x + / 2))
  | PInf => RPInf
  | NInf => RNInf
  | NaN => RNaN
  end.

(** [ToString] of a rounded number, as a template literal performs it. *)
Definition rounded_to_string (r : rounded) : string :=
  match r with
  | RInt z => pretty z
  | RPInf => "Infinity"
  | RNInf => "-Infinity"
  | RNaN => "NaN"
  end.

Definition of_Z (z : Z) : number := Fin (IZR z).
Definition of_nat (n : nat) : number := Fin (INR n).

End Num.

Export Num.

(** [v || 0] for a value that is a number or absent ([undefined], [null]). *)
Definition or_zero (v : option number) : number :=
  match v with
  | Some n => if truthy n then n else Fin 0
  | None => Fin 0
  end.

(** A JSON matrix of numbers, row per time step; a [null] cell is [None]. *)
Definition matrix : Type := list (list (option number)).

(** [idStr.startsWith(p)]. *)
Definition startsWith (idStr p : string) : bool := String.prefix p idStr.

(** One series table: time index, then feature id. *)
Abbreviation table := (gmap Z (gmap string number)).

(** The two tables of a MapLibre [case] paint expression. *)
Record caseExpression (A : Type) : Type := {
  cases : list (string * A);
  fallback : A
}.
Arguments cases {A} _.
Arguments fallback {A} _.

(** A control point of the colour ramp. *)
Record stop : Type := {
  pos : number;
  r : Z;
  g : Z;
  b : Z
}.

#[global] Instance stop_inhabited : Inhabited stop :=
  populate {| pos := NaN; r := 0; g := 0; b := 0 |}.

(* ===================================================================== *)
(** * main.js *)
(* ===================================================================== *)

Module MainJs.

(** ** Value-to-style mapper *)

Section Mapper.

Variables minFlowValue maxFlowValue : number.

Definition colors : list stop :=
  [ {| pos := Fin 0; r := 59; g := 130; b := 246 |};
    {| pos := Fin (1 / 4); r := 6; g := 182; b := 212 |};
    {| pos := Fin (1 / 2); r := 16; g := 185; b := 129 |};
    {| pos := Fin (3 / 4); r := 245; g := 158; b := 11 |};
    {| pos := Fin 1; r := 239; g := 68; b := 68 |} ].

(** [(Math.log(value + 1) - Math.log(minFlowValue + 1)) /
     (Math.log(maxFlowValue + 1) - Math.log(minFlowValue + 1))] *)
Definition normalized (value : number) : number :=
  div (sub (log (add value (Fin 1))) (log (add minFlowValue (Fin 1))))
      (sub (log (add maxFlowValue (Fin 1))) (log (add minFlowValue (Fin 1)))).

(** The [for] loop over consecutive control points, left at the first
    pair that brackets [n]. *)
Fixpoint bracket (n : number) (cs : list stop) : option (stop * stop) :=
  match cs with
  | color1 :: ((color2 :: _) as rest) =>
      if geb n (pos color1) && leb n (pos color2)
      then Some (color1, color2)
      else bracket n rest
  | _ => None
  end.

(** [Math.round(c1 + (c2 - c1) * factor)] for one channel. *)
Definition channel (c1 c2 : Z) (factor : number) : rounded :=
  round (add (of_Z c1) (mul (sub (of_Z c2) (of_Z c1)) factor)).

Definition getColorForFlow (value : number) : string :=
  if leb value (Fin 0) then "#94a3b8"
  else
    let n := normalized value in
    let '(color1, color2) :=
      match bracket n colors with
      | Some p => p
      | None => (colors !!! 0%nat, colors !!! 1%nat)
      end in
    let range := sub (pos color2) (pos color1) in
    let factor := div (sub n (pos color1)) range in
    "rgb(" +:+ rounded_to_string (channel (r color1) (r color2) factor)
    +:+ ", " +:+ rounded_to_string (channel (g color1) (g color2) factor)
    +:+ ", " +:+ rounded_to_string (channel (b color1) (b color2) factor)
    +:+ ")".

Definition getWidthForFlow (value : number) : number :=
  if leb value (Fin 0) then Fin 1
  else add (Fin 1) (mul (normalized value) (Fin 7)).

End Mapper.

(** ** Global variables and the browser objects they refer to *)

(** What the hover popup shows: the four rows of its HTML. *)
Record popupContent : Type := {
  popup_id : string;
  popup_flow : number;
  popup_velocity : number;
  popup_depth : number
}.

(** [plotState.visibleVariables]. *)
Record visible : Type := {
  vis_flow : bool;
  vis_velocity : bool;
  vis_depth : bool
}.

Record plot_state : Type := {
  flowpathId : option string;
  visibleVariables : visible
}.

(** A Plotly trace: abscissae are the time stamps. *)
Record trace : Type := {
  x : list string;
  y : list number;
  name : string
}.

(** The functions handed to [setTimeout]; [animate] closes over
    [frameDelay]. *)
Inductive callback : Type :=
| Animate (frameDelay : number)
| TrySetupLayers.

(** The module-level variables of main.js, followed by the parts of the
    page they act on: [map.loaded()], whether the map has its
    [selected-flowpaths] layer, the paint properties last set on that
    layer, the pending timers (handles are positive integers), and the
    chart last drawn by Plotly.  [hoverPopup] is [None] for [null], and
    otherwise holds the content last set.  The hovered feature and the
    two facts about the map change by events of the page only. *)
Record state : Type := {
  featureIds : list string;
  timeSteps : list string;
  currentTimeIndex : Z;
  isPlaying : bool;
  animationFrame : option positive;
  flowData : table;
  velocityData : table;
  depthData : table;
  maxFlowValue : number;
  minFlowValue : number;
  hoverPopup : option (option popupContent);
  hoveredFeatureId : option string;
  plotState : plot_state;
  map_loaded : bool;
  selected_flowpaths : bool;
  paint : option (caseExpression string * caseExpression number);
  timers : gmap positive callback;
  nextTimerId : positive;
  chart : option (list trace)
}.

Definition set_featureIds (v : list string) (st : state) : state :=
  {| featureIds := v; timeSteps := timeSteps st; currentTimeIndex :=
     currentTimeIndex st; isPlaying := isPlaying st; animationFrame :=
     animationFrame st; flowData := flowData st; velocityData :=
     velocityData st; depthData := depthData st; maxFlowValue :=
     maxFlowValue st; minFlowValue := minFlowValue st; hoverPopup :=
     hoverPopup st; hoveredFeatureId := hoveredFeatureId st; plotState :=
     plotState st; map_loaded := map_loaded st; selected_flowpaths :=
     selected_flowpaths st; paint := paint st; timers := timers st;
     nextTimerId := nextTimerId st; chart := chart st |}.

Definition set_timeSteps (v : list string) (st : state) : state :=
  {| featureIds := featureIds st; timeSteps := v; currentTimeIndex :=
     currentTimeIndex st; isPlaying := isPlaying st; animationFrame :=
     animationFrame st; flowData := flowData st; velocityData :=
     velocityData st; depthData := depthData st; maxFlowValue :=
     maxFlowValue st; minFlowValue := minFlowValue st; hoverPopup :=
     hoverPopup st; hoveredFeatureId := hoveredFeatureId st; plotState :=
     plotState st; map_loaded := map_loaded st; selected_flowpaths :=
     selected_flowpaths st; paint := paint st; timers := timers st;
     nextTimerId := nextTimerId st; chart := chart st |}.

Definition set_currentTimeIndex (v : Z) (st : state) : state :=
  {| featureIds := featureIds st; timeSteps := timeSteps st;
     currentTimeIndex := v; isPlaying := isPlaying st; animationFrame :=
     animationFrame st; flowData := flowData st; velocityData :=
     velocityData st; depthData := depthData st; maxFlowValue :=
     maxFlowValue st; minFlowValue := minFlowValue st; hoverPopup :=
     hoverPopup st; hoveredFeatureId := hoveredFeatureId st; plotState :=
     plotState st; map_loaded := map_loaded st; selected_flowpaths :=
     selected_flowpaths st; paint := paint st; timers := timers st;
     nextTimerId := nextTimerId st; chart := chart st |}.

Definition set_isPlaying (v : bool) (st : state) : state :=
  {| featureIds := featureIds st; timeSteps := timeSteps st;
     currentTimeIndex := currentTimeIndex st; isPlaying := v; animationFrame
     := animationFrame st; flowData := flowData st; velocityData :=
     velocityData st; depthData := depthData st; maxFlowValue :=
     maxFlowValue st; minFlowValue := minFlowValue st; hoverPopup :=
     hoverPopup st; hoveredFeatureId := hoveredFeatureId st; plotState :=
     plotState st; map_loaded := map_loaded st; selected_flowpaths :=
     selected_flowpaths st; paint := paint st; timers := timers st;
     nextTimerId := nextTimerId st; chart := chart st |}.

Definition set_animationFrame (v : option positive) (st : state) : state :=
  {| featureIds := featureIds st; timeSteps := timeSteps st;
     currentTimeIndex := currentTimeIndex st; isPlaying := isPlaying st;
     animationFrame := v; flowData := flowData st; velocityData :=
     velocityData st; depthData := depthData st; maxFlowValue :=
     maxFlowValue st; minFlowValue := minFlowValue st; hoverPopup :=
     hoverPopup st; hoveredFeatureId := hoveredFeatureId st; plotState :=
     plotState st; map_loaded := map_loaded st; selected_flowpaths :=
     selected_flowpaths st; paint := paint st; timers := timers st;
     nextTimerId := nextTimerId st; chart := chart st |}.

Definition set_flowData (v : table) (st : state) : state :=
  {| featureIds := featureIds st; timeSteps := timeSteps st;
     currentTimeIndex := currentTimeIndex st; isPlaying := isPlaying st;
     animationFrame := animationFrame st; flowData := v; velocityData :=
     velocityData st; depthData := depthData st; maxFlowValue :=
     maxFlowValue st; minFlowValue := minFlowValue st; hoverPopup :=
     hoverPopup st; hoveredFeatureId := hoveredFeatureId st; plotState :=
     plotState st; map_loaded := map_loaded st; selected_flowpaths :=
     selected_flowpaths st; paint := paint st; timers := timers st;
     nextTimerId := nextTimerId st; chart := chart st |}.

Definition set_velocityData (v : table) (st : state) : state :=
  {| featureIds := featureIds st; timeSteps := timeSteps st;
     currentTimeIndex := currentTimeIndex st; isPlaying := isPlaying st;
     animationFrame := animationFrame st; flowData := flowData st;
     velocityData := v; depthData := depthData st; maxFlowValue :=
     maxFlowValue st; minFlowValue := minFlowValue st; hoverPopup :=
     hoverPopup st; hoveredFeatureId := hoveredFeatureId st; plotState :=
     plotState st; map_loaded := map_loaded st; selected_flowpaths :=
     selected_flowpaths st; paint := paint st; timers := timers st;
     nextTimerId := nextTimerId st; chart := chart st |}.

Definition set_depthData (v : table) (st : state) : state :=
  {| featureIds := featureIds st; timeSteps := timeSteps st;
     currentTimeIndex := currentTimeIndex st; isPlaying := isPlaying st;
     animationFrame := animationFrame st; flowData := flowData st;
     velocityData := velocityData st; depthData := v; maxFlowValue :=
     maxFlowValue st; minFlowValue := minFlowValue st; hoverPopup :=
     hoverPopup st; hoveredFeatureId := hoveredFeatureId st; plotState :=
     plotState st; map_loaded := map_loaded st; selected_flowpaths :=
     selected_flowpaths st; paint := paint st; timers := timers st;
     nextTimerId := nextTimerId st; chart := chart st |}.

Definition set_maxFlowValue (v : number) (st : state) : state :=
  {| featureIds := featureIds st; timeSteps := timeSteps st;
     currentTimeIndex := currentTimeIndex st; isPlaying := isPlaying st;
     animationFrame := animationFrame st; flowData := flowData st;
     velocityData := velocityData st; depthData := depthData st;
     maxFlowValue := v; minFlowValue := minFlowValue st; hoverPopup :=
     hoverPopup st; hoveredFeatureId := hoveredFeatureId st; plotState :=
     plotState st; map_loaded := map_loaded st; selected_flowpaths :=
     selected_flowpaths st; paint := paint st; timers := timers st;
     nextTimerId := nextTimerId st; chart := chart st |}.

Definition set_minFlowValue (v : number) (st : state) : state :=
  {| featureIds := featureIds st; timeSteps := timeSteps st;
     currentTimeIndex := currentTimeIndex st; isPlaying := isPlaying st;
     animationFrame := animationFrame st; flowData := flowData st;
     velocityData := velocityData st; depthData := depthData st;
     maxFlowValue := maxFlowValue st; minFlowValue := v; hoverPopup :=
     hoverPopup st; hoveredFeatureId := hoveredFeatureId st; plotState :=
     plotState st; map_loaded := map_loaded st; selected_flowpaths :=
     selected_flowpaths st; paint := paint st; timers := timers st;
     nextTimerId := nextTimerId st; chart := chart st |}.

Definition set_hoverPopup (v : option (option popupContent)) (st : state) : state :=
  {| featureIds := featureIds st; timeSteps := timeSteps st;
     currentTimeIndex := currentTimeIndex st; isPlaying := isPlaying st;
     animationFrame := animationFrame st; flowData := flowData st;
     velocityData := velocityData st; depthData := depthData st;
     maxFlowValue := maxFlowValue st; minFlowValue := minFlowValue st;
     hoverPopup := v; hoveredFeatureId := hoveredFeatureId st; plotState :=
     plotState st; map_loaded := map_loaded st; selected_flowpaths :=
     selected_flowpaths st; paint := paint st; timers := timers st;
     nextTimerId := nextTimerId st; chart := chart st |}.

Definition set_hoveredFeatureId (v : option string) (st : state) : state :=
  {| featureIds := featureIds st; timeSteps := timeSteps st;
     currentTimeIndex := currentTimeIndex st; isPlaying := isPlaying st;
     animationFrame := animationFrame st; flowData := flowData st;
     velocityData := velocityData st; depthData := depthData st;
     maxFlowValue := maxFlowValue st; minFlowValue := minFlowValue st;
     hoverPopup := hoverPopup st; hoveredFeatureId := v; plotState :=
     plotState st; map_loaded := map_loaded st; selected_flowpaths :=
     selected_flowpaths st; paint := paint st; timers := timers st;
     nextTimerId := nextTimerId st; chart := chart st |}.

Definition set_plotState (v : plot_state) (st : state) : state :=
  {| featureIds := featureIds st; timeSteps := timeSteps st;
     currentTimeIndex := currentTimeIndex st; isPlaying := isPlaying st;
     animationFrame := animationFrame st; flowData := flowData st;
     velocityData := velocityData st; depthData := depthData st;
     maxFlowValue := maxFlowValue st; minFlowValue := minFlowValue st;
     hoverPopup := hoverPopup st; hoveredFeatureId := hoveredFeatureId st;
     plotState := v; map_loaded := map_loaded st; selected_flowpaths :=
     selected_flowpaths st; paint := paint st; timers := timers st;
     nextTimerId := nextTimerId st; chart := chart st |}.

Definition set_paint (v : option (caseExpression string * caseExpression number)) (st : state) : state :=
  {| featureIds := featureIds st; timeSteps := timeSteps st;
     currentTimeIndex := currentTimeIndex st; isPlaying := isPlaying st;
     animationFrame := animationFrame st; flowData := flowData st;
     velocityData := velocityData st; depthData := depthData st;
     maxFlowValue := maxFlowValue st; minFlowValue := minFlowValue st;
     hoverPopup := hoverPopup st; hoveredFeatureId := hoveredFeatureId st;
     plotState := plotState st; map_loaded := map_loaded st;
     selected_flowpaths := selected_flowpaths st; paint := v; timers :=
     timers st; nextTimerId := nextTimerId st; chart := chart st |}.

Definition set_timers (v : gmap positive callback) (st : state) : state :=
  {| featureIds := featureIds st; timeSteps := timeSteps st;
     currentTimeIndex := currentTimeIndex st; isPlaying := isPlaying st;
     animationFrame := animationFrame st; flowData := flowData st;
     velocityData := velocityData st; depthData := depthData st;
     maxFlowValue := maxFlowValue st; minFlowValue := minFlowValue st;
     hoverPopup := hoverPopup st; hoveredFeatureId := hoveredFeatureId st;
     plotState := plotState st; map_loaded := map_loaded st;
     selected_flowpaths := selected_flowpaths st; paint := paint st; timers
     := v; nextTimerId := nextTimerId st; chart := chart st |}.

Definition set_nextTimerId (v : positive) (st : state) : state :=
  {| featureIds := featureIds st; timeSteps := timeSteps st;
     currentTimeIndex := currentTimeIndex st; isPlaying := isPlaying st;
     animationFrame := animationFrame st; flowData := flowData st;
     velocityData := velocityData st; depthData := depthData st;
     maxFlowValue := maxFlowValue st; minFlowValue := minFlowValue st;
     hoverPopup := hoverPopup st; hoveredFeatureId := hoveredFeatureId st;
     plotState := plotState st; map_loaded := map_loaded st;
     selected_flowpaths := selected_flowpaths st; paint := paint st; timers
     := timers st; nextTimerId := v; chart := chart st |}.

Definition set_chart (v : option (list trace)) (st : state) : state :=
  {| featureIds := featureIds st; timeSteps := timeSteps st;
     currentTimeIndex := currentTimeIndex st; isPlaying := isPlaying st;
     animationFrame := animationFrame st; flowData := flowData st;
     velocityData := velocityData st; depthData := depthData st;
     maxFlowValue := maxFlowValue st; minFlowValue := minFlowValue st;
     hoverPopup := hoverPopup st; hoveredFeatureId := hoveredFeatureId st;
     plotState := plotState st; map_loaded := map_loaded st;
     selected_flowpaths := selected_flowpaths st; paint := paint st; timers
     := timers st; nextTimerId := nextTimerId st; chart := v |}.

Definition set_map_loaded (v : bool) (st : state) : state :=
  {| featureIds := featureIds st; timeSteps := timeSteps st;
     currentTimeIndex := currentTimeIndex st; isPlaying := isPlaying st;
     animationFrame := animationFrame st; flowData := flowData st;
     velocityData := velocityData st; depthData := depthData st;
     maxFlowValue := maxFlowValue st; minFlowValue := minFlowValue st;
     hoverPopup := hoverPopup st; hoveredFeatureId := hoveredFeatureId st;
     plotState := plotState st; map_loaded := v; selected_flowpaths :=
     selected_flowpaths st; paint := paint st; timers := timers st;
     nextTimerId := nextTimerId st; chart := chart st |}.

Definition set_selected_flowpaths (v : bool) (st : state) : state :=
  {| featureIds := featureIds st; timeSteps := timeSteps st;
     currentTimeIndex := currentTimeIndex st; isPlaying := isPlaying st;
     animationFrame := animationFrame st; flowData := flowData st;
     velocityData := velocityData st; depthData := depthData st;
     maxFlowValue := maxFlowValue st; minFlowValue := minFlowValue st;
     hoverPopup := hoverPopup st; hoveredFeatureId := hoveredFeatureId st;
     plotState := plotState st; map_loaded := map_loaded st;
     selected_flowpaths := v; paint := paint st; timers := timers st;
     nextTimerId := nextTimerId st; chart := chart st |}.

(** ** Loading: identifier normalisation and the series store *)

Record geopackageData : Type := {
  gpkg_feature_ids : list string
}.

Record netcdfData : Type := {
  time_steps : list string;
  feature_ids : list string;
  flow : option matrix;
  velocity : option matrix;
  depth : option matrix;
  num_times : nat;
  num_features : nat
}.

(** [idStr.startsWith("wb-") ? idStr : `wb-${idStr}`] *)
Definition flowId (idStr : string) : string :=
  if startsWith idStr "wb-" then idStr else "wb-" +:+ idStr.

(** [String(netcdfFeatureIds[f])]; an index past the end reads
    [undefined]. *)
Definition idStr (netcdfFeatureIds : list string) (f : nat) : string :=
  default "undefined" (netcdfFeatureIds !! f).

(** [a && a[t] && a[t][f]], where a missing array, row or cell is falsy. *)
Definition cell (a : option matrix) (t f : nat) : option number :=
  match a with
  | None => None
  | Some rows =>
      match rows !! t with
      | None => None
      | Some row => mjoin (row !! f)
      end
  end.

(** [data[t][flowId] = v] on a table whose slice [t] was created just
    before. *)
Definition store (t : nat) (id : string) (v : number) (data : table) : table :=
  alter (insert id v) (Z.of_nat t) data.

(** [if (a && a[t]) data[t][flowId] = a[t][f] || 0] *)
Definition store_optional (a : option matrix) (t f : nat) (id : string)
    (data : table) : table :=
  match a with
  | None => data
  | Some rows =>
      match rows !! t with
      | None => data
      | Some row => store t id (or_zero (mjoin (row !! f))) data
      end
  end.

(** Body of the inner loop, for feature index [f] at time index [t]. *)
Definition store_feature (nc : netcdfData) (t : nat) (st : state) (f : nat)
    : state :=
  let id := flowId (idStr (feature_ids nc) f) in
  let flowValue := or_zero (cell (flow nc) t f) in
  let st := set_flowData (store t id flowValue (flowData st)) st in
  let st :=
    set_velocityData (store_optional (velocity nc) t f id (velocityData st)) st in
  let st :=
    set_depthData (store_optional (depth nc) t f id (depthData st)) st in
  let st :=
    if gtb flowValue (maxFlowValue st) then set_maxFlowValue flowValue st
    else st in
  if ltb flowValue (minFlowValue st) && gtb flowValue (Fin 0)
  then set_minFlowValue flowValue st
  else st.

(** [if (a) data[t] = {}] *)
Definition open_slice (a : option matrix) (t : nat) (data : table) : table :=
  match a with
  | None => data
  | Some _ => <[Z.of_nat t := ∅]> data
  end.

(** Body of the outer loop, for time index [t]. *)
Definition store_time (nc : netcdfData) (st : state) (t : nat) : state :=
  let st := set_flowData (<[Z.of_nat t := ∅]> (flowData st)) st in
  let st := set_velocityData (open_slice (velocity nc) t (velocityData st)) st in
  let st := set_depthData (open_slice (depth nc) t (depthData st)) st in
  fold_left (store_feature nc t) (seq 0 (num_features nc)) st.

(** ** Hover popup and render update *)

(** [table[t]?.[id] || 0], for an [id] that is not the name of a property
    inherited from [Object.prototype]: the slices hold own properties
    only. *)
Definition lookup_or_zero (data : table) (t : Z) (id : string) : number :=
  or_zero (data !! t ≫= λ slice, slice !! id).

(** The values shown are numbers ([toFixed] is applied to them): the
    hovered identifier is taken not to name an inherited property. *)
Definition updateHoverPopupContent (st : state) : state :=
  match hoverPopup st, hoveredFeatureId st with
  | Some _, Some id =>
      if String.eqb id "" then st
      else
        set_hoverPopup
          (Some (Some
             {| popup_id := id;
                popup_flow := lookup_or_zero (flowData st) (currentTimeIndex st) id;
                popup_velocity :=
                  lookup_or_zero (velocityData st) (currentTimeIndex st) id;
                popup_depth :=
                  lookup_or_zero (depthData st) (currentTimeIndex st) id |}))
          st
  | _, _ => st
  end.

Definition updateVisualization (timeIndex : Z) (st : state) : state :=
  if negb (selected_flowpaths st) then st
  else
    match flowData st !! timeIndex with
    | None => st
    | Some currentFlowData =>
        let flowValue id := or_zero (currentFlowData !! id) in
        let colorExpression :=
          {| cases :=
               map (λ id, (id, getColorForFlow (minFlowValue st)
                                 (maxFlowValue st) (flowValue id)))
                 (featureIds st);
             fallback := "#3b82f6" |} in
        let widthExpression :=
          {| cases :=
               map (λ id, (id, getWidthForFlow (minFlowValue st)
                                 (maxFlowValue st) (flowValue id)))
                 (featureIds st);
             fallback := Fin 2 |} in
        updateHoverPopupContent
          (set_paint (Some (colorExpression, widthExpression)) st)
    end.

(** ** Timers *)

Definition setTimeout (cb : callback) (st : state) : positive * state :=
  let id := nextTimerId st in
  (id, set_nextTimerId (Pos.succ id) (set_timers (<[id := cb]> (timers st)) st)).

Definition clearTimeout (id : positive) (st : state) : state :=
  set_timers (delete id (timers st)) st.

(** ** Setting up the visualisation after a load *)

(** [setupLayerFilters], as far as the modelled state goes: the filters
    and the popup handlers are set on the map, then the first frame is
    drawn. *)
Definition setupLayerFilters (st : state) : state :=
  updateVisualization 0 st.

Definition trySetupLayers (st : state) : state :=
  if map_loaded st && selected_flowpaths st then setupLayerFilters st
  else snd (setTimeout TrySetupLayers st).

(** [setupTimeline] and the legend act on the page only. *)
Definition setupVisualization (st : state) : state :=
  if bool_decide (featureIds st = []) || bool_decide (flowData st = ∅)
  then st
  else trySetupLayers st.

(** [processDataAndVisualize] up to its last statement: the globals are
    reset and the series store is filled from the server's arrays. *)
Definition process_data (gp : geopackageData) (nc : netcdfData)
    (st : state) : state :=
  let st := set_featureIds (gpkg_feature_ids gp) st in
  let st := set_timeSteps (time_steps nc) st in
  let st := set_maxFlowValue (Fin 0) st in
  let st := set_minFlowValue PInf st in
  let st := set_flowData ∅ st in
  let st := set_velocityData ∅ st in
  let st := set_depthData ∅ st in
  fold_left (store_time nc) (seq 0 (num_times nc)) st.

Definition processDataAndVisualize (gp : geopackageData) (nc : netcdfData)
    (st : state) : state :=
  setupVisualization (process_data gp nc st).

(** ** Playback *)

(** The tick of the animation.  [updateVisualization] is taken to
    return: in the code it can throw only through
    [updateHoverPopupContent], under a hover over an inherited name, and
    the tick then ends before its successor is scheduled. *)
Definition animate (frameDelay : number) (st : state) : state :=
  if negb (isPlaying st) then st
  else
    let st := set_currentTimeIndex (currentTimeIndex st + 1) st in
    let st :=
      if (currentTimeIndex st >=? Z.of_nat (length (timeSteps st)))%Z
      then set_currentTimeIndex 0 st
      else st in
    let st := updateVisualization (currentTimeIndex st) st in
    let '(id, st) := setTimeout (Animate frameDelay) st in
    set_animationFrame (Some id) st.

(** [speed] is the value read from the speed selector. *)
Definition playAnimation (speed : number) (st : state) : state :=
  let st := set_isPlaying true st in
  let frameDelay := div (Fin 100) speed in
  animate frameDelay st.

Definition pauseAnimation (st : state) : state :=
  let st := set_isPlaying false st in
  match animationFrame st with
  | Some id => set_animationFrame None (clearTimeout id st)
  | None => st
  end.

(** The click handler of the play button. *)
Definition playButton_click (speed : number) (st : state) : state :=
  if isPlaying st then pauseAnimation st else playAnimation speed st.

(** The input handler of the time slider; [value] is [parseInt] of the
    slider's value. *)
Definition timeSlider_input (value : Z) (st : state) : state :=
  let st := set_currentTimeIndex value st in
  let st := updateVisualization (currentTimeIndex st) st in
  if isPlaying st then pauseAnimation st else st.

(** The event loop runs the callback of a pending timer, which is then
    no longer pending.  Nothing is assumed about when: any pending timer
    may be the next to fire. *)
Definition fire (id : positive) (st : state) : state :=
  match timers st !! id with
  | None => st
  | Some cb =>
      let st := clearTimeout id st in
      match cb with
      | Animate frameDelay => animate frameDelay st
      | TrySetupLayers => trySetupLayers st
      end
  end.

(** ** Series inspector *)

(** How a call ends: normally, or by a [TypeError] thrown on reading a
    property of [undefined]; either way with the globals as they then are. *)
Inductive outcome : Type :=
| Done (st : state)
| Throws (st : state).

(** The three arrays filled by the loop of [updatePlot]. *)
Record series : Type := {
  flowValues : list number;
  velocityValues : list number;
  depthValues : list number
}.

(** [if (data[t]) values.push(data[t][flowpathId] || 0)] *)
Definition push_optional (data : table) (t : nat) (id : string)
    (values : list number) : list number :=
  match data !! Z.of_nat t with
  | None => values
  | Some slice => values ++ [or_zero (slice !! id)]
  end.

(** Body of the loop of [updatePlot]; [None] when
    [flowData[t][flowpathId]] throws because [flowData[t]] is
    [undefined]. *)
Definition extract_step (st : state) (id : string) (acc : series) (t : nat)
    : option series :=
  match flowData st !! Z.of_nat t with
  | None => None
  | Some slice =>
      Some {| flowValues := flowValues acc ++ [or_zero (slice !! id)];
              velocityValues :=
                push_optional (velocityData st) t id (velocityValues acc);
              depthValues :=
                push_optional (depthData st) t id (depthValues acc) |}
  end.

Fixpoint extract (st : state) (id : string) (ts : list nat) (acc : series)
    : option series :=
  match ts with
  | [] => Some acc
  | t :: ts' =>
      match extract_step st id acc t with
      | None => None
      | Some acc' => extract st id ts' acc'
      end
  end.

Definition updatePlot (st : state) : outcome :=
  match flowpathId (plotState st) with
  | None => Done st
  | Some id =>
      if String.eqb id "" then Done st
      else
        match extract st id (seq 0 (length (timeSteps st)))
                {| flowValues := []; velocityValues := []; depthValues := [] |}
        with
        | None => Throws st
        | Some s =>
            let times := timeSteps st in
            let vis := visibleVariables (plotState st) in
            let traces :=
              (if vis_flow vis
               then [ {| x := times; y := flowValues s; name := "Flow (m³/s)" |} ]
               else [])
              ++ (if vis_velocity vis && negb (bool_decide (velocityValues s = []))
                  then [ {| x := times; y := velocityValues s;
                            name := "Velocity (m/s)" |} ]
                  else [])
              ++ (if vis_depth vis && negb (bool_decide (depthValues s = []))
                  then [ {| x := times; y := depthValues s;
                            name := "Depth (m)" |} ]
                  else []) in
            Done (set_chart (Some traces) st)
        end
  end.

Definition showTimeSeries (id : string) (st : state) : outcome :=
  updatePlot
    (set_plotState
       {| flowpathId := Some id;
          visibleVariables := visibleVariables (plotState st) |} st).

(** ** Events of the page *)

(** The [mousemove] handler of the hit layer, over the feature
    [flowpathId]. *)
Definition hit_mousemove (flowpathId : string) (st : state) : state :=
  let st :=
    match hoverPopup st with
    | None => set_hoverPopup (Some None) st
    | Some _ => st
    end in
  let st :=
    if bool_decide (hoveredFeatureId st = Some flowpathId) then st
    else set_hoveredFeatureId (Some flowpathId) st in
  updateHoverPopupContent st.

Definition hit_mouseleave (st : state) : state :=
  set_hoveredFeatureId None st.

(** What can happen on the page: the user's actions, a timer coming
    due, the answer of the server to a load, and the map reporting its
    style and layers. *)
Inductive event : Type :=
| PlayButtonClick (speed : number)
| TimeSliderInput (value : Z)
| TimerFires (id : positive)
| Loaded (gp : geopackageData) (nc : netcdfData)
| HitMousemove (flowpathId : string)
| HitMouseleave
| HitClick (flowpathId : string)
| MapStatus (loaded layer : bool).

(** An exception thrown by a handler ends the handler; the globals stay
    as they are at that point. *)
Definition after (o : outcome) : state :=
  match o with
  | Done st | Throws st => st
  end.

(** What the handler of an event does to the globals.  The page attaches
    the handlers of the play button and of the slider in [setupTimeline],
    that is once a load has brought data, and those of the hit layer in
    [setupLayerFilters]; before that the event has no handler to run. *)
Definition handle (e : event) (st : state) : state :=
  match e with
  | PlayButtonClick speed => playButton_click speed st
  | TimeSliderInput value => timeSlider_input value st
  | TimerFires id => fire id st
  | Loaded gp nc => processDataAndVisualize gp nc st
  | HitMousemove flowpathId => hit_mousemove flowpathId st
  | HitMouseleave => hit_mouseleave st
  | HitClick flowpathId => after (showTimeSeries flowpathId st)
  | MapStatus loaded layer =>
      set_map_loaded loaded (set_selected_flowpaths layer st)
  end.


(** ** Catchment filter *)

(** [s.replace(searchValue, newValue)] with a string pattern and a
    replacement that holds no [$] pattern: the first occurrence, if any,
    is replaced. *)
Fixpoint replace (s searchValue newValue : string) : string :=
  if startsWith s searchValue
  then newValue
       +:+ String.substring (String.length searchValue)
             (String.length s - String.length searchValue) s
  else
    match s with
    | EmptyString => EmptyString
    | String c s' => String c (replace s' searchValue newValue)
    end.

(** [featureIds.map((id) => id.replace("wb-", "cat-"))], the list
    [setupLayerFilters] filters the catchment layer with. *)
Definition catchmentIds (st : state) : list string :=
  map (λ id, replace id "wb-" "cat-") (featureIds st).

(** ** Buttons of the series inspector *)

Definition toggleFlow (st : state) : outcome :=
  let vis := visibleVariables (plotState st) in
  updatePlot
    (set_plotState
       {| flowpathId := flowpathId (plotState st);
          visibleVariables :=
            {| vis_flow := negb (vis_flow vis);
               vis_velocity := vis_velocity vis;
               vis_depth := vis_depth vis |} |} st).

Definition toggleVelocity (st : state) : outcome :=
  let vis := visibleVariables (plotState st) in
  updatePlot
    (set_plotState
       {| flowpathId := flowpathId (plotState st);
          visibleVariables :=
            {| vis_flow := vis_flow vis;
               vis_velocity := negb (vis_velocity vis);
               vis_depth := vis_depth vis |} |} st).

Definition toggleDepth (st : state) : outcome :=
  let vis := visibleVariables (plotState st) in
  updatePlot
    (set_plotState
       {| flowpathId := flowpathId (plotState st);
          visibleVariables :=
            {| vis_flow := vis_flow vis;
               vis_velocity := vis_velocity vis;
               vis_depth := negb (vis_depth vis) |} |} st).

(** The click handler of the close button, as far as the globals go. *)
Definition closePlot (st : state) : state :=
  set_plotState
    {| flowpathId := None;
       visibleVariables := visibleVariables (plotState st) |} st.

End MainJs.

(* ===================================================================== *)
(** * The earlier revision of main.js *)
(* ===================================================================== *)

Module Part000.

(** ** Value-to-style mapper *)

Section Mapper.

Variables minFlowValue maxFlowValue : number.

Definition colors : list stop :=
  [ {| pos := Fin 0; r := 59; g := 130; b := 246 |};
    {| pos := Fin (1 / 4); r := 6; g := 182; b := 212 |};
    {| pos := Fin (1 / 2); r := 16; g := 185; b := 129 |};
    {| pos := Fin (3 / 4); r := 245; g := 158; b := 11 |};
    {| pos := Fin 1; r := 239; g := 68; b := 68 |} ].

Definition normalized (value : number) : number :=
  div (sub (log (add value (Fin 1))) (log (add minFlowValue (Fin 1))))
      (sub (log (add maxFlowValue (Fin 1))) (log (add minFlowValue (Fin 1)))).

Fixpoint bracket (n : number) (cs : list stop) : option (stop * stop) :=
  match cs with
  | color1 :: ((color2 :: _) as rest) =>
      if geb n (pos color1) && leb n (pos color2)
      then Some (color1, color2)
      else bracket n rest
  | _ => None
  end.

Definition channel (c1 c2 : Z) (factor : number) : rounded :=
  round (add (of_Z c1) (mul (sub (of_Z c2) (of_Z c1)) factor)).

Definition getColorForFlow (value : number) : string :=
  if leb value (Fin 0) then "#94a3b8"
  else
    let n := normalized value in
    let '(color1, color2) :=
      match bracket n colors with
      | Some p => p
      | None => (colors !!! 0%nat, colors !!! 1%nat)
      end in
    let range := sub (pos color2) (pos color1) in
    let factor := div (sub n (pos color1)) range in
    "rgb(" +:+ rounded_to_string (channel (r color1) (r color2) factor)
    +:+ ", " +:+ rounded_to_string (channel (g color1) (g color2) factor)
    +:+ ", " +:+ rounded_to_string (channel (b color1) (b color2) factor)
    +:+ ")".

Definition getWidthForFlow (value : number) : number :=
  if leb value (Fin 0) then Fin 1
  else add (Fin 1) (mul (normalized value) (Fin 7)).

End Mapper.

(** ** Global variables *)

(** In this revision the tables hold the cells of the server's matrices
    as they came; a [null] cell is [None]. *)
Abbreviation raw_table := (gmap Z (gmap string (option number))).

Record visible : Type := {
  vis_flow : bool;
  vis_velocity : bool;
  vis_depth : bool
}.

Record plot_state : Type := {
  flowpathId : option string;
  visibleVariables : visible;
  resampleInterval : nat
}.

(** A Plotly trace: abscissae are time step numbers. *)
Record trace : Type := {
  x : list number;
  y : list number;
  name : string
}.

Record state : Type := {
  timeSteps : list string;
  currentTimeIndex : Z;
  isPlaying : bool;
  animationFrame : option positive;
  flowData : raw_table;
  velocityData : raw_table;
  depthData : raw_table;
  maxFlowValue : number;
  minFlowValue : number;
  plotState : plot_state;
  chart : option (list trace)
}.

Definition set_plotState (v : plot_state) (st : state) : state :=
  {| timeSteps := timeSteps st; currentTimeIndex := currentTimeIndex st;
     isPlaying := isPlaying st; animationFrame := animationFrame st;
     flowData := flowData st; velocityData := velocityData st; depthData :=
     depthData st; maxFlowValue := maxFlowValue st; minFlowValue :=
     minFlowValue st; plotState := v; chart := chart st |}.

Definition set_chart (v : option (list trace)) (st : state) : state :=
  {| timeSteps := timeSteps st; currentTimeIndex := currentTimeIndex st;
     isPlaying := isPlaying st; animationFrame := animationFrame st;
     flowData := flowData st; velocityData := velocityData st; depthData :=
     depthData st; maxFlowValue := maxFlowValue st; minFlowValue :=
     minFlowValue st; plotState := plotState st; chart := v |}.

(** ** Client-side resampling *)

(** [data.slice(i, i + interval)] *)
Definition slice (data : list number) (i interval : nat) : list number :=
  take interval (drop i data).

(** [slice.reduce((a, b) => a + b, 0) / slice.length] *)
Definition avg (slice : list number) : number :=
  div (fold_left add slice (Fin 0)) (of_nat (length slice)).

(** The [for] loop of [resampleData], entered with index [i] and the
    blocks averaged so far.  Each iteration takes one unit of [fuel];
    [None] when the fuel runs out before the loop is left. *)
Fixpoint resample_loop (fuel : nat) (data : list number) (interval i : nat)
    (resampled : list number) : option (list number) :=
  if (i <? length data)%nat then
    match fuel with
    | O => None
    | S fuel' =>
        resample_loop fuel' data interval (i + interval)
          (resampled ++ [avg (slice data i interval)])
    end
  else Some resampled.

Definition resampleData (fuel : nat) (data : list number) (interval : nat)
    : option (list number) :=
  if (interval =? 1)%nat then Some data
  else resample_loop fuel data interval 0 [].

(** ** Series inspector *)

(** How a call ends: normally, by a [TypeError], or not within the fuel
    given to its loops. *)
Inductive outcome : Type :=
| Done (st : state)
| Throws (st : state)
| OutOfFuel.

Record series : Type := {
  flowValues : list number;
  velocityValues : list number;
  depthValues : list number
}.

(** [if (data[t]) values.push(data[t][flowpathId] || 0)] *)
Definition push_optional (data : raw_table) (t : nat) (id : string)
    (values : list number) : list number :=
  match data !! Z.of_nat t with
  | None => values
  | Some slice => values ++ [or_zero (mjoin (slice !! id))]
  end.

Definition extract_step (st : state) (id : string) (acc : series) (t : nat)
    : option series :=
  match flowData st !! Z.of_nat t with
  | None => None
  | Some slice =>
      Some {| flowValues := flowValues acc ++ [or_zero (mjoin (slice !! id))];
              velocityValues :=
                push_optional (velocityData st) t id (velocityValues acc);
              depthValues :=
                push_optional (depthData st) t id (depthValues acc) |}
  end.

Fixpoint extract (st : state) (id : string) (ts : list nat) (acc : series)
    : option series :=
  match ts with
  | [] => Some acc
  | t :: ts' =>
      match extract_step st id acc t with
      | None => None
      | Some acc' => extract st id ts' acc'
      end
  end.

(** [values.length > 0 ? resampleData(values, interval) : []] *)
Definition resample_nonempty (fuel : nat) (values : list number)
    (interval : nat) : option (list number) :=
  if bool_decide (values = []) then Some [] else resampleData fuel values interval.

Definition updatePlot (fuel : nat) (st : state) : outcome :=
  match flowpathId (plotState st) with
  | None => Done st
  | Some id =>
      if String.eqb id "" then Done st
      else
        let interval := resampleInterval (plotState st) in
        match extract st id (seq 0 (length (timeSteps st)))
                {| flowValues := []; velocityValues := []; depthValues := [] |}
        with
        | None => Throws st
        | Some s =>
            match resampleData fuel (flowValues s) interval,
                  resample_nonempty fuel (velocityValues s) interval,
                  resample_nonempty fuel (depthValues s) interval with
            | Some resampledFlow, Some resampledVelocity, Some resampledDepth =>
                let times :=
                  imap (λ idx _, of_nat (idx * interval)) resampledFlow in
                let vis := visibleVariables (plotState st) in
                let traces :=
                  (if vis_flow vis
                   then [ {| x := times; y := resampledFlow;
                             name := "Flow (m³/s)" |} ]
                   else [])
                  ++ (if vis_velocity vis
                         && negb (bool_decide (resampledVelocity = []))
                      then [ {| x := times; y := resampledVelocity;
                                name := "Velocity (m/s)" |} ]
                      else [])
                  ++ (if vis_depth vis
                         && negb (bool_decide (resampledDepth = []))
                      then [ {| x := times; y := resampledDepth;
                                name := "Depth (m)" |} ]
                      else []) in
                Done (set_chart (Some traces) st)
            | _, _, _ => OutOfFuel
            end
        end
  end.

End Part000.

(* ===================================================================== *)
(** * The specification's resampler *)
(* ===================================================================== *)

(** Arithmetic mean of a block of idealised numbers: its elements added
    up from [0], left to right, over their count, without rounding. *)
Definition mean (block : list number) : number :=
  div (fold_left add block (Fin 0)) (of_nat (length block)).

(** The consecutive blocks of size [S k] of a sequence; the last one may
    be shorter. *)
Equations? blocks {A : Type} (k : nat) (s : list A) : list (list A)
    by wf (length s) lt :=
  blocks k [] := [];
  blocks k (a :: s) := take (S k) (a :: s) :: blocks k (drop (S k) (a :: s)).
Proof. simpl. rewrite length_drop. lia. Qed.

(* ===================================================================== *)
(** * The resampler over binary64 numbers *)
(* ===================================================================== *)

(** [resampleData] of the earlier revision once more, this time with the
    numbers of JavaScript as they are: the binary64 floating-point
    numbers of IEEE 754, with their rounding, their infinities and
    [NaN].  Indices, lengths and the interval are integers far below
    [2^53], on which the arithmetic of the code is exact. *)
Module Binary64.

Import Floats.PrimFloat.

(** [slice.length] as a number; the length of an array is below [2^32]. *)
Definition of_length (slice : list float) : float :=
  of_uint63 (Uint63.of_Z (Z.of_nat (length slice))).

(** [data.slice(i, i + interval)] *)
Definition slice (data : list float) (i interval : nat) : list float :=
  take interval (drop i data).

(** [slice.reduce((a, b) => a + b, 0) / slice.length] *)
Definition avg (slice : list float) : float :=
  div (fold_left add slice 0%float) (of_length slice).

(** The [for] loop of [resampleData], entered with index [i] and the
    blocks averaged so far.  Each iteration takes one unit of [fuel];
    [None] when the fuel runs out before the loop is left. *)
Fixpoint resample_loop (fuel : nat) (data : list float) (interval i : nat)
    (resampled : list float) : option (list float) :=
  if (i <? length data)%nat then
    match fuel with
    | O => None
    | S fuel' =>
        resample_loop fuel' data interval (i + interval)
          (resampled ++ [avg (slice data i interval)])
    end
  else Some resampled.

Definition resampleData (fuel : nat) (data : list float) (interval : nat)
    : option (list float) :=
  if (interval =? 1)%nat then Some data
  else resample_loop fuel data interval 0 [].

End Binary64.

(** The mean of a block as binary64 arithmetic gives it: the elements
    are added up from [0], left to right, each sum rounded, and the last
    sum is divided by the number of elements.  It is the arithmetic mean
    of the block up to rounding; it is infinite when a sum overflows. *)
Definition mean_binary64 (block : list PrimFloat.float) : PrimFloat.float :=
  PrimFloat.div (fold_left PrimFloat.add block PrimFloat.zero)
    (PrimFloat.of_uint63 (Uint63.of_Z (Z.of_nat (length block)))).

(** [resample] as the specification words it, for an interval [k >= 1],
    with [mean_binary64] for the mean of a block. *)
Definition resample_spec (s : list PrimFloat.float) (k : nat)
    : list PrimFloat.float :=
  if (k =? 1)%nat then s else map mean_binary64 (blocks (pred k) s).

(** The handlers of the events [es] run one after the other, each taken
    to be attached (see [visit] for the page as it attaches them). *)
Definition session (es : list MainJs.event) (st : MainJs.state) : MainJs.state :=
  fold_left (λ st e, MainJs.handle e st) es st.

(** The part of the globals and of the page the scheduler works with. *)
Definition scheduler (st : MainJs.state)
    : bool * option positive * gmap positive MainJs.callback * positive :=
  (MainJs.isPlaying st, MainJs.animationFrame st, MainJs.timers st,
   MainJs.nextTimerId st).

(** What holds of the scheduler in every state the page goes through: a
    pending tick belongs to a playing animation and is the one
    [animationFrame] refers to, and the handles in use are below the next
    one to be given out. *)
Definition scheduler_inv (st : MainJs.state) : Prop :=
  (∀ id frameDelay,
     MainJs.timers st !! id = Some (MainJs.Animate frameDelay) →
     MainJs.isPlaying st = true ∧ MainJs.animationFrame st = Some id)
  ∧ (∀ id, is_Some (MainJs.timers st !! id) →
           (id < MainJs.nextTimerId st)%positive).

(** The event loop firing the timers [ids], one after the other. *)
Definition run (ids : list positive) (st : MainJs.state) : MainJs.state :=
  fold_left (λ st id, MainJs.fire id st) ids st.

(** [n] consecutive ticks of the animation. *)
Fixpoint ticks (n : nat) (frameDelay : number) (st : MainJs.state)
    : MainJs.state :=
  match n with
  | O => st
  | S n' => MainJs.animate frameDelay (ticks n' frameDelay st)
  end.

(** The globals of main.js before any load, on a page whose map has no
    layer yet. *)
Definition initial : MainJs.state :=
  {| MainJs.featureIds := [];
     MainJs.timeSteps := [];
     MainJs.currentTimeIndex := 0;
     MainJs.isPlaying := false;
     MainJs.animationFrame := None;
     MainJs.flowData := ∅;
     MainJs.velocityData := ∅;
     MainJs.depthData := ∅;
     MainJs.maxFlowValue := Fin 0;
     MainJs.minFlowValue := PInf;
     MainJs.hoverPopup := None;
     MainJs.hoveredFeatureId := None;
     MainJs.plotState :=
       {| MainJs.flowpathId := None;
          MainJs.visibleVariables :=
            {| MainJs.vis_flow := true;
               MainJs.vis_velocity := true;
               MainJs.vis_depth := true |} |};
     MainJs.map_loaded := false;
     MainJs.selected_flowpaths := false;
     MainJs.paint := None;
     MainJs.timers := ∅;
     MainJs.nextTimerId := 1;
     MainJs.chart := None |}.

(** Playing at the last of three time steps. *)
Definition playing_at_last : MainJs.state :=
  MainJs.set_isPlaying true
    (MainJs.set_currentTimeIndex 2
       (MainJs.set_timeSteps
          ["2024-01-01T00:00"; "2024-01-01T01:00"; "2024-01-01T02:00"]
          initial)).

(** The load of the specification's scenario: two features, two time
    steps, flow [[5, 0], [15, 3]], no velocity and no depth.  The
    identifiers of the geometry and of the series are left open. *)
Definition scenario_geopackage (ids : list string) : MainJs.geopackageData :=
  {| MainJs.gpkg_feature_ids := ids |}.

Definition scenario_netcdf (ids : list string) : MainJs.netcdfData :=
  {| MainJs.time_steps := ["2024-01-01T00:00"; "2024-01-01T01:00"];
     MainJs.feature_ids := ids;
     MainJs.flow :=
       Some [ [Some (Fin 5); Some (Fin 0)]; [Some (Fin 15); Some (Fin 3)] ];
     MainJs.velocity := None;
     MainJs.depth := None;
     MainJs.num_times := 2;
     MainJs.num_features := 2 |}.

(** ** What the store holds after a load, read off the server's arrays *)

(** The flow stored for feature index [f] at time index [t]. *)
Definition flowValue_at (nc : MainJs.netcdfData) (t f : nat) : number :=
  or_zero (MainJs.cell (MainJs.flow nc) t f).

(** The flow values in the order the loops visit them. *)
Definition flow_values (nc : MainJs.netcdfData) : list number :=
  flat_map
    (λ t, map (flowValue_at nc t) (seq 0 (MainJs.num_features nc)))
    (seq 0 (MainJs.num_times nc)).

(** The running maximum and the running minimum over positive values. *)
Definition track_max (m v : number) : number := if gtb v m then v else m.

Definition track_min (m v : number) : number :=
  if ltb v m && gtb v (Fin 0) then v else m.

(** The normalised key of feature index [f]. *)
Definition key_at (nc : MainJs.netcdfData) (f : nat) : string :=
  MainJs.flowId (MainJs.idStr (MainJs.feature_ids nc) f).

(** The slice of the flow table at time index [t]. *)
Definition flow_slice (nc : MainJs.netcdfData) (t : nat) : gmap string number :=
  fold_left (λ slice f, <[key_at nc f := flowValue_at nc t f]> slice)
    (seq 0 (MainJs.num_features nc)) ∅.

(** A load with no time step and no feature. *)
Definition empty_netcdf : MainJs.netcdfData :=
  {| MainJs.time_steps := [];
     MainJs.feature_ids := [];
     MainJs.flow := Some [];
     MainJs.velocity := None;
     MainJs.depth := None;
     MainJs.num_times := 0;
     MainJs.num_features := 0 |}.

(** A load that announces one time step and carries two time stamps. *)
Definition short_netcdf : MainJs.netcdfData :=
  {| MainJs.time_steps := ["2024-01-01T00:00"; "2024-01-01T01:00"];
     MainJs.feature_ids := ["1"];
     MainJs.flow := Some [ [Some (Fin 5)] ];
     MainJs.velocity := None;
     MainJs.depth := None;
     MainJs.num_times := 1;
     MainJs.num_features := 1 |}.

(** The earlier revision with the chart of feature ["wb-1"] open at a
    resampling interval of 2, over four time steps of flow 10, 20, 30 and
    40, playing at time index 3. *)
Definition chart_open : Part000.state :=
  {| Part000.timeSteps :=
       ["2024-01-01T00:00"; "2024-01-01T01:00"; "2024-01-01T02:00";
        "2024-01-01T03:00"];
     Part000.currentTimeIndex := 3;
     Part000.isPlaying := true;
     Part000.animationFrame := Some 7%positive;
     Part000.flowData :=
       <[0%Z := {[ "wb-1" := Some (Fin 10) ]}]>
         (<[1%Z := {[ "wb-1" := Some (Fin 20) ]}]>
            (<[2%Z := {[ "wb-1" := Some (Fin 30) ]}]>
               (<[3%Z := {[ "wb-1" := Some (Fin 40) ]}]> ∅)));
     Part000.velocityData := ∅;
     Part000.depthData := ∅;
     Part000.maxFlowValue := Fin 40;
     Part000.minFlowValue := Fin 10;
     Part000.plotState :=
       {| Part000.flowpathId := Some "wb-1";
          Part000.visibleVariables :=
            {| Part000.vis_flow := true;
               Part000.vis_velocity := true;
               Part000.vis_depth := true |};
          Part000.resampleInterval := 2 |};
     Part000.chart := None |}.

(** [ceil (n / k)] on the naturals. *)
Definition ceil_div (n k : nat) : nat := (n + k - 1) / k.

(** What one time step of the loops does to an optional table (velocity
    or depth) whose array is [a]. *)
Definition optional_step (a : option matrix) (nc : MainJs.netcdfData)
    (data : table) (t : nat) : table :=
  fold_left (λ data f, MainJs.store_optional a t f (key_at nc f) data)
    (seq 0 (MainJs.num_features nc)) (MainJs.open_slice a t data).


(** The next tick of a playing animation is pending, under the handle
    [animationFrame] holds. *)
Definition tick_pending (st : MainJs.state) : Prop :=
  MainJs.isPlaying st = true →
  ∃ id frameDelay,
    MainJs.animationFrame st = Some id
    ∧ MainJs.timers st !! id = Some (MainJs.Animate frameDelay).


(* ===================================================================== *)
(** * What the tables inherit, and when the handlers are attached *)
(* ===================================================================== *)

(** The names of the properties every plain object inherits from
    [Object.prototype].  A read [slice[id]] under such a name finds the
    inherited function or object when the slice has no own property of
    that name. *)
Definition Object_prototype : list string :=
  [ "constructor"; "hasOwnProperty"; "isPrototypeOf"; "propertyIsEnumerable";
    "toLocaleString"; "toString"; "valueOf"; "__proto__";
    "__defineGetter__"; "__defineSetter__"; "__lookupGetter__";
    "__lookupSetter__" ].

Definition inherited (id : string) : bool :=
  bool_decide (id ∈ Object_prototype).

(** An event other than a hover over a feature whose identifier names an
    inherited property.  (Under such a hover [updateHoverPopupContent]
    reads a function where it expects a number and throws on [toFixed].) *)
Definition plain_hover (e : MainJs.event) : bool :=
  match e with
  | MainJs.HitMousemove flowpathId => negb (inherited flowpathId)
  | _ => true
  end.

(** A load that passes the guard of [setupVisualization]: it brings a
    geometry identifier and a time slice. *)
Definition brings_data (e : MainJs.event) : bool :=
  match e with
  | MainJs.Loaded gp nc =>
      negb (bool_decide (MainJs.gpkg_feature_ids gp = []))
      && (1 <=? MainJs.num_times nc)%nat
  | _ => false
  end.

(** The page: its globals, and the flag [timelineInitialized], set once
    [setupTimeline] has attached the handlers of the play button and of
    the slider. *)
Record page : Type := {
  globals : MainJs.state;
  timelineInitialized : bool
}.

(** The page as it is opened. *)
Definition fresh : page :=
  {| globals := initial; timelineInitialized := false |}.

(** What an event does to the page.  A click on the play button or an
    input of the slider runs a handler only once [setupTimeline] has
    attached it; a load that passes the guard of [setupVisualization]
    runs [setupTimeline].  (The events of the hit layer need no such
    condition: the layer is added where its handlers are attached.) *)
Definition on_event (p : page) (e : MainJs.event) : page :=
  match e with
  | MainJs.PlayButtonClick _ | MainJs.TimeSliderInput _ =>
      if timelineInitialized p
      then {| globals := MainJs.handle e (globals p);
              timelineInitialized := true |}
      else p
  | _ =>
      {| globals := MainJs.handle e (globals p);
         timelineInitialized := timelineInitialized p || brings_data e |}
  end.

(** The page after the events [es], one after the other, since it was
    opened. *)
Definition visit (es : list MainJs.event) : page :=
  fold_left on_event es fresh.

(* ===================================================================== *)
(** * Choosing the files of a dropped folder *)
(* ===================================================================== *)

Module Loader.

(** A [File] of the folder, as far as [loadLocalFilesFromBrowser] reads
    it; [lastModified] is a number of milliseconds. *)
Record file : Type := {
  webkitRelativePath : string;
  name : string;
  lastModified : Z
}.

(** [s.includes(sub)] *)
Fixpoint includes (s sub : string) : bool :=
  startsWith s sub
  || match s with
     | EmptyString => false
     | String _ s' => includes s' sub
     end.

(** [s.endsWith(suffix)] *)
Fixpoint endsWith (s suffix : string) : bool :=
  String.eqb s suffix
  || match s with
     | EmptyString => false
     | String _ s' => endsWith s' suffix
     end.

Definition is_gpkg (f : file) : bool :=
  includes (webkitRelativePath f) "/config/" && endsWith (name f) ".gpkg".

Definition is_nc (f : file) : bool :=
  includes (webkitRelativePath f) "/outputs/troute/"
  && startsWith (name f) "troute_"
  && endsWith (name f) ".nc".

(** The callback of [ncFiles.reduce]. *)
Definition later (latest current : file) : file :=
  if (lastModified current >? lastModified latest)%Z then current else latest.

(** What [loadLocalFilesFromBrowser] does with the files of the folder:
    it uploads a GeoPackage and a NetCDF file, or shows the message of
    the error it has thrown. *)
Inductive selection : Type :=
| Upload (gpkgFile ncFile : file)
| ShowError (message : string).

Definition select (files : list file) (folderName : string) : selection :=
  let gpkgFile := List.find is_gpkg files in
  let ncFiles := List.filter is_nc files in
  match gpkgFile with
  | None =>
      ShowError ("Error loading files: No GeoPackage file found in "
                 +:+ folderName +:+ "/config/")
  | Some gpkgFile =>
      match ncFiles with
      | [] =>
          ShowError ("Error loading files: No NetCDF file found matching "
                     +:+ folderName +:+ "/outputs/troute/troute_*.nc")
      | first :: rest => Upload gpkgFile (fold_left later rest first)
      end
  end.

End Loader.
(* ===================================================================== *)
(** * Arithmetic of [number] *)
(* ===================================================================== *)

Section NumberFacts.

Local Open Scope R_scope.

Lemma Rsgn_pos x : 0 < x → Rsgn x = Gt.
Proof.
  intros Hx. unfold Rsgn.
  destruct (total_order_T x 0) as [[Hlt | Heq] | Hgt]; [lra | lra | reflexivity].
Qed.

Lemma Rsgn_neg x : x < 0 → Rsgn x = Lt.
Proof.
  intros Hx. unfold Rsgn.
  destruct (total_order_T x 0) as [[Hlt | Heq] | Hgt]; [reflexivity | lra | lra].
Qed.

Lemma Rsgn_zero x : x = 0 → Rsgn x = Eq.
Proof.
  intros Hx. unfold Rsgn.
  destruct (total_order_T x 0) as [[Hlt | Heq] | Hgt]; [lra | reflexivity | lra].
Qed.

Lemma Rltb_true x y : x < y → Rltb x y = true.
Proof. intros H. unfold Rltb. destruct (Rlt_dec x y); [reflexivity | lra]. Qed.

Lemma Rltb_false x y : y <= x → Rltb x y = false.
Proof. intros H. unfold Rltb. destruct (Rlt_dec x y); [lra | reflexivity]. Qed.

Lemma Rleb_true x y : x <= y → Rleb x y = true.
Proof. intros H. unfold Rleb. destruct (Rle_dec x y); [reflexivity | lra]. Qed.

Lemma Rleb_false x y : y < x → Rleb x y = false.
Proof. intros H. unfold Rleb. destruct (Rle_dec x y); [lra | reflexivity]. Qed.

Lemma Rsgn_cases x :
  (x < 0 ∧ Rsgn x = Lt) ∨ (x = 0 ∧ Rsgn x = Eq) ∨ (0 < x ∧ Rsgn x = Gt).
Proof.
  destruct (total_order_T x 0) as [[Hlt | Heq] | Hgt].
  - left. split; [assumption | by apply Rsgn_neg].
  - right; left. split; [assumption | by apply Rsgn_zero].
  - right; right. split; [lra | apply Rsgn_pos; lra].
Qed.

End NumberFacts.

(** Decide the comparisons and signs of real constants in the goal. *)
Ltac real_dec :=
  repeat match goal with
  | |- context [Rsgn ?x] =>
      first [ rewrite (Rsgn_pos x) by lra
            | rewrite (Rsgn_neg x) by lra
            | rewrite (Rsgn_zero x) by lra ]
  | |- context [Rltb ?x ?y] =>
      first [ rewrite (Rltb_true x y) by lra
            | rewrite (Rltb_false x y) by lra ]
  | |- context [Rleb ?x ?y] =>
      first [ rewrite (Rleb_true x y) by lra
            | rewrite (Rleb_false x y) by lra ]
  end.

(** Evaluate number operations on constants. *)
Ltac num_eval :=
  repeat (cbn [add sub neg mul div ltb leb gtb geb truthy log inf_of
                 sgn_mul or_zero of_Z of_nat andb orb negb];
          unfold gtb, geb;
          real_dec).

Example number_examples :
  div (Fin 0) (Fin 0) = NaN
  ∧ div (Fin 3) (Fin 0) = PInf
  ∧ sub PInf PInf = NaN
  ∧ div NInf NInf = NaN
  ∧ log (Fin 0) = NInf
  ∧ leb NaN (Fin 0) = false
  ∧ or_zero (Some NaN) = Fin 0
  ∧ or_zero (Some (Fin 15)) = Fin 15
  ∧ ltb (Fin 15) PInf = true.
Proof. repeat split; num_eval; reflexivity. Qed.

(* ===================================================================== *)
(** * Identifier normaliser *)
(* ===================================================================== *)

Lemma startsWith_app (p rest : string) : startsWith (p +:+ rest) p = true.
Proof.
  unfold startsWith. induction p as [| c p IH]; simpl.
  - by destruct rest.
  - destruct (Ascii.ascii_dec c c) as [_ | Hne]; [exact IH | by destruct Hne].
Qed.

Lemma startsWith_inv (s p : string) :
  startsWith s p = true → ∃ rest, s = p +:+ rest.
Proof.
  unfold startsWith. revert s. induction p as [| c p IH]; intros s H.
  - by exists s.
  - destruct s as [| d s]; simpl in H; [discriminate |].
    destruct (Ascii.ascii_dec c d) as [-> | _]; [| discriminate].
    destruct (IH s H) as [rest ->]. by exists rest.
Qed.

(** C8: identifier normalisation is a total function that returns an
    identifier starting with ["wb-"] unchanged and prepends ["wb-"] to any
    other, and applying it twice is the same as applying it once. *)
Theorem flowId_idempotent (x : string) :
  MainJs.flowId x = (if startsWith x "wb-" then x else "wb-" +:+ x)
  ∧ startsWith (MainJs.flowId x) "wb-" = true
  ∧ MainJs.flowId (MainJs.flowId x) = MainJs.flowId x.
Proof.
  assert (Hpre : startsWith (MainJs.flowId x) "wb-" = true).
  { unfold MainJs.flowId. destruct (startsWith x "wb-") eqn:Hx; [exact Hx |].
    apply (startsWith_app "wb-"). }
  split; [reflexivity |]. split; [exact Hpre |].
  unfold MainJs.flowId at 1. by rewrite Hpre.
Qed.

Example flowId_examples :
  MainJs.flowId "1" = "wb-1"
  ∧ MainJs.flowId "wb-2" = "wb-2"
  ∧ MainJs.flowId "" = "wb-"
  ∧ MainJs.flowId "WB-3" = "wb-WB-3".
Proof. repeat split. Qed.

(* ===================================================================== *)
(** * Value-to-style mapper *)
(* ===================================================================== *)

Section MapperFacts.

Local Open Scope R_scope.

Variables minFlowValue maxFlowValue : number.

Lemma neutral_style value :
  leb value (Fin 0) = true →
  MainJs.getColorForFlow minFlowValue maxFlowValue value = "#94a3b8"
  ∧ MainJs.getWidthForFlow minFlowValue maxFlowValue value = Fin 1.
Proof.
  intros H. unfold MainJs.getColorForFlow, MainJs.getWidthForFlow.
  by rewrite H.
Qed.

(** The style for a [normalized] that is [NaN], [Infinity] or
    [-Infinity]: no pair of control points brackets it, and the first
    pair is used. *)
Lemma style_of_NaN value :
  leb value (Fin 0) = false →
  MainJs.normalized minFlowValue maxFlowValue value = NaN →
  MainJs.getColorForFlow minFlowValue maxFlowValue value = "rgb(NaN, NaN, NaN)"
  ∧ MainJs.getWidthForFlow minFlowValue maxFlowValue value = NaN.
Proof.
  intros Hv Hn. unfold MainJs.getColorForFlow, MainJs.getWidthForFlow.
  rewrite Hv, Hn. split; reflexivity.
Qed.

Lemma style_of_PInf value :
  leb value (Fin 0) = false →
  MainJs.normalized minFlowValue maxFlowValue value = PInf →
  MainJs.getColorForFlow minFlowValue maxFlowValue value
    = "rgb(-Infinity, Infinity, -Infinity)"
  ∧ MainJs.getWidthForFlow minFlowValue maxFlowValue value = PInf.
Proof.
  intros Hv Hn. unfold MainJs.getColorForFlow, MainJs.getWidthForFlow.
  rewrite Hv, Hn. split.
  - cbn [MainJs.bracket MainJs.colors pos]. num_eval.
    cbn [lookup_total list_lookup_total MainJs.colors pos r g b].
    unfold MainJs.channel. num_eval. reflexivity.
  - num_eval. reflexivity.
Qed.

Lemma style_of_NInf value :
  leb value (Fin 0) = false →
  MainJs.normalized minFlowValue maxFlowValue value = NInf →
  MainJs.getColorForFlow minFlowValue maxFlowValue value
    = "rgb(Infinity, -Infinity, Infinity)"
  ∧ MainJs.getWidthForFlow minFlowValue maxFlowValue value = NInf.
Proof.
  intros Hv Hn. unfold MainJs.getColorForFlow, MainJs.getWidthForFlow.
  rewrite Hv, Hn. split.
  - cbn [MainJs.bracket MainJs.colors pos]. num_eval.
    cbn [lookup_total list_lookup_total MainJs.colors pos r g b].
    unfold MainJs.channel. num_eval. reflexivity.
  - num_eval. reflexivity.
Qed.

End MapperFacts.

Section TopOfRamp.

Local Open Scope R_scope.

Lemma round_Z (x : R) (z : Z) : x = IZR z → round (Fin x) = RInt z.
Proof.
  intros ->. cbn [round]. f_equal. apply Zfloor_eq. lra.
Qed.

Lemma style_of_top minFlowValue maxFlowValue value :
  leb value (Fin 0) = false →
  MainJs.normalized minFlowValue maxFlowValue value = Fin 1 →
  MainJs.getColorForFlow minFlowValue maxFlowValue value = "rgb(239, 68, 68)"
  ∧ MainJs.getWidthForFlow minFlowValue maxFlowValue value = Fin 8.
Proof.
  intros Hv Hn. unfold MainJs.getColorForFlow, MainJs.getWidthForFlow.
  rewrite Hv, Hn. split.
  - cbn [MainJs.bracket MainJs.colors pos]. num_eval.
    cbn [pos r g b]. unfold MainJs.channel. num_eval.
    rewrite (round_Z _ 239), (round_Z _ 68), (round_Z _ 68) by (field; lra).
    reflexivity.
  - num_eval. f_equal. lra.
Qed.

End TopOfRamp.

Lemma gtb_zero_not_leb value : gtb value (Fin 0) = true → leb value (Fin 0) = false.
Proof.
  destruct value as [v | | |]; cbn; try done.
  unfold Rltb, Rleb. destruct (Rlt_dec 0 v), (Rle_dec v 0); try done. lra.
Qed.

(** With [maxFlowValue == minFlowValue] the divisor of [normalized] is
    [0] or [NaN], so the quotient is never a finite number. *)
Lemma normalized_degenerate (range value : number) :
  MainJs.normalized range range value = NaN
  ∨ MainJs.normalized range range value = PInf
  ∨ MainJs.normalized range range value = NInf.
Proof.
  unfold MainJs.normalized.
  destruct (log (add range (Fin 1))) as [l | | |];
    destruct (log (add value (Fin 1))) as [w | | |]; cbn; auto.
  all: rewrite (Rsgn_zero (l + - l)%R) by lra; auto.
  destruct (Rsgn_cases (w + - l)%R) as [[_ ->] | [[_ ->] | [_ ->]]]; cbn; auto.
Qed.

Lemma normalized_degenerate_same (value : number) :
  gtb value (Fin 0) = true → MainJs.normalized value value value = NaN.
Proof.
  intros Hv. unfold MainJs.normalized.
  destruct value as [v | | |]; try done.
  cbn in Hv. unfold Rltb in Hv. destruct (Rlt_dec 0 v); [| done].
  num_eval. reflexivity.
Qed.

(** C3 (as amended): for every value > 0 and every range with
    [max == min] the divisor of [normalized] is zero (or [NaN]) and
    [normalized] is [NaN], [Infinity] or [-Infinity], never [1.0]; it is
    [NaN] when the value is the range's single value.  The style is then
    built from the first pair of control points: the colour channels and
    the width are all [NaN] or infinite, so the colour is not the red
    control point and the width is not 8. *)
Theorem degenerate_range_style (range value : number) :
  gtb value (Fin 0) = true →
  let color := MainJs.getColorForFlow range range value in
  let width := MainJs.getWidthForFlow range range value in
  ((color = "rgb(NaN, NaN, NaN)" ∧ width = NaN)
   ∨ (color = "rgb(-Infinity, Infinity, -Infinity)" ∧ width = PInf)
   ∨ (color = "rgb(Infinity, -Infinity, Infinity)" ∧ width = NInf))
  ∧ (value = range → color = "rgb(NaN, NaN, NaN)" ∧ width = NaN)
  ∧ color ≠ "rgb(239, 68, 68)"
  ∧ width ≠ Fin 8.
Proof.
  intros Hpos color width.
  pose proof (gtb_zero_not_leb _ Hpos) as Hv.
  assert (Hcases :
    (color = "rgb(NaN, NaN, NaN)" ∧ width = NaN)
    ∨ (color = "rgb(-Infinity, Infinity, -Infinity)" ∧ width = PInf)
    ∨ (color = "rgb(Infinity, -Infinity, Infinity)" ∧ width = NInf)).
  { destruct (normalized_degenerate range value) as [Hn | [Hn | Hn]].
    - left. by apply style_of_NaN.
    - right; left. by apply style_of_PInf.
    - right; right. by apply style_of_NInf. }
  split; [exact Hcases |]. split.
  - intros <-. apply style_of_NaN; [exact Hv |].
    by apply normalized_degenerate_same.
  - destruct Hcases as [[-> ->] | [[-> ->] | [-> ->]]]; split; discriminate.
Qed.

Lemma degenerate_range_style_witness :
  MainJs.getColorForFlow (Fin 5) (Fin 5) (Fin 5) ≠ "rgb(239, 68, 68)"
  ∧ MainJs.getWidthForFlow (Fin 5) (Fin 5) (Fin 5) ≠ Fin 8.
Proof.
  assert (Hpos : gtb (Fin 5) (Fin 0) = true).
  { unfold gtb. cbn [ltb]. apply Rltb_true. lra. }
  exact (proj2 (proj2 (degenerate_range_style (Fin 5) (Fin 5) Hpos))).
Defined.

(** C3 (as stated) fails: with the single positive value 5 in the data
    the range is [{min: 5, max: 5}], and the style of that value is not
    the red control point with width 8 but a colour and a width of
    [NaN]s. *)
Lemma degenerate_range_not_top :
  gtb (Fin 5) (Fin 0) = true
  ∧ MainJs.getColorForFlow (Fin 5) (Fin 5) (Fin 5) = "rgb(NaN, NaN, NaN)"
  ∧ MainJs.getColorForFlow (Fin 5) (Fin 5) (Fin 5) ≠ "rgb(239, 68, 68)"
  ∧ MainJs.getWidthForFlow (Fin 5) (Fin 5) (Fin 5) = NaN
  ∧ MainJs.getWidthForFlow (Fin 5) (Fin 5) (Fin 5) ≠ Fin 8.
Proof.
  assert (Hpos : gtb (Fin 5) (Fin 0) = true).
  { unfold gtb. cbn [ltb]. apply Rltb_true. lra. }
  destruct (style_of_NaN (Fin 5) (Fin 5) (Fin 5)) as [Hc Hw].
  { by apply gtb_zero_not_leb. }
  { by apply normalized_degenerate_same. }
  rewrite Hc, Hw. repeat split; done.
Qed.

(** Away from the degenerate case the top of the range does get the red
    control point and the width 8. *)
Example top_of_range :
  MainJs.getColorForFlow (Fin 1) (Fin 100) (Fin 100) = "rgb(239, 68, 68)"
  ∧ MainJs.getWidthForFlow (Fin 1) (Fin 100) (Fin 100) = Fin 8.
Proof.
  apply style_of_top.
  - cbn [leb]. apply Rleb_false. lra.
  - unfold MainJs.normalized. num_eval.
    assert (ln (1 + 1) < ln (100 + 1))%R by (apply ln_increasing; lra).
    rewrite Rsgn_pos by lra. f_equal. field. lra.
Qed.

(** C10: the value-to-style mappers of the two revisions return the same
    colour string and the same width, for every value and every
    [minFlowValue], [maxFlowValue]. *)
Theorem mappers_agree (minFlowValue maxFlowValue value : number) :
  MainJs.getColorForFlow minFlowValue maxFlowValue value
    = Part000.getColorForFlow minFlowValue maxFlowValue value
  ∧ MainJs.getWidthForFlow minFlowValue maxFlowValue value
    = Part000.getWidthForFlow minFlowValue maxFlowValue value.
Proof.
  (* The two revisions define the mapper by the same program text, so the
     embeddings unfold to the same term. *)
  split; reflexivity.
Qed.

(* ===================================================================== *)
(** * What the render update and the timers leave alone *)
(* ===================================================================== *)

(** Open the state transformers down to the record fields. *)
Ltac open_state :=
  unfold MainJs.setupVisualization, MainJs.trySetupLayers,
    MainJs.setupLayerFilters, MainJs.updateVisualization,
    MainJs.updateHoverPopupContent, MainJs.setTimeout, MainJs.clearTimeout;
  repeat case_match; cbn.

Lemma updateVisualization_playback timeIndex st :
  MainJs.currentTimeIndex (MainJs.updateVisualization timeIndex st)
    = MainJs.currentTimeIndex st
  ∧ MainJs.isPlaying (MainJs.updateVisualization timeIndex st)
    = MainJs.isPlaying st
  ∧ MainJs.timeSteps (MainJs.updateVisualization timeIndex st)
    = MainJs.timeSteps st
  ∧ MainJs.animationFrame (MainJs.updateVisualization timeIndex st)
    = MainJs.animationFrame st
  ∧ MainJs.timers (MainJs.updateVisualization timeIndex st) = MainJs.timers st
  ∧ MainJs.nextTimerId (MainJs.updateVisualization timeIndex st)
    = MainJs.nextTimerId st.
Proof. open_state; done. Qed.

Lemma trySetupLayers_playback st :
  MainJs.currentTimeIndex (MainJs.trySetupLayers st) = MainJs.currentTimeIndex st
  ∧ MainJs.isPlaying (MainJs.trySetupLayers st) = MainJs.isPlaying st
  ∧ MainJs.timeSteps (MainJs.trySetupLayers st) = MainJs.timeSteps st.
Proof. open_state; done. Qed.

Lemma processDataAndVisualize_snapshot gp nc st :
  let loaded := MainJs.process_data gp nc st in
  let st' := MainJs.processDataAndVisualize gp nc st in
  MainJs.featureIds st' = MainJs.featureIds loaded
  ∧ MainJs.timeSteps st' = MainJs.timeSteps loaded
  ∧ MainJs.flowData st' = MainJs.flowData loaded
  ∧ MainJs.velocityData st' = MainJs.velocityData loaded
  ∧ MainJs.depthData st' = MainJs.depthData loaded
  ∧ MainJs.maxFlowValue st' = MainJs.maxFlowValue loaded
  ∧ MainJs.minFlowValue st' = MainJs.minFlowValue loaded
  ∧ MainJs.plotState st' = MainJs.plotState loaded.
Proof. cbn zeta. unfold MainJs.processDataAndVisualize. open_state; done. Qed.

Lemma setupVisualization_snapshot st :
  MainJs.featureIds (MainJs.setupVisualization st) = MainJs.featureIds st
  ∧ MainJs.timeSteps (MainJs.setupVisualization st) = MainJs.timeSteps st
  ∧ MainJs.flowData (MainJs.setupVisualization st) = MainJs.flowData st
  ∧ MainJs.velocityData (MainJs.setupVisualization st) = MainJs.velocityData st
  ∧ MainJs.depthData (MainJs.setupVisualization st) = MainJs.depthData st
  ∧ MainJs.maxFlowValue (MainJs.setupVisualization st) = MainJs.maxFlowValue st
  ∧ MainJs.minFlowValue (MainJs.setupVisualization st) = MainJs.minFlowValue st
  ∧ MainJs.plotState (MainJs.setupVisualization st) = MainJs.plotState st.
Proof. open_state; done. Qed.

(* ===================================================================== *)
(** * Playback scheduler *)
(* ===================================================================== *)

Section Playback.

Local Open Scope Z_scope.

Lemma animate_playing frameDelay st :
  MainJs.isPlaying st = true →
  MainJs.currentTimeIndex (MainJs.animate frameDelay st)
    = (if MainJs.currentTimeIndex st + 1 >=? Z.of_nat (length (MainJs.timeSteps st))
       then 0 else MainJs.currentTimeIndex st + 1)
  ∧ MainJs.isPlaying (MainJs.animate frameDelay st) = true
  ∧ MainJs.timeSteps (MainJs.animate frameDelay st) = MainJs.timeSteps st
  ∧ MainJs.animationFrame (MainJs.animate frameDelay st)
    = Some (MainJs.nextTimerId st)
  ∧ MainJs.timers (MainJs.animate frameDelay st)
    = <[MainJs.nextTimerId st := MainJs.Animate frameDelay]> (MainJs.timers st)
  ∧ MainJs.nextTimerId (MainJs.animate frameDelay st)
    = Pos.succ (MainJs.nextTimerId st).
Proof.
  intros Hplay. unfold MainJs.animate. rewrite Hplay. cbn [negb].
  cbn [MainJs.currentTimeIndex MainJs.set_currentTimeIndex MainJs.timeSteps].
  set (st1 := if _ >=? _ then _ else _).
  assert (H1 : MainJs.currentTimeIndex st1
               = (if MainJs.currentTimeIndex st + 1
                       >=? Z.of_nat (length (MainJs.timeSteps st))
                  then 0 else MainJs.currentTimeIndex st + 1)
             ∧ MainJs.isPlaying st1 = true
             ∧ MainJs.timeSteps st1 = MainJs.timeSteps st
             ∧ MainJs.timers st1 = MainJs.timers st
             ∧ MainJs.nextTimerId st1 = MainJs.nextTimerId st).
  { subst st1. destruct (_ >=? _); cbn; by rewrite ?Hplay. }
  destruct H1 as (Hc & Hp & Ht & Htm & Hn).
  destruct (updateVisualization_playback (MainJs.currentTimeIndex st1) st1)
    as (Hc' & Hp' & Ht' & _ & Htm' & Hn').
  unfold MainJs.setTimeout. cbn.
  rewrite Hc', Hp', Ht', Htm', Hn', Hc, Hp, Ht, Htm, Hn. done.
Qed.

Lemma animate_paused frameDelay st :
  MainJs.isPlaying st = false → MainJs.animate frameDelay st = st.
Proof. intros H. unfold MainJs.animate. by rewrite H. Qed.

(** A tick is the [animate] callback of a timer coming due. *)
Lemma fire_tick id frameDelay st :
  MainJs.timers st !! id = Some (MainJs.Animate frameDelay) →
  MainJs.isPlaying st = true →
  MainJs.currentTimeIndex (MainJs.fire id st)
  = MainJs.currentTimeIndex (MainJs.animate frameDelay st).
Proof.
  intros Hid Hplay. unfold MainJs.fire. rewrite Hid.
  destruct (animate_playing frameDelay (MainJs.clearTimeout id st))
    as (-> & _); [exact Hplay |].
  by destruct (animate_playing frameDelay st Hplay) as (-> & _).
Qed.

(** C6: with at least one time step and the index within the time axis,
    a tick of the playing animation moves the index to
    [(currentIndex + 1) mod numTimes]: it wraps around at the end and so
    stays within [0, numTimes - 1], after one tick and after any number
    of them. *)
Theorem tick_wraps_around (frameDelay : number) (st : MainJs.state) :
  let numTimes := Z.of_nat (length (MainJs.timeSteps st)) in
  MainJs.isPlaying st = true →
  1 <= numTimes →
  0 <= MainJs.currentTimeIndex st <= numTimes - 1 →
  MainJs.currentTimeIndex (MainJs.animate frameDelay st)
    = (MainJs.currentTimeIndex st + 1) mod numTimes
  ∧ 0 <= MainJs.currentTimeIndex (MainJs.animate frameDelay st) <= numTimes - 1
  ∧ ∀ n : nat,
      MainJs.currentTimeIndex (ticks n frameDelay st)
        = (MainJs.currentTimeIndex st + Z.of_nat n) mod numTimes
      ∧ 0 <= MainJs.currentTimeIndex (ticks n frameDelay st) <= numTimes - 1.
Proof.
  intros numTimes Hplay Hn Hrange.
  assert (Hstep : ∀ s, MainJs.isPlaying s = true →
            MainJs.timeSteps s = MainJs.timeSteps st →
            0 <= MainJs.currentTimeIndex s <= numTimes - 1 →
            MainJs.currentTimeIndex (MainJs.animate frameDelay s)
              = (MainJs.currentTimeIndex s + 1) mod numTimes).
  { intros s Hs Hts Hr.
    destruct (animate_playing frameDelay s Hs) as (-> & _).
    rewrite Hts. fold numTimes.
    destruct (Z.geb_spec (MainJs.currentTimeIndex s + 1) numTimes) as [Hge | Hlt].
    - assert (MainJs.currentTimeIndex s + 1 = numTimes) as -> by lia.
      by rewrite Z.mod_same by lia.
    - by rewrite Z.mod_small by lia. }
  assert (Hticks : ∀ n : nat,
            MainJs.isPlaying (ticks n frameDelay st) = true
            ∧ MainJs.timeSteps (ticks n frameDelay st) = MainJs.timeSteps st
            ∧ MainJs.currentTimeIndex (ticks n frameDelay st)
              = (MainJs.currentTimeIndex st + Z.of_nat n) mod numTimes).
  { induction n as [| n (IHp & IHt & IHc)].
    - cbn. rewrite Z.add_0_r, Z.mod_small by lia. done.
    - cbn [ticks].
      destruct (animate_playing frameDelay _ IHp) as (_ & Hp & Ht & _).
      split; [exact Hp |]. split; [by rewrite Ht |].
      rewrite Hstep; [| exact IHp | exact IHt |].
      + rewrite IHc, Zplus_mod_idemp_l. f_equal. lia.
      + rewrite IHc. pose proof (Z.mod_pos_bound
          (MainJs.currentTimeIndex st + Z.of_nat n) numTimes). lia. }
  split; [by apply Hstep |]. split.
  - rewrite Hstep by done.
    pose proof (Z.mod_pos_bound (MainJs.currentTimeIndex st + 1) numTimes). lia.
  - intros n. destruct (Hticks n) as (_ & _ & ->). split; [done |].
    pose proof (Z.mod_pos_bound
      (MainJs.currentTimeIndex st + Z.of_nat n) numTimes). lia.
Qed.

(** The scenario of the specification: three time steps, index 2, one
    tick; the index becomes 0, not 3. *)
Lemma tick_wraps_around_witness :
  MainJs.currentTimeIndex (MainJs.animate (Fin 100) playing_at_last) = 0.
Proof.
  assert (H1 : MainJs.isPlaying playing_at_last = true) by reflexivity.
  assert (H2 : 1 <= Z.of_nat (length (MainJs.timeSteps playing_at_last)))
    by (cbn; lia).
  assert (H3 : 0 <= MainJs.currentTimeIndex playing_at_last
               <= Z.of_nat (length (MainJs.timeSteps playing_at_last)) - 1)
    by (cbn; lia).
  exact (proj1 (tick_wraps_around (Fin 100) playing_at_last H1 H2 H3)).
Defined.

End Playback.

Section Cancellation.

(** [play()] runs its first tick at once, before any delay. *)
Lemma playAnimation_ticks_at_once speed st :
  MainJs.currentTimeIndex (MainJs.playAnimation speed st)
  = (if (MainJs.currentTimeIndex st + 1
           >=? Z.of_nat (length (MainJs.timeSteps st)))%Z
     then 0 else MainJs.currentTimeIndex st + 1)%Z
  ∧ MainJs.isPlaying (MainJs.playAnimation speed st) = true.
Proof.
  unfold MainJs.playAnimation.
  destruct (animate_playing (div (Fin 100) speed) (MainJs.set_isPlaying true st))
    as (Hc & Hp & _); [reflexivity |].
  split; [exact Hc | exact Hp].
Qed.

Lemma fire_paused id st :
  MainJs.isPlaying st = false →
  MainJs.isPlaying (MainJs.fire id st) = false
  ∧ MainJs.currentTimeIndex (MainJs.fire id st) = MainJs.currentTimeIndex st.
Proof.
  intros Hp. unfold MainJs.fire.
  destruct (MainJs.timers st !! id) as [[frameDelay |] |]; [| | done].
  - rewrite animate_paused by exact Hp. done.
  - destruct (trySetupLayers_playback (MainJs.clearTimeout id st))
      as (-> & -> & _). done.
Qed.

Lemma run_paused ids st :
  MainJs.isPlaying st = false →
  MainJs.isPlaying (run ids st) = false
  ∧ MainJs.currentTimeIndex (run ids st) = MainJs.currentTimeIndex st.
Proof.
  revert st. induction ids as [| id ids IH]; intros st Hp; [done |].
  unfold run in *. cbn [fold_left].
  destruct (fire_paused id st Hp) as [Hp' Hc'].
  destruct (IH _ Hp') as [-> ->]. done.
Qed.

Lemma pauseAnimation_effect st :
  MainJs.isPlaying (MainJs.pauseAnimation st) = false
  ∧ MainJs.animationFrame (MainJs.pauseAnimation st) = None
  ∧ MainJs.currentTimeIndex (MainJs.pauseAnimation st)
    = MainJs.currentTimeIndex st
  ∧ MainJs.timers (MainJs.pauseAnimation st)
    = match MainJs.animationFrame st with
      | Some id => delete id (MainJs.timers st)
      | None => MainJs.timers st
      end.
Proof.
  unfold MainJs.pauseAnimation. cbn.
  destruct (MainJs.animationFrame st) eqn:Hf; cbn; by rewrite ?Hf.
Qed.


(** ** No stale tick in any session *)

Lemma scheduler_inv_same st st' :
  scheduler st' = scheduler st → scheduler_inv st → scheduler_inv st'.
Proof.
  unfold scheduler, scheduler_inv. intros [= Hp Hf Ht Hn].
  by rewrite Hp, Hf, Ht, Hn.
Qed.

Lemma scheduler_inv_poll st st' :
  MainJs.isPlaying st' = MainJs.isPlaying st →
  MainJs.animationFrame st' = MainJs.animationFrame st →
  MainJs.timers st'
    = <[MainJs.nextTimerId st := MainJs.TrySetupLayers]> (MainJs.timers st) →
  MainJs.nextTimerId st' = Pos.succ (MainJs.nextTimerId st) →
  scheduler_inv st → scheduler_inv st'.
Proof.
  unfold scheduler_inv. intros Hp Hf Ht Hn [Htick Hfresh].
  rewrite Hp, Hf, Ht, Hn. split.
  - intros id frameDelay Hid.
    destruct (decide (id = MainJs.nextTimerId st)) as [-> | Hne].
    + by rewrite lookup_insert_eq in Hid.
    + rewrite lookup_insert_ne in Hid by done. by apply (Htick id frameDelay).
  - intros id Hid.
    destruct (decide (id = MainJs.nextTimerId st)) as [-> | Hne]; [lia |].
    rewrite lookup_insert_ne in Hid by done. apply Hfresh in Hid. lia.
Qed.

Lemma scheduler_inv_clear id st :
  MainJs.timers st !! id ≠ None →
  (∀ frameDelay,
     MainJs.timers st !! id = Some (MainJs.Animate frameDelay) → False) →
  scheduler_inv st → scheduler_inv (MainJs.clearTimeout id st).
Proof.
  unfold scheduler_inv. intros _ Hnot [Htick Hfresh]. cbn. split.
  - intros id' frameDelay Hid.
    destruct (decide (id' = id)) as [-> | Hne].
    + by rewrite lookup_delete_eq in Hid.
    + rewrite lookup_delete_ne in Hid by done. by apply (Htick id' frameDelay).
  - intros id' Hid.
    destruct (decide (id' = id)) as [-> | Hne].
    + rewrite lookup_delete_eq in Hid. by destruct Hid.
    + rewrite lookup_delete_ne in Hid by done. by apply Hfresh.
Qed.

Lemma trySetupLayers_scheduler st :
  scheduler_inv st → scheduler_inv (MainJs.trySetupLayers st).
Proof.
  intros Hinv. unfold MainJs.trySetupLayers.
  destruct (MainJs.map_loaded st && MainJs.selected_flowpaths st).
  - apply (scheduler_inv_same st); [| done].
    unfold scheduler, MainJs.setupLayerFilters.
    destruct (updateVisualization_playback 0 st) as (_ & -> & _ & -> & -> & ->).
    done.
  - by apply (scheduler_inv_poll st).
Qed.

(** After [pause()] no tick is pending. *)
Lemma pauseAnimation_scheduler st :
  scheduler_inv st →
  scheduler_inv (MainJs.pauseAnimation st)
  ∧ ∀ id frameDelay,
      MainJs.timers (MainJs.pauseAnimation st) !! id
        ≠ Some (MainJs.Animate frameDelay).
Proof.
  intros [Htick Hfresh].
  destruct (pauseAnimation_effect st) as (Hp & Hf & _ & Ht).
  assert (Hnone : ∀ id frameDelay,
            MainJs.timers (MainJs.pauseAnimation st) !! id
              ≠ Some (MainJs.Animate frameDelay)).
  { intros id frameDelay Hid. rewrite Ht in Hid.
    destruct (MainJs.animationFrame st) as [id0 |] eqn:Hframe.
    - destruct (decide (id = id0)) as [-> | Hne].
      + by rewrite lookup_delete_eq in Hid.
      + rewrite lookup_delete_ne in Hid by done.
        destruct (Htick id frameDelay Hid) as [_ Hsame]. congruence.
    - by destruct (Htick id frameDelay Hid). }
  split; [| exact Hnone]. split.
  - intros id frameDelay Hid. by destruct (Hnone id frameDelay).
  - intros id Hid. rewrite Ht in Hid.
    replace (MainJs.nextTimerId (MainJs.pauseAnimation st))
      with (MainJs.nextTimerId st)
      by (unfold MainJs.pauseAnimation; cbn;
          by destruct (MainJs.animationFrame st)).
    apply Hfresh.
    destruct (MainJs.animationFrame st) as [id0 |]; [| done].
    destruct (decide (id = id0)) as [-> | Hne].
    + rewrite lookup_delete_eq in Hid. by destruct Hid.
    + by rewrite lookup_delete_ne in Hid.
Qed.

(** A tick run while playing, with no other tick pending, leaves its
    successor as the only pending tick. *)
Lemma animate_scheduler frameDelay st :
  MainJs.isPlaying st = true →
  (∀ id d, MainJs.timers st !! id ≠ Some (MainJs.Animate d)) →
  (∀ id, is_Some (MainJs.timers st !! id) →
         (id < MainJs.nextTimerId st)%positive) →
  scheduler_inv (MainJs.animate frameDelay st).
Proof.
  intros Hplay Hnone Hfresh.
  destruct (animate_playing frameDelay st Hplay)
    as (_ & Hp & _ & Hf & Ht & Hn).
  unfold scheduler_inv. rewrite Hp, Hf, Ht, Hn. split.
  - intros id d Hid.
    destruct (decide (id = MainJs.nextTimerId st)) as [-> | Hne]; [done |].
    rewrite lookup_insert_ne in Hid by done. by destruct (Hnone id d).
  - intros id Hid.
    destruct (decide (id = MainJs.nextTimerId st)) as [-> | Hne]; [lia |].
    rewrite lookup_insert_ne in Hid by done. apply Hfresh in Hid. lia.
Qed.

(** A tick that is not cancelled does advance the index: the same run
    without the pause. *)
Example tick_fires_without_pause :
  let playing :=
    MainJs.playAnimation (Fin 1) (MainJs.set_isPlaying false playing_at_last) in
  MainJs.currentTimeIndex (run [1%positive] playing)
    ≠ MainJs.currentTimeIndex playing
  ∧ MainJs.currentTimeIndex
      (run [1%positive] (MainJs.pauseAnimation playing))
    = MainJs.currentTimeIndex playing.
Proof.
  cbn zeta. split; [| by vm_compute].
  vm_compute. discriminate.
Qed.

End Cancellation.

(* ===================================================================== *)
(** * Resampling engine *)
(* ===================================================================== *)

Section Resampling.

Lemma blocks_concat {A} k (s : list A) : concat (blocks k s) = s.
Proof.
  funelim (blocks k s); simp blocks; [done |].
  cbn [concat]. rewrite H. apply take_drop.
Qed.

Lemma blocks_sizes {A} k (s : list A) :
  Forall (λ block : list A, (1 ≤ length block ≤ S k)%nat) (blocks k s).
Proof.
  funelim (blocks k s); simp blocks; constructor; [| assumption].
  rewrite length_take. cbn [length]. lia.
Qed.

(** Every block but the last is full. *)
Lemma blocks_full {A} k (s : list A) i block :
  blocks k s !! i = Some block →
  S i < length (blocks k s) →
  length block = S k.
Proof.
  revert i. funelim (blocks k s); simp blocks; intros i Hi Hlen; [done |].
  destruct i as [| i].
  - cbn in Hi. injection Hi as <-.
    destruct (drop (S k) (a :: s)) as [| b rest] eqn:Hdrop.
    { simp blocks in Hlen. cbn in Hlen. lia. }
    apply (f_equal length) in Hdrop. rewrite length_drop in Hdrop.
    cbn [firstn skipn length] in *. rewrite ?length_take. lia.
  - cbn in Hi, Hlen. apply (H block i); [exact Hi | cbn; lia].
Qed.

Lemma ceil_div_step n k : ceil_div (S n) (S k) = S (ceil_div (n - k) (S k)).
Proof.
  unfold ceil_div.
  replace (S n + S k - 1) with (n + 1 * S k) by lia.
  rewrite Nat.div_add by lia.
  destruct (decide (k ≤ n)) as [Hle | Hgt].
  - replace (n - k + S k - 1) with n by lia. lia.
  - replace (n - k + S k - 1) with k by lia.
    rewrite !Nat.div_small by lia. lia.
Qed.

Lemma blocks_length {A} k (s : list A) :
  length (blocks k s) = ceil_div (length s) (S k).
Proof.
  funelim (blocks k s); simp blocks.
  - unfold ceil_div. cbn [length]. rewrite Nat.div_small; lia.
  - cbn [length] in *. rewrite H, ceil_div_step, length_drop. done.
Qed.

(** The loop, entered at index [i], appends the means of the blocks of
    what is left of the data from [i] on. *)
Lemma resample_loop_blocks fuel data k i resampled :
  length data - i ≤ fuel →
  Part000.resample_loop fuel data (S k) i resampled
    = Some (resampled ++ map mean (blocks k (drop i data))).
Proof.
  revert i resampled. induction fuel as [| fuel IH]; intros i resampled Hfuel.
  - cbn [Part000.resample_loop].
    destruct (Nat.ltb_spec i (length data)) as [Hlt | Hge]; [lia |].
    rewrite drop_ge by lia. simp blocks. by rewrite app_nil_r.
  - cbn [Part000.resample_loop].
    destruct (Nat.ltb_spec i (length data)) as [Hlt | Hge].
    + rewrite IH by lia.
      destruct (drop i data) as [| a rest] eqn:Hdrop.
      { apply (f_equal length) in Hdrop. rewrite length_drop in Hdrop.
        cbn in Hdrop. lia. }
      simp blocks. rewrite <- Hdrop, drop_drop.
      cbn [map]. rewrite <- app_assoc. reflexivity.
    + rewrite drop_ge by lia. simp blocks. by rewrite app_nil_r.
Qed.

(** With no step the loop never leaves a non-empty input. *)
Lemma resample_loop_zero_interval fuel data i resampled :
  i < length data → Part000.resample_loop fuel data 0 i resampled = None.
Proof.
  intros Hi. revert resampled.
  induction fuel as [| fuel IH]; intros resampled; cbn [Part000.resample_loop];
    destruct (Nat.ltb_spec i (length data)); try lia; [done |].
  rewrite Nat.add_0_r. apply IH.
Qed.

Local Open Scope R_scope.

Lemma mean_pair (a b : R) : mean [Fin a; Fin b] = Fin ((a + b) / 2).
Proof.
  unfold mean, of_nat. cbn [fold_left length add].
  replace (INR 2) with 2 by (cbn; lra).
  cbn [div]. rewrite (Rsgn_pos 2) by lra. f_equal. field.
Qed.

Lemma resample_example :
  Part000.resampleData 4 [Fin 10; Fin 20; Fin 30; Fin 40] 2
    = Some [Fin 15; Fin 35].
Proof.
  unfold Part000.resampleData. cbn [Nat.eqb].
  rewrite (resample_loop_blocks 4 _ 1 0) by (cbn; lia).
  cbn [skipn app]. repeat (simp blocks; cbn [firstn skipn]).
  cbn [map]. rewrite !mean_pair.
  replace ((10 + 20) / 2) with 15 by lra.
  replace ((30 + 40) / 2) with 35 by lra.
  reflexivity.
Qed.

End Resampling.

(* ===================================================================== *)
(** * Resampling in binary64 *)
(* ===================================================================== *)

Section ResamplingBinary64.

Import Floats.PrimFloat.

(** The loop over binary64 numbers, entered at index [i], appends the
    means of the blocks of what is left of the data from [i] on. *)
Lemma resample_loop_blocks_binary64 fuel data k i resampled :
  length data - i ≤ fuel →
  Binary64.resample_loop fuel data (S k) i resampled
    = Some (resampled ++ map mean_binary64 (blocks k (drop i data))).
Proof.
  revert i resampled. induction fuel as [| fuel IH]; intros i resampled Hfuel.
  - cbn [Binary64.resample_loop].
    destruct (Nat.ltb_spec i (length data)) as [Hlt | Hge]; [lia |].
    rewrite drop_ge by lia. simp blocks. by rewrite app_nil_r.
  - cbn [Binary64.resample_loop].
    destruct (Nat.ltb_spec i (length data)) as [Hlt | Hge].
    + rewrite IH by lia.
      destruct (drop i data) as [| a rest] eqn:Hdrop.
      { apply (f_equal length) in Hdrop. rewrite length_drop in Hdrop.
        cbn in Hdrop. lia. }
      simp blocks. rewrite <- Hdrop, drop_drop.
      cbn [map]. rewrite <- app_assoc. reflexivity.
    + rewrite drop_ge by lia. simp blocks. by rewrite app_nil_r.
Qed.

(** C2 (as amended): for every sequence of binary64 numbers and every
    interval [k >= 1] (and fuel for the loop of at least the length of
    the input) [resampleData] returns a result: the input itself for
    [k = 1], and otherwise one number for each of the consecutive blocks
    of size [k], the last one possibly shorter, in order.  The number of
    a block is the sum of its elements, added left to right from [0] in
    binary64 arithmetic, divided by the length of the block: its
    arithmetic mean up to rounding, infinite when the sum overflows.  The
    length of the result is [ceil (len s / k)], and
    [resample([10,20,30,40], 2) = [15, 35]]. *)
Theorem resampleData_block_means (s : list float) (k fuel : nat) :
  1 ≤ k →
  length s ≤ fuel →
  Binary64.resampleData fuel s k = Some (resample_spec s k)
  ∧ Binary64.resampleData fuel s 1 = Some s
  ∧ length (resample_spec s k) = ceil_div (length s) k
  ∧ Binary64.resampleData 4 [10; 20; 30; 40]%float 2 = Some [15; 35]%float.
Proof.
  intros Hk Hfuel. split; [| split; [reflexivity | split]].
  - unfold Binary64.resampleData, resample_spec.
    destruct (Nat.eqb_spec k 1) as [-> | Hne]; [reflexivity |].
    destruct k as [| k]; [lia |].
    rewrite resample_loop_blocks_binary64 by lia. reflexivity.
  - unfold resample_spec.
    destruct (Nat.eqb_spec k 1) as [-> | Hne].
    + unfold ceil_div. rewrite Nat.div_1_r. lia.
    + destruct k as [| k]; [lia |].
      rewrite length_map, blocks_length. reflexivity.
  - reflexivity.
Qed.

Lemma resampleData_block_means_witness :
  Binary64.resampleData 5 [1; 2; 3; 4; 5]%float 2
    = Some (resample_spec [1; 2; 3; 4; 5]%float 2)
  ∧ length (resample_spec [1; 2; 3; 4; 5]%float 2) = 3.
Proof.
  assert (H1 : 1 ≤ 2) by lia.
  assert (H2 : length [1; 2; 3; 4; 5]%float ≤ 5) by (cbn; lia).
  destruct (resampleData_block_means [1; 2; 3; 4; 5]%float 2 5 H1 H2)
    as (Hr & _ & Hl & _).
  split; [exact Hr | exact Hl].
Defined.

(** C2 (as stated) fails: the number that replaces a block need not be
    its arithmetic mean.  Both elements of the block
    [[2^1023, 2^1023]] are the finite number [2^1023], and so is their
    arithmetic mean; their sum overflows, and [resampleData] replaces
    the block by [Infinity], which is above every element of the
    block. *)
Lemma resampleData_mean_overflows :
  Binary64.resampleData 2 [0x1p1023; 0x1p1023]%float 2 = Some [infinity]
  ∧ is_finite 0x1p1023%float = true
  ∧ is_finite infinity = false
  ∧ Forall (λ x, ltb x infinity = true) [0x1p1023; 0x1p1023]%float.
Proof.
  split; [reflexivity |]. split; [reflexivity |]. split; [reflexivity |].
  repeat constructor.
Qed.

End ResamplingBinary64.

(* ===================================================================== *)
(** * Series store *)
(* ===================================================================== *)

Section Store.

Import MainJs.

(** Reduce projections of updated states. *)
Ltac fields :=
  cbn [featureIds timeSteps currentTimeIndex isPlaying animationFrame flowData
       velocityData depthData maxFlowValue minFlowValue hoverPopup
       hoveredFeatureId plotState map_loaded selected_flowpaths paint timers
       nextTimerId chart
       set_featureIds set_timeSteps set_currentTimeIndex set_isPlaying
       set_animationFrame set_flowData set_velocityData set_depthData
       set_maxFlowValue set_minFlowValue set_hoverPopup set_hoveredFeatureId
       set_plotState set_map_loaded set_selected_flowpaths set_paint
       set_timers set_nextTimerId set_chart].

Lemma store_feature_fields nc t st f :
  let st' := store_feature nc t st f in
  flowData st' = store t (key_at nc f) (flowValue_at nc t f) (flowData st)
  ∧ maxFlowValue st' = track_max (maxFlowValue st) (flowValue_at nc t f)
  ∧ minFlowValue st' = track_min (minFlowValue st) (flowValue_at nc t f)
  ∧ featureIds st' = featureIds st
  ∧ timeSteps st' = timeSteps st.
Proof.
  cbn zeta. unfold store_feature, track_max, track_min, flowValue_at, key_at.
  fields. destruct (gtb _ (maxFlowValue st)); fields;
    destruct (ltb _ (minFlowValue st) && gtb _ (Fin 0)); fields; done.
Qed.

(** The inner loop over the feature indices [fs], entered with the slice
    of time index [t] already in the table. *)
Lemma store_features_fields nc t fs st slice :
  flowData st !! Z.of_nat t = Some slice →
  let st' := fold_left (store_feature nc t) fs st in
  flowData st'
    = <[Z.of_nat t :=
          fold_left (λ slice f, <[key_at nc f := flowValue_at nc t f]> slice)
            fs slice]> (flowData st)
  ∧ maxFlowValue st'
    = fold_left track_max (map (flowValue_at nc t) fs) (maxFlowValue st)
  ∧ minFlowValue st'
    = fold_left track_min (map (flowValue_at nc t) fs) (minFlowValue st)
  ∧ featureIds st' = featureIds st
  ∧ timeSteps st' = timeSteps st.
Proof.
  cbn zeta. revert st slice.
  induction fs as [| f fs IH]; intros st slice Hslice; cbn [fold_left map].
  - by rewrite insert_id.
  - destruct (store_feature_fields nc t st f) as (Hf & Hmax & Hmin & Hids & Hts).
    cbn zeta in *.
    destruct (IH (store_feature nc t st f)
                (<[key_at nc f := flowValue_at nc t f]> slice))
      as (Hf' & Hmax' & Hmin' & Hids' & Hts').
    { rewrite Hf. unfold store. rewrite lookup_alter_eq, Hslice. done. }
    rewrite Hf', Hmax', Hmin', Hids', Hts', Hf, Hmax, Hmin, Hids, Hts.
    repeat split; try done.
    unfold store. apply map_eq. intros i.
    destruct (decide (i = Z.of_nat t)) as [-> | Hne].
    + by rewrite !lookup_insert_eq.
    + by rewrite !lookup_insert_ne, lookup_alter_ne.
Qed.

Lemma store_time_fields nc st t :
  let st' := store_time nc st t in
  flowData st' = <[Z.of_nat t := flow_slice nc t]> (flowData st)
  ∧ maxFlowValue st'
    = fold_left track_max (map (flowValue_at nc t) (seq 0 (num_features nc)))
        (maxFlowValue st)
  ∧ minFlowValue st'
    = fold_left track_min (map (flowValue_at nc t) (seq 0 (num_features nc)))
        (minFlowValue st)
  ∧ featureIds st' = featureIds st
  ∧ timeSteps st' = timeSteps st.
Proof.
  cbn zeta. unfold store_time, flow_slice.
  set (st0 := set_depthData _ _).
  destruct (store_features_fields nc t (seq 0 (num_features nc)) st0 ∅)
    as (Hf & Hmax & Hmin & Hids & Hts).
  { subst st0. fields. apply lookup_insert_eq. }
  cbn zeta in *. rewrite Hf, Hmax, Hmin, Hids, Hts.
  subst st0. fields. by rewrite insert_insert_eq.
Qed.

(** The outer loop over the time indices [ts]. *)
Lemma store_times_fields nc ts st :
  let st' := fold_left (store_time nc) ts st in
  flowData st'
    = fold_left (λ data t, <[Z.of_nat t := flow_slice nc t]> data) ts
        (flowData st)
  ∧ maxFlowValue st'
    = fold_left track_max
        (flat_map (λ t, map (flowValue_at nc t) (seq 0 (num_features nc))) ts)
        (maxFlowValue st)
  ∧ minFlowValue st'
    = fold_left track_min
        (flat_map (λ t, map (flowValue_at nc t) (seq 0 (num_features nc))) ts)
        (minFlowValue st)
  ∧ featureIds st' = featureIds st
  ∧ timeSteps st' = timeSteps st.
Proof.
  cbn zeta. revert st.
  induction ts as [| t ts IH]; intros st; cbn [fold_left flat_map]; [done |].
  destruct (store_time_fields nc st t) as (Hf & Hmax & Hmin & Hids & Hts).
  destruct (IH (store_time nc st t)) as (Hf' & Hmax' & Hmin' & Hids' & Hts').
  cbn zeta in *.
  rewrite Hf', Hmax', Hmin', Hids', Hts', Hf, Hmax, Hmin, Hids, Hts.
  by rewrite !fold_left_app.
Qed.

(** The table built for the time indices below [n]. *)
Lemma table_lookup (slice_at : nat → gmap string number) n (data : table) z :
  fold_left (λ data t, <[Z.of_nat t := slice_at t]> data) (seq 0 n) data !! z
  = if decide (0 ≤ z < Z.of_nat n)%Z then Some (slice_at (Z.to_nat z))
    else data !! z.
Proof.
  revert data. induction n as [| n IH]; intros data.
  - cbn. by rewrite decide_False by lia.
  - rewrite seq_S, fold_left_app. cbn [fold_left Nat.add].
    destruct (decide (z = Z.of_nat n)) as [-> | Hne].
    + rewrite lookup_insert_eq, Nat2Z.id. by rewrite decide_True by lia.
    + rewrite lookup_insert_ne by done. rewrite IH.
      destruct (decide (0 ≤ z < Z.of_nat n)%Z),
        (decide (0 ≤ z < Z.of_nat (S n))%Z); try done; lia.
Qed.

(** What a load leaves in the globals of the store. *)
Lemma process_data_fields gp nc st :
  let st' := process_data gp nc st in
  featureIds st' = gpkg_feature_ids gp
  ∧ timeSteps st' = time_steps nc
  ∧ maxFlowValue st' = fold_left track_max (flow_values nc) (Fin 0)
  ∧ minFlowValue st' = fold_left track_min (flow_values nc) PInf
  ∧ ∀ z, flowData st' !! z
         = if decide (0 ≤ z < Z.of_nat (num_times nc))%Z
           then Some (flow_slice nc (Z.to_nat z)) else None.
Proof.
  cbn zeta. unfold process_data.
  set (st0 := set_depthData _ _).
  destruct (store_times_fields nc (seq 0 (num_times nc)) st0)
    as (Hf & Hmax & Hmin & Hids & Hts).
  cbn zeta in *. rewrite Hf, Hmax, Hmin, Hids, Hts. subst st0. fields.
  repeat split; try done.
  intros z. rewrite table_lookup. by rewrite lookup_empty.
Qed.

End Store.

(* ===================================================================== *)
(** * The flow range of a load *)
(* ===================================================================== *)

Section FlowRange.

Import MainJs.

Local Open Scope R_scope.

Lemma leb_refl n : n ≠ NaN → leb n n = true.
Proof.
  destruct n as [x | | |]; try done. intros _. cbn. apply Rleb_true. lra.
Qed.

Lemma leb_trans a b c : leb a b = true → leb b c = true → leb a c = true.
Proof.
  destruct a as [x | | |], b as [y | | |], c as [z | | |]; cbn; try done.
  unfold Rleb. destruct (Rle_dec x y), (Rle_dec y z), (Rle_dec x z); try done.
  lra.
Qed.

Lemma gtb_false_leb v m : v ≠ NaN → m ≠ NaN → gtb v m = false → leb v m = true.
Proof.
  destruct v as [x | | |], m as [y | | |]; cbn; try done.
  unfold Rltb, Rleb. destruct (Rlt_dec y x), (Rle_dec x y); try done. lra.
Qed.

Lemma gtb_true_leb v m : gtb v m = true → leb m v = true.
Proof.
  destruct v as [x | | |], m as [y | | |]; cbn; try done.
  unfold Rltb, Rleb. destruct (Rlt_dec y x), (Rle_dec y x); try done. lra.
Qed.

(** [|| 0] never lets a [NaN] through. *)
Lemma or_zero_not_NaN v : or_zero v ≠ NaN.
Proof. destruct v as [[x | | |] |]; cbn; try done. by destruct (Rsgn x). Qed.

Lemma flow_values_not_NaN nc : Forall (λ v, v ≠ NaN) (flow_values nc).
Proof.
  unfold flow_values. apply Forall_forall. intros v Hv.
  apply list_elem_of_In, in_flat_map in Hv as (t & _ & Hv).
  apply in_map_iff in Hv as (f & <- & _). apply or_zero_not_NaN.
Qed.

(** The running maximum ends at a value that bounds its start and all
    the values, and that is one of them. *)
Lemma track_max_bounds vs m :
  m ≠ NaN → Forall (λ v, v ≠ NaN) vs →
  let top := fold_left track_max vs m in
  top ≠ NaN
  ∧ leb m top = true
  ∧ Forall (λ v, leb v top = true) vs
  ∧ (top = m ∨ top ∈ vs).
Proof.
  cbn zeta. revert m. induction vs as [| v vs IH]; intros m Hm Hvs.
  - cbn. repeat split; [done | by apply leb_refl | constructor | by left].
  - apply Forall_cons in Hvs as [Hv Hvs]. cbn [fold_left].
    assert (Hstep : track_max m v ≠ NaN ∧ leb m (track_max m v) = true
                    ∧ leb v (track_max m v) = true
                    ∧ (track_max m v = m ∨ track_max m v = v)).
    { unfold track_max. destruct (gtb v m) eqn:Hgt.
      - repeat split; [done | by apply gtb_true_leb | by apply leb_refl | by right].
      - repeat split; [done | by apply leb_refl | by apply gtb_false_leb | by left]. }
    destruct Hstep as (Hnan & Hm' & Hv' & Hor).
    destruct (IH (track_max m v) Hnan Hvs) as (Htop & Hle & Hall & Hin).
    split; [exact Htop |]. split; [by eapply leb_trans |]. split.
    + constructor; [by eapply leb_trans | exact Hall].
    + destruct Hin as [-> | Hin]; [| right; by right].
      destruct Hor as [-> | ->]; [by left | right; by left].
Qed.

(** The running minimum ends below its start and below every positive
    value, and is its start or one of the positive values. *)
Lemma track_min_bounds vs m :
  m ≠ NaN → Forall (λ v, v ≠ NaN) vs →
  let bottom := fold_left track_min vs m in
  bottom ≠ NaN
  ∧ leb bottom m = true
  ∧ Forall (λ v, gtb v (Fin 0) = true → leb bottom v = true) vs
  ∧ (bottom = m ∨ (bottom ∈ vs ∧ gtb bottom (Fin 0) = true)).
Proof.
  cbn zeta. revert m. induction vs as [| v vs IH]; intros m Hm Hvs.
  - cbn. repeat split; [done | by apply leb_refl | constructor | by left].
  - apply Forall_cons in Hvs as [Hv Hvs]. cbn [fold_left].
    assert (Hstep : track_min m v ≠ NaN ∧ leb (track_min m v) m = true
                    ∧ (gtb v (Fin 0) = true → leb (track_min m v) v = true)
                    ∧ (track_min m v = m
                       ∨ (track_min m v = v ∧ gtb v (Fin 0) = true))).
    { unfold track_min. destruct (ltb v m) eqn:Hlt; cbn [andb].
      - destruct (gtb v (Fin 0)) eqn:Hpos.
        + repeat split; [done | by apply (gtb_true_leb m v) | | by right].
          intros _. by apply leb_refl.
        + repeat split; [done | by apply leb_refl | done | by left].
      - repeat split; [done | by apply leb_refl | | by left].
        intros _. by apply (gtb_false_leb m v). }
    destruct Hstep as (Hnan & Hm' & Hv' & Hor).
    destruct (IH (track_min m v) Hnan Hvs) as (Hbot & Hle & Hall & Hin).
    split; [exact Hbot |]. split; [by eapply leb_trans |]. split.
    + constructor; [| exact Hall]. intros Hpos. eapply leb_trans; eauto.
    + destruct Hin as [-> | [Hin Hpos]]; [| right; split; [by right | done]].
      destruct Hor as [-> | [-> Hpos]]; [by left |].
      right. split; [by left | done].
Qed.

(** X5: the flow range over the values the loops of a load read, that
    is [flow[t][f] || 0] for every [t < num_times] and
    [f < num_features] ([flow_values]).  After a load, [maxFlowValue] is 0
    or one of these values and none of them exceeds it; [minFlowValue]
    is [Infinity] or one of them that is positive, and none of them that
    is positive is below it.  (A value read may be overwritten in the
    table by a later feature with the same key: the range is over what
    was read, not over what the table ends up holding.) *)
Lemma flow_range_bounds gp nc st :
  let st' := processDataAndVisualize gp nc st in
  (maxFlowValue st' = Fin 0 ∨ maxFlowValue st' ∈ flow_values nc)
  ∧ (minFlowValue st' = PInf
     ∨ (minFlowValue st' ∈ flow_values nc
        ∧ gtb (minFlowValue st') (Fin 0) = true))
  ∧ ∀ v, v ∈ flow_values nc →
         leb v (maxFlowValue st') = true
         ∧ (gtb v (Fin 0) = true → leb (minFlowValue st') v = true).
Proof.
  cbn zeta.
  destruct (processDataAndVisualize_snapshot gp nc st)
    as (_ & _ & _ & _ & _ & -> & -> & _).
  destruct (process_data_fields gp nc st) as (_ & _ & -> & -> & _).
  destruct (track_max_bounds (flow_values nc) (Fin 0))
    as (_ & _ & Hmax & Hmax_in); [done | apply flow_values_not_NaN |].
  destruct (track_min_bounds (flow_values nc) PInf)
    as (_ & _ & Hmin & Hmin_in); [done | apply flow_values_not_NaN |].
  cbn zeta in *. split; [exact Hmax_in |]. split; [exact Hmin_in |].
  intros v Hv. rewrite Forall_forall in Hmax, Hmin. split.
  - by apply Hmax.
  - by apply Hmin.
Qed.

End FlowRange.

Section Loading.

Import MainJs.

Local Open Scope R_scope.

Lemma flow_values_empty nc :
  num_times nc = 0%nat ∨ num_features nc = 0%nat → flow_values nc = [].
Proof.
  unfold flow_values. intros [-> | ->]; [done |].
  induction (seq 0 (num_times nc)) as [| t ts IH]; [done | exact IH].
Qed.

Lemma flow_slice_empty nc t : num_features nc = 0%nat → flow_slice nc t = ∅.
Proof. unfold flow_slice. by intros ->. Qed.

(** With no data the minimum stays at [Infinity] and the maximum at [0],
    and every lookup in the flow table gives [0]. *)
Lemma empty_dataset_store gp nc st :
  num_times nc = 0%nat ∨ num_features nc = 0%nat →
  let st' := processDataAndVisualize gp nc st in
  minFlowValue st' = PInf
  ∧ maxFlowValue st' = Fin 0
  ∧ ∀ t id, lookup_or_zero (flowData st') t id = Fin 0.
Proof.
  intros Hempty. cbn zeta.
  destruct (processDataAndVisualize_snapshot gp nc st)
    as (_ & _ & -> & _ & _ & -> & -> & _).
  destruct (process_data_fields gp nc st) as (_ & _ & -> & -> & Hflow).
  rewrite (flow_values_empty nc Hempty). repeat split; try done.
  intros t id. unfold lookup_or_zero. rewrite Hflow.
  destruct (decide _) as [Hin | _]; [| done].
  destruct Hempty as [Hnt | Hnf]; [lia |].
  cbn. by rewrite flow_slice_empty, lookup_empty.
Qed.

(** With the range of an empty dataset, [normalized] is [NaN] for every
    value that is not [<= 0]. *)
Lemma normalized_no_data value :
  leb value (Fin 0) = false → normalized PInf (Fin 0) value = NaN.
Proof.
  intros Hv. unfold normalized. destruct value as [v | | |]; try done.
  cbn in Hv. unfold Rleb in Hv. destruct (Rle_dec v 0); [done |].
  num_eval. reflexivity.
Qed.

(** C4 (as amended): after a load with no time step or no feature the
    range is still [{min: Infinity, max: 0}]; with that range the mapper
    returns the neutral style for every value [<= 0], and for any other
    value a colour and a width of [NaN]s. *)
Theorem empty_dataset_style (gp : geopackageData) (nc : netcdfData)
    (st : state) :
  num_times nc = 0%nat ∨ num_features nc = 0%nat →
  let st' := processDataAndVisualize gp nc st in
  let color := getColorForFlow (minFlowValue st') (maxFlowValue st') in
  let width := getWidthForFlow (minFlowValue st') (maxFlowValue st') in
  minFlowValue st' = PInf
  ∧ maxFlowValue st' = Fin 0
  ∧ (∀ value, leb value (Fin 0) = true →
              color value = "#94a3b8" ∧ width value = Fin 1)
  ∧ (∀ value, leb value (Fin 0) = false →
              color value = "rgb(NaN, NaN, NaN)" ∧ width value = NaN).
Proof.
  intros Hempty st' color width.
  destruct (empty_dataset_store gp nc st Hempty) as (Hmin & Hmax & _).
  fold st' in Hmin, Hmax. subst color width.
  rewrite Hmin, Hmax. repeat split; try done.
  - by apply neutral_style.
  - by apply neutral_style.
  - apply style_of_NaN; [done | by apply normalized_no_data].
  - apply style_of_NaN; [done | by apply normalized_no_data].
Qed.

Lemma empty_dataset_style_witness :
  minFlowValue
    (processDataAndVisualize (scenario_geopackage []) empty_netcdf initial)
  = PInf
  ∧ maxFlowValue
      (processDataAndVisualize (scenario_geopackage []) empty_netcdf initial)
    = Fin 0.
Proof.
  assert (H : num_times empty_netcdf = 0%nat ∨ num_features empty_netcdf = 0%nat)
    by (left; reflexivity).
  destruct (empty_dataset_style (scenario_geopackage []) empty_netcdf initial H)
    as (Hmin & Hmax & _).
  split; [exact Hmin | exact Hmax].
Defined.

(** C4 (as stated) fails: with the range left by an empty load, the
    style of the value 5 is not the neutral one. *)
Lemma empty_dataset_not_neutral :
  let st' :=
    processDataAndVisualize (scenario_geopackage []) empty_netcdf initial in
  minFlowValue st' = PInf
  ∧ maxFlowValue st' = Fin 0
  ∧ getColorForFlow (minFlowValue st') (maxFlowValue st') (Fin 5)
    = "rgb(NaN, NaN, NaN)"
  ∧ getColorForFlow (minFlowValue st') (maxFlowValue st') (Fin 5) ≠ "#94a3b8"
  ∧ getWidthForFlow (minFlowValue st') (maxFlowValue st') (Fin 5) = NaN
  ∧ getWidthForFlow (minFlowValue st') (maxFlowValue st') (Fin 5) ≠ Fin 1.
Proof.
  cbn zeta.
  destruct (empty_dataset_store (scenario_geopackage []) empty_netcdf initial)
    as (-> & -> & _); [by left |].
  destruct (style_of_NaN PInf (Fin 0) (Fin 5)) as [-> ->].
  - cbn. apply Rleb_false. lra.
  - apply normalized_no_data. cbn. apply Rleb_false. lra.
  - repeat split; done.
Qed.

End Loading.

Section Scenario.

Import MainJs.

Local Open Scope R_scope.

Lemma scenario_values ids :
  flow_values (scenario_netcdf ids) = [Fin 5; Fin 0; Fin 15; Fin 3].
Proof. unfold flow_values, flowValue_at. cbn. num_eval. reflexivity. Qed.

Lemma scenario_range ids :
  fold_left track_max (flow_values (scenario_netcdf ids)) (Fin 0) = Fin 15
  ∧ fold_left track_min (flow_values (scenario_netcdf ids)) PInf = Fin 3.
Proof.
  rewrite scenario_values. unfold track_max, track_min. cbn [fold_left].
  split; num_eval; reflexivity.
Qed.

Lemma scenario_slice t :
  flow_slice (scenario_netcdf ["1"; "wb-2"]) t
  = <["wb-2" := flowValue_at (scenario_netcdf ["1"; "wb-2"]) t 1]>
      (<["wb-1" := flowValue_at (scenario_netcdf ["1"; "wb-2"]) t 0]> ∅).
Proof. reflexivity. Qed.

(** The store after the load of the scenario, whatever the identifiers
    of the geometry. *)
Lemma scenario_store geometryIds st :
  let st' :=
    processDataAndVisualize (scenario_geopackage geometryIds)
      (scenario_netcdf ["1"; "wb-2"]) st in
  featureIds st' = geometryIds
  ∧ (∀ z, dom <$> flowData st' !! z
          = if decide (0 ≤ z < 2)%Z then Some ({[ "wb-1"; "wb-2" ]} : gset string)
            else None)
  ∧ minFlowValue st' = Fin 3
  ∧ maxFlowValue st' = Fin 15
  ∧ lookup_or_zero (flowData st') 1 "wb-1" = Fin 15
  ∧ lookup_or_zero (flowData st') 1 "1" = Fin 0.
Proof.
  cbn zeta.
  destruct (processDataAndVisualize_snapshot (scenario_geopackage geometryIds)
              (scenario_netcdf ["1"; "wb-2"]) st)
    as (-> & _ & -> & _ & _ & -> & -> & _).
  destruct (process_data_fields (scenario_geopackage geometryIds)
              (scenario_netcdf ["1"; "wb-2"]) st)
    as (-> & _ & -> & -> & Hflow).
  destruct (scenario_range ["1"; "wb-2"]) as [-> ->].
  split; [done |]. split; [| split; [done | split; [done |]]].
  - intros z. rewrite Hflow. cbn [num_times scenario_netcdf].
    destruct (decide _); [| done]. cbn [fmap option_fmap option_map].
    rewrite scenario_slice, !dom_insert_L, dom_empty_L. f_equal; set_solver.
  - unfold lookup_or_zero. rewrite !Hflow. cbn [num_times scenario_netcdf].
    rewrite decide_True by lia. cbn [mbind option_bind Z.to_nat Pos.to_nat
      Pos.iter_op Nat.add].
    rewrite scenario_slice.
    rewrite lookup_insert_ne, lookup_insert_eq by done.
    rewrite !lookup_insert_ne, lookup_empty by done.
    change (Z.to_nat 1) with 1%nat. unfold flowValue_at. cbn. num_eval. done.
Qed.

(** C1 (as amended): loading series identifiers [["1", "wb-2"]] with
    the two time stamps and flow [[5, 0], [15, 3]] gives a flow table
    with a slice at each of the two time indices, keyed by the normalised
    identifiers ["wb-1"] and ["wb-2"]; the range is [{min: 3, max: 15}],
    the least positive and the greatest value; and the lookup at time 1
    of ["wb-1"] is 15.  The identifiers of the geometry are kept as they
    came, whatever they are. *)
Theorem load_scenario (geometryIds : list string) (st : state) :
  let st' :=
    processDataAndVisualize (scenario_geopackage geometryIds)
      (scenario_netcdf ["1"; "wb-2"]) st in
  featureIds st' = geometryIds
  ∧ (∀ z, dom <$> flowData st' !! z
          = if decide (0 ≤ z < 2)%Z then Some ({[ "wb-1"; "wb-2" ]} : gset string)
            else None)
  ∧ minFlowValue st' = Fin 3
  ∧ maxFlowValue st' = Fin 15
  ∧ lookup_or_zero (flowData st') 1 "wb-1" = Fin 15.
Proof.
  intros st'.
  destruct (scenario_store geometryIds st) as (H1 & H2 & H3 & H4 & H5 & _).
  done.
Qed.

(** C1 (as stated) fails: with the geometry identifiers [["1", "wb-2"]]
    (and the same identifiers for the series) the feature identifiers the
    render loop goes through are not normalised, and the flow of geometry
    feature ["1"] is looked up under a key the table does not have. *)
Lemma load_scenario_ids_not_normalised :
  let st' :=
    processDataAndVisualize (scenario_geopackage ["1"; "wb-2"])
      (scenario_netcdf ["1"; "wb-2"]) initial in
  featureIds st' = ["1"; "wb-2"]
  ∧ featureIds st' ≠ ["wb-1"; "wb-2"]
  ∧ lookup_or_zero (flowData st') 1 "wb-1" = Fin 15
  ∧ lookup_or_zero (flowData st') 1 "1" = Fin 0.
Proof.
  destruct (scenario_store ["1"; "wb-2"] initial) as (H1 & _ & _ & _ & H5 & H6).
  cbn zeta in *. rewrite H1. done.
Qed.

End Scenario.

(* ===================================================================== *)
(** * Lookups *)
(* ===================================================================== *)

Section Lookups.

Import MainJs.

Local Open Scope R_scope.

(** The lookup of the hover popup, [data[t]?.[id] || 0], gives 0 when
    the table is empty, when it has no slice at [t], and when the slice
    has no entry for [id]. *)
Lemma lookup_or_zero_lenient (data : table) (t : Z) (id : string) :
  data = ∅
  ∨ data !! t = None
  ∨ (∃ slice, data !! t = Some slice ∧ slice !! id = None) →
  lookup_or_zero data t id = Fin 0.
Proof.
  unfold lookup_or_zero. intros [-> | [-> | (slice & -> & Hid)]].
  - by rewrite lookup_empty.
  - done.
  - cbn. by rewrite Hid.
Qed.

Lemma lookup_or_zero_present (data : table) t id slice v :
  data !! t = Some slice → slice !! id = Some v → truthy v = true →
  lookup_or_zero data t id = v.
Proof.
  unfold lookup_or_zero. intros -> Hid Hv. cbn. rewrite Hid. cbn. by rewrite Hv.
Qed.

(** The loop of [updatePlot] throws exactly when the flow table lacks the
    slice of one of the time indices it goes through. *)
Lemma extract_None st id ts acc :
  extract st id ts acc = None
  ↔ ∃ t, t ∈ ts ∧ flowData st !! Z.of_nat t = None.
Proof.
  revert acc. induction ts as [| t ts IH]; intros acc; cbn [extract].
  - split; [done |]. intros (t & Ht & _). by apply elem_of_nil in Ht.
  - unfold extract_step.
    destruct (flowData st !! Z.of_nat t) as [slice |] eqn:Hslice.
    + rewrite IH. split.
      * intros (t' & Ht' & Hnone). exists t'. split; [by right | done].
      * intros (t' & Ht' & Hnone). exists t'. split; [| done].
        apply elem_of_cons in Ht' as [-> | Ht']; [congruence | done].
    + split; [| done]. intros _. exists t. split; [by left | done].
Qed.

Lemma updatePlot_throws st id :
  flowpathId (plotState st) = Some id →
  id ≠ "" →
  (∃ t, (t < length (timeSteps st))%nat ∧ flowData st !! Z.of_nat t = None) →
  updatePlot st = Throws st.
Proof.
  intros Hid Hne (t & Ht & Hnone). unfold updatePlot. rewrite Hid.
  destruct (String.eqb_spec id ""); [done |].
  assert (Hex : extract st id (seq 0 (length (timeSteps st)))
                  {| flowValues := []; velocityValues := []; depthValues := [] |}
                = None).
  { apply extract_None. exists t. split; [| done].
    apply elem_of_seq. lia. }
  by rewrite Hex.
Qed.

Lemma updatePlot_done st :
  (∀ t, (t < length (timeSteps st))%nat →
        is_Some (flowData st !! Z.of_nat t)) →
  ∃ st', updatePlot st = Done st'.
Proof.
  intros Hall. unfold updatePlot.
  destruct (flowpathId (plotState st)) as [id |]; [| by eexists].
  destruct (String.eqb id ""); [by eexists |].
  destruct (extract st id _ _) as [s |] eqn:Hex; [by eexists |].
  apply extract_None in Hex as (t & Ht & Hnone).
  apply elem_of_seq in Ht. destruct (Hall t) as [slice Hslice]; [lia |].
  congruence.
Qed.

(** After a load whose [num_times] is the number of its time stamps the
    chart can be drawn for any feature. *)
Lemma showTimeSeries_consistent_load gp nc st id :
  num_times nc = length (time_steps nc) →
  ∃ st', showTimeSeries id (processDataAndVisualize gp nc st) = Done st'.
Proof.
  intros Hnt. unfold showTimeSeries. apply updatePlot_done.
  cbn [timeSteps flowData set_plotState].
  destruct (processDataAndVisualize_snapshot gp nc st)
    as (_ & -> & -> & _).
  destruct (process_data_fields gp nc st) as (_ & -> & _ & _ & Hflow).
  intros t Ht. rewrite Hflow, decide_True by lia. done.
Qed.

(** C5, at the input where the code departs from it: the server announces
    one time step and sends two time stamps.  The flow table then has no
    slice at time index 1.  The hover lookup gives 0 there, but drawing
    the chart of feature ["wb-1"] reads [flowData[1]["wb-1"]] and ends in
    a [TypeError]. *)
Theorem updatePlot_raises_on_missing_slice :
  let st' :=
    processDataAndVisualize (scenario_geopackage ["wb-1"]) short_netcdf initial in
  timeSteps st' = ["2024-01-01T00:00"; "2024-01-01T01:00"]
  ∧ flowData st' !! 1%Z = None
  ∧ lookup_or_zero (flowData st') 1 "wb-1" = Fin 0
  ∧ ∃ st'', showTimeSeries "wb-1" st' = Throws st''.
Proof.
  cbn zeta.
  destruct (processDataAndVisualize_snapshot (scenario_geopackage ["wb-1"])
              short_netcdf initial) as (_ & Hts & Hf & _).
  destruct (process_data_fields (scenario_geopackage ["wb-1"])
              short_netcdf initial) as (_ & Hts' & _ & _ & Hflow).
  cbn zeta in *. rewrite Hts' in Hts. rewrite <- Hf in Hflow.
  assert (Hnone : flowData
            (processDataAndVisualize (scenario_geopackage ["wb-1"])
               short_netcdf initial) !! 1%Z = None).
  { rewrite Hflow. by rewrite decide_False by (cbn; lia). }
  split; [exact Hts |]. split; [exact Hnone |]. split.
  - apply lookup_or_zero_lenient. right; left. exact Hnone.
  - eexists. unfold showTimeSeries. apply updatePlot_throws with (id := "wb-1").
    + reflexivity.
    + done.
    + exists 1%nat. cbn [timeSteps flowData set_plotState]. rewrite Hts.
      split; [cbn; lia | exact Hnone].
Qed.

End Lookups.

(* ===================================================================== *)
(** * Series inspector of the earlier revision *)
(* ===================================================================== *)

Section Inspector.

Import Part000.

Lemma resampleData_total fuel data interval :
  1 ≤ interval → length data ≤ fuel → is_Some (resampleData fuel data interval).
Proof.
  intros Hk Hfuel. unfold resampleData.
  destruct (interval =? 1); [done |].
  destruct interval as [| k]; [lia |].
  rewrite resample_loop_blocks by lia. done.
Qed.

Lemma resample_nonempty_total fuel values interval :
  1 ≤ interval → length values ≤ fuel →
  is_Some (resample_nonempty fuel values interval).
Proof.
  intros Hk Hfuel. unfold resample_nonempty.
  case_bool_decide; [done | by apply resampleData_total].
Qed.

Lemma push_optional_length data t id values :
  length (push_optional data t id values) ≤ S (length values).
Proof.
  unfold push_optional. destruct (data !! Z.of_nat t); [| lia].
  rewrite length_app. cbn. lia.
Qed.

(** The three arrays are no longer than the time axis. *)
Lemma extract_lengths st id ts acc s :
  extract st id ts acc = Some s →
  length (flowValues s) = length (flowValues acc) + length ts
  ∧ length (velocityValues s) ≤ length (velocityValues acc) + length ts
  ∧ length (depthValues s) ≤ length (depthValues acc) + length ts.
Proof.
  revert acc. induction ts as [| t ts IH]; intros acc; cbn [extract].
  - intros [= <-]. cbn. lia.
  - unfold extract_step. destruct (flowData st !! Z.of_nat t); [| done].
    intros Hex. apply IH in Hex. cbn in Hex. rewrite length_app in Hex.
    pose proof (push_optional_length (velocityData st) t id (velocityValues acc)).
    pose proof (push_optional_length (depthData st) t id (depthValues acc)).
    cbn in *. lia.
Qed.

(** However [updatePlot] ends, the only global it has written is the
    chart. *)
Lemma updatePlot_writes_chart_only fuel st st' :
  updatePlot fuel st = Done st' ∨ updatePlot fuel st = Throws st' →
  st' = st ∨ ∃ traces, st' = set_chart (Some traces) st.
Proof.
  unfold updatePlot.
  destruct (flowpathId (plotState st)) as [id |];
    [| intros [[= <-] | ?]; [by left | done]].
  destruct (String.eqb id ""); [intros [[= <-] | ?]; [by left | done] |].
  destruct (extract st id _ _) as [s |];
    [| intros [? | [= <-]]; [done | by left]].
  destruct (resampleData fuel (flowValues s) _) as [resampledFlow |];
    [| intros [? | ?]; done].
  destruct (resample_nonempty fuel (velocityValues s) _) as [resampledVelocity |];
    [| intros [? | ?]; done].
  destruct (resample_nonempty fuel (depthValues s) _) as [resampledDepth |];
    [| intros [? | ?]; done].
  intros [[= <-] | ?]; [| done]. right. by eexists.
Qed.

Lemma updatePlot_terminates fuel st :
  1 ≤ resampleInterval (plotState st) →
  length (timeSteps st) ≤ fuel →
  updatePlot fuel st ≠ OutOfFuel.
Proof.
  intros Hk Hfuel. unfold updatePlot.
  destruct (flowpathId (plotState st)) as [id |]; [| done].
  destruct (String.eqb id ""); [done |].
  destruct (extract st id _ _) as [s |] eqn:Hex; [| done].
  apply extract_lengths in Hex as (Hf & Hv & Hd).
  rewrite length_seq in Hf, Hv, Hd. cbn in Hf, Hv, Hd.
  destruct (resampleData_total fuel (flowValues s) _ Hk) as [rf ->]; [lia |].
  destruct (resample_nonempty_total fuel (velocityValues s) _ Hk) as [rv ->];
    [lia |].
  destruct (resample_nonempty_total fuel (depthValues s) _ Hk) as [rd ->];
    [lia |].
  done.
Qed.

(** C9: with a resampling interval of at least 1 (and fuel for the
    loops of at least the length of the time axis) [updatePlot] ends,
    normally or by a [TypeError], and in the globals it leaves the time
    axis, the current time index and the three series tables are what
    they were (as are the playback flags, the flow range and the plot
    state): the series it extracts and resamples only reach the chart. *)
Theorem updatePlot_frame (fuel : nat) (st : state) :
  1 ≤ resampleInterval (plotState st) →
  length (timeSteps st) ≤ fuel →
  ∃ st',
    (updatePlot fuel st = Done st' ∨ updatePlot fuel st = Throws st')
    ∧ timeSteps st' = timeSteps st
    ∧ currentTimeIndex st' = currentTimeIndex st
    ∧ flowData st' = flowData st
    ∧ velocityData st' = velocityData st
    ∧ depthData st' = depthData st
    ∧ isPlaying st' = isPlaying st
    ∧ animationFrame st' = animationFrame st
    ∧ maxFlowValue st' = maxFlowValue st
    ∧ minFlowValue st' = minFlowValue st
    ∧ plotState st' = plotState st.
Proof.
  intros Hk Hfuel.
  pose proof (updatePlot_terminates fuel st Hk Hfuel) as Hterm.
  destruct (updatePlot fuel st) as [st' | st' |] eqn:Hout; [| | done].
  - exists st'. split; [by left |].
    destruct (updatePlot_writes_chart_only fuel st st') as [-> | [traces ->]];
      [rewrite Hout; by left | done | done].
  - exists st'. split; [by right |].
    destruct (updatePlot_writes_chart_only fuel st st') as [-> | [traces ->]];
      [rewrite Hout; by right | done | done].
Qed.

Lemma updatePlot_frame_witness :
  ∃ st',
    (updatePlot 4 chart_open = Done st' ∨ updatePlot 4 chart_open = Throws st')
    ∧ timeSteps st' = timeSteps chart_open
    ∧ currentTimeIndex st' = 3%Z
    ∧ flowData st' = flowData chart_open.
Proof.
  assert (H1 : 1 ≤ resampleInterval (plotState chart_open)) by (cbn; lia).
  assert (H2 : length (timeSteps chart_open) ≤ 4) by (cbn; lia).
  destruct (updatePlot_frame 4 chart_open H1 H2)
    as (st' & Hout & Hts & Hidx & Hflow & _).
  exists st'. split; [exact Hout |]. split; [exact Hts |].
  split; [exact Hidx | exact Hflow].
Defined.

End Inspector.

Section ChartExample.

Import Part000.

Local Open Scope R_scope.

Lemma chart_open_series :
  extract chart_open "wb-1" (seq 0 (length (timeSteps chart_open)))
    {| flowValues := []; velocityValues := []; depthValues := [] |}
  = Some {| flowValues := [Fin 10; Fin 20; Fin 30; Fin 40];
            velocityValues := []; depthValues := [] |}.
Proof.
  assert (H0 : flowData chart_open !! 0%Z = Some {[ "wb-1" := Some (Fin 10) ]})
    by reflexivity.
  assert (H1 : flowData chart_open !! 1%Z = Some {[ "wb-1" := Some (Fin 20) ]})
    by reflexivity.
  assert (H2 : flowData chart_open !! 2%Z = Some {[ "wb-1" := Some (Fin 30) ]})
    by reflexivity.
  assert (H3 : flowData chart_open !! 3%Z = Some {[ "wb-1" := Some (Fin 40) ]})
    by reflexivity.
  assert (Hv : ∀ z, velocityData chart_open !! z = None) by (intros; apply lookup_empty).
  assert (Hd : ∀ z, depthData chart_open !! z = None) by (intros; apply lookup_empty).
  change (length (timeSteps chart_open)) with 4%nat.
  cbn [seq extract]. unfold extract_step, push_optional.
  change (Z.of_nat 0) with 0%Z. change (Z.of_nat 1) with 1%Z.
  change (Z.of_nat 2) with 2%Z. change (Z.of_nat 3) with 3%Z.
  rewrite H0, H1, H2, H3, ?Hv, ?Hd, !lookup_singleton_eq.
  cbn [flowValues velocityValues depthValues app mjoin option_join]. num_eval.
  reflexivity.
Qed.

(** Drawing the chart of [chart_open]: flow averaged over blocks of two
    time steps, against the first time step of each block. *)
Example chart_open_chart :
  updatePlot 4 chart_open
  = Done (set_chart
            (Some [ {| x := [Fin 0; Fin 2]; y := [Fin 15; Fin 35];
                       name := "Flow (m³/s)" |} ])
            chart_open).
Proof.
  unfold updatePlot. cbn [plotState chart_open flowpathId resampleInterval].
  cbn [String.eqb Ascii.eqb Bool.eqb].
  change (plotState chart_open) with
    {| flowpathId := Some "wb-1";
       visibleVariables :=
         {| vis_flow := true; vis_velocity := true; vis_depth := true |};
       resampleInterval := 2 |}.
  rewrite chart_open_series. cbn [flowValues velocityValues depthValues].
  rewrite resample_example. unfold resample_nonempty.
  rewrite bool_decide_eq_true_2 by done.
  cbn [visibleVariables vis_flow vis_velocity vis_depth andb negb].
  rewrite bool_decide_eq_true_2 by done. cbn [negb app imap].
  reflexivity.
Qed.

End ChartExample.

(* ===================================================================== *)
(** * Sessions: no tick outlives a pause *)
(* ===================================================================== *)

Section Sessions.

Import MainJs.

Lemma fold_left_scheduler {A} (f : state → A → state) (l : list A) st :
  (∀ st a, scheduler (f st a) = scheduler st) →
  scheduler (fold_left f l st) = scheduler st.
Proof.
  intros Hf. revert st. induction l as [| a l IH]; intros st; [done |].
  cbn [fold_left]. by rewrite IH, Hf.
Qed.

Lemma store_feature_scheduler nc t st f :
  scheduler (store_feature nc t st f) = scheduler st.
Proof.
  unfold store_feature, scheduler.
  cbn [maxFlowValue minFlowValue set_flowData set_velocityData set_depthData].
  destruct (gtb _ (maxFlowValue st));
    cbn [minFlowValue set_maxFlowValue set_flowData set_velocityData
         set_depthData];
    destruct (ltb _ (minFlowValue st) && gtb _ (Fin 0)); reflexivity.
Qed.

Lemma process_data_scheduler gp nc st :
  scheduler (process_data gp nc st) = scheduler st.
Proof.
  unfold process_data. rewrite fold_left_scheduler; [done |].
  intros st' t. unfold store_time. rewrite fold_left_scheduler; [done |].
  intros st'' f. apply store_feature_scheduler.
Qed.

Lemma updateVisualization_scheduler timeIndex st :
  scheduler (updateVisualization timeIndex st) = scheduler st.
Proof.
  unfold scheduler.
  destruct (updateVisualization_playback timeIndex st)
    as (_ & -> & _ & -> & -> & ->).
  done.
Qed.

Lemma updatePlot_scheduler st : scheduler (after (updatePlot st)) = scheduler st.
Proof.
  unfold updatePlot. repeat case_match; reflexivity.
Qed.

(** Every handler keeps the invariant of the scheduler. *)
Lemma handle_scheduler_inv e st :
  scheduler_inv st → scheduler_inv (handle e st).
Proof.
  intros Hinv. destruct e as [speed | value | id | gp nc | fid | | fid | l r];
    cbn [handle].
  - unfold playButton_click. destruct (isPlaying st) eqn:Hplay.
    + by apply pauseAnimation_scheduler.
    + unfold playAnimation. apply animate_scheduler; [done | | apply Hinv].
      intros id d Hid. destruct Hinv as [Htick _].
      destruct (Htick id d Hid) as [Hp _]. cbn in Hp. congruence.
  - unfold timeSlider_input.
    set (st1 := updateVisualization _ _).
    assert (Hinv1 : scheduler_inv st1).
    { apply (scheduler_inv_same st); [| done].
      subst st1. by rewrite updateVisualization_scheduler. }
    destruct (isPlaying st1); [by apply pauseAnimation_scheduler | done].
  - unfold fire. destruct (timers st !! id) as [[frameDelay |] |] eqn:Hid;
      [| | done].
    + destruct Hinv as [Htick Hfresh].
      destruct (Htick id frameDelay Hid) as [Hplay Hframe].
      apply animate_scheduler; [done | |].
      * intros id' d Hid'. cbn in Hid'.
        destruct (decide (id' = id)) as [-> | Hne].
        -- by rewrite lookup_delete_eq in Hid'.
        -- rewrite lookup_delete_ne in Hid' by done.
           destruct (Htick id' d Hid') as [_ Hframe']. congruence.
      * intros id' Hid'. cbn in Hid' |- *. apply Hfresh.
        destruct (decide (id' = id)) as [-> | Hne].
        -- rewrite lookup_delete_eq in Hid'. by destruct Hid'.
        -- by rewrite lookup_delete_ne in Hid'.
    + apply trySetupLayers_scheduler, scheduler_inv_clear; [| | done].
      * by rewrite Hid.
      * intros d Hd. congruence.
  - unfold processDataAndVisualize, setupVisualization.
    assert (Hinv1 : scheduler_inv (process_data gp nc st))
      by (apply (scheduler_inv_same st);
          [apply process_data_scheduler | done]).
    destruct (_ || _); [done | by apply trySetupLayers_scheduler].
  - apply (scheduler_inv_same st); [| done].
    unfold hit_mousemove, updateHoverPopupContent, scheduler.
    repeat case_match; reflexivity.
  - by apply (scheduler_inv_same st).
  - apply (scheduler_inv_same st); [| done].
    unfold showTimeSeries. by rewrite updatePlot_scheduler.
  - by apply (scheduler_inv_same st).
Qed.

Lemma scheduler_inv_initial : scheduler_inv initial.
Proof.
  split.
  - intros id frameDelay Hid. cbn in Hid. by rewrite lookup_empty in Hid.
  - intros id [cb Hid]. cbn in Hid. by rewrite lookup_empty in Hid.
Qed.

Lemma session_scheduler_inv es st :
  scheduler_inv st → scheduler_inv (session es st).
Proof.
  revert st. induction es as [| e es IH]; intros st Hinv; [done |].
  unfold session in *. cbn [fold_left]. by apply IH, handle_scheduler_inv.
Qed.

(** In whatever state a session of the page is, a stopped animation has
    no tick pending: no tick scheduled before a pause is left to fire
    after it, not even once the animation is started again. *)
Lemma stopped_has_no_pending_tick es :
  isPlaying (session es initial) = false →
  ∀ id frameDelay,
    timers (session es initial) !! id ≠ Some (Animate frameDelay).
Proof.
  intros Hstop id frameDelay Hid.
  destruct (session_scheduler_inv es initial scheduler_inv_initial)
    as [Htick _].
  destruct (Htick id frameDelay Hid) as [Hplay _]. congruence.
Qed.

End Sessions.

(* ===================================================================== *)
(** * The mapper on a proper range *)
(* ===================================================================== *)

Section MapperRange.

Import MainJs.

Local Open Scope R_scope.

(** On a range [min < max] of finite numbers above [-1], [normalized] of
    a finite value above [-1] is the quotient of the differences of
    logarithms. *)
Lemma normalized_finite (m M v : R) :
  -1 < m → m < M → -1 < v →
  normalized (Fin m) (Fin M) (Fin v)
  = Fin ((ln (v + 1) + - ln (m + 1)) / (ln (M + 1) + - ln (m + 1))).
Proof.
  intros Hm HM Hv. unfold normalized.
  assert (ln (m + 1) < ln (M + 1)) by (apply ln_increasing; lra).
  num_eval. reflexivity.
Qed.

Lemma normalized_increasing (m M v1 v2 : R) :
  -1 < m → m < M → -1 < v1 → v1 < v2 →
  (ln (v1 + 1) + - ln (m + 1)) / (ln (M + 1) + - ln (m + 1))
  < (ln (v2 + 1) + - ln (m + 1)) / (ln (M + 1) + - ln (m + 1)).
Proof.
  intros Hm HM Hv1 Hv.
  assert (ln (m + 1) < ln (M + 1)) by (apply ln_increasing; lra).
  assert (ln (v1 + 1) < ln (v2 + 1)) by (apply ln_increasing; lra).
  unfold Rdiv. apply Rmult_lt_compat_r; [| lra].
  apply Rinv_0_lt_compat. lra.
Qed.

Lemma normalized_at_min (m M : R) :
  -1 < m → m < M →
  (ln (m + 1) + - ln (m + 1)) / (ln (M + 1) + - ln (m + 1)) = 0.
Proof.
  intros Hm HM.
  assert (ln (m + 1) < ln (M + 1)) by (apply ln_increasing; lra).
  field. lra.
Qed.

Lemma normalized_at_max (m M : R) :
  -1 < m → m < M →
  (ln (M + 1) + - ln (m + 1)) / (ln (M + 1) + - ln (m + 1)) = 1.
Proof.
  intros Hm HM.
  assert (ln (m + 1) < ln (M + 1)) by (apply ln_increasing; lra).
  field. lra.
Qed.

Lemma leb_pos_false (v : R) : 0 < v → leb (Fin v) (Fin 0) = false.
Proof. intros Hv. cbn. apply Rleb_false. lra. Qed.

(** X1: on a range with [min < max], the width grows strictly with the
    value: a larger positive flow is drawn with a wider line. *)
Theorem width_increasing (m M v1 v2 : R) :
  0 <= m → m < M → 0 < v1 → v1 < v2 →
  ∃ w1 w2,
    getWidthForFlow (Fin m) (Fin M) (Fin v1) = Fin w1
    ∧ getWidthForFlow (Fin m) (Fin M) (Fin v2) = Fin w2
    ∧ w1 < w2.
Proof.
  intros Hm HM Hv1 Hv.
  pose proof (normalized_increasing m M v1 v2) as Hinc.
  unfold getWidthForFlow.
  rewrite !leb_pos_false by lra.
  rewrite !normalized_finite by lra. cbn [mul add].
  eexists _, _. split; [reflexivity |]. split; [reflexivity |]. lra.
Qed.

Lemma width_increasing_witness :
  ∃ w1 w2,
    getWidthForFlow (Fin 1) (Fin 100) (Fin 10) = Fin w1
    ∧ getWidthForFlow (Fin 1) (Fin 100) (Fin 90) = Fin w2
    ∧ w1 < w2.
Proof.
  assert (H1 : 0 <= 1) by lra.
  assert (H2 : 1 < 100) by lra.
  assert (H3 : 0 < 10) by lra.
  assert (H4 : 10 < 90) by lra.
  exact (width_increasing 1 100 10 90 H1 H2 H3 H4).
Defined.

End MapperRange.

Section MapperRamp.

Import MainJs.

Local Open Scope R_scope.

(** A channel interpolated with a factor in [0, 1] rounds to an integer
    between the two channel values. *)
Lemma channel_between (c1 c2 : Z) (f : R) :
  0 <= f <= 1 →
  ∃ z, channel c1 c2 (Fin f) = RInt z
       ∧ (Z.min c1 c2 <= z <= Z.max c1 c2)%Z.
Proof.
  intros Hf. unfold channel. cbn [of_Z sub neg add mul round].
  eexists. split; [reflexivity |].
  set (y := IZR c1 + (IZR c2 + - IZR c1) * f).
  assert (Hy : IZR (Z.min c1 c2) <= y <= IZR (Z.max c1 c2)).
  { subst y. destruct (Z.le_ge_cases c1 c2) as [Hle | Hge].
    - rewrite Z.min_l, Z.max_r by lia. apply IZR_le in Hle. nra.
    - rewrite Z.min_r, Z.max_l by lia. apply IZR_le in Hge. nra. }
  split.
  - apply Zfloor_lub. lra.
  - pose proof (Zfloor_bound (y + / 2)) as [Hlow _].
    assert (Hlt : IZR (Zfloor (y + / 2)) < IZR (Z.max c1 c2 + 1)).
    { rewrite plus_IZR. lra. }
    apply lt_IZR in Hlt. lia.
Qed.

(** For [n] in [0, 1] the loop finds a pair of control points a quarter
    apart that brackets [n]; their channels are within [0, 255]. *)
Lemma bracket_unit (n : R) :
  0 <= n <= 1 →
  ∃ c1 c2 p1 p2,
    bracket (Fin n) colors = Some (c1, c2)
    ∧ pos c1 = Fin p1 ∧ pos c2 = Fin p2
    ∧ p1 <= n <= p2 ∧ p2 - p1 = 1 / 4
    ∧ (0 <= r c1 <= 255 ∧ 0 <= g c1 <= 255 ∧ 0 <= b c1 <= 255)%Z
    ∧ (0 <= r c2 <= 255 ∧ 0 <= g c2 <= 255 ∧ 0 <= b c2 <= 255)%Z.
Proof.
  intros Hn. cbn [bracket colors pos]. unfold geb. cbn [leb].
  destruct (Rle_dec n (1 / 4)) as [H1 | H1].
  { real_dec. cbn [andb].
    eexists _, _, _, _. split; [reflexivity |]. cbn [pos r g b].
    repeat split; try reflexivity; try lra; lia. }
  destruct (Rle_dec n (1 / 2)) as [H2 | H2].
  { real_dec. cbn [andb].
    eexists _, _, _, _. split; [reflexivity |]. cbn [pos r g b].
    repeat split; try reflexivity; try lra; lia. }
  destruct (Rle_dec n (3 / 4)) as [H3 | H3].
  { real_dec. cbn [andb].
    eexists _, _, _, _. split; [reflexivity |]. cbn [pos r g b].
    repeat split; try reflexivity; try lra; lia. }
  real_dec. cbn [andb].
  eexists _, _, _, _. split; [reflexivity |]. cbn [pos r g b].
  repeat split; try reflexivity; try lra; lia.
Qed.

(** The style for a [normalized] within [0, 1]. *)
Lemma style_unit minFlowValue maxFlowValue value (n : R) :
  leb value (Fin 0) = false →
  normalized minFlowValue maxFlowValue value = Fin n →
  0 <= n <= 1 →
  ∃ red green blue : Z,
    getColorForFlow minFlowValue maxFlowValue value
    = "rgb(" +:+ pretty red +:+ ", " +:+ pretty green +:+ ", "
      +:+ pretty blue +:+ ")"
    ∧ (0 <= red <= 255 ∧ 0 <= green <= 255 ∧ 0 <= blue <= 255)%Z.
Proof.
  intros Hv Hnorm Hn. unfold getColorForFlow. rewrite Hv, Hnorm.
  destruct (bracket_unit n Hn)
    as (c1 & c2 & p1 & p2 & -> & Hp1 & Hp2 & Hin & Hgap & Hc1 & Hc2).
  cbn zeta beta iota. rewrite Hp1, Hp2. cbn [sub neg add div].
  rewrite (Rsgn_pos (p2 + - p1)) by lra.
  assert (Hf : 0 <= (n + - p1) / (p2 + - p1) <= 1).
  { replace (p2 + - p1) with (1 / 4) by lra. lra. }
  destruct (channel_between (r c1) (r c2) _ Hf) as (red & -> & Hred).
  destruct (channel_between (g c1) (g c2) _ Hf) as (green & -> & Hgreen).
  destruct (channel_between (b c1) (b c2) _ Hf) as (blue & -> & Hblue).
  exists red, green, blue. split; [reflexivity |]. lia.
Qed.

End MapperRamp.

Section MapperOnData.

Import MainJs.

Local Open Scope R_scope.

(** X2: with idealised (exact) arithmetic, rounding not modelled, on a
    range with [0 <= min < max] a positive value within the range has a
    [normalized] within [0, 1]: its colour is [rgb(r, g, b)] with three
    integers between 0 and 255, and its width is between 1 and 8.  (In
    binary64 the two logarithms of the divisor can come out equal, for a
    range so small that [min + 1] and [max + 1] round to the same number;
    the code then divides by 0.) *)
Theorem style_within_range (m M v : R) :
  0 <= m → m < M → 0 < v → m <= v <= M →
  ∃ (red green blue : Z) (w : R),
    getColorForFlow (Fin m) (Fin M) (Fin v)
    = "rgb(" +:+ pretty red +:+ ", " +:+ pretty green +:+ ", "
      +:+ pretty blue +:+ ")"
    ∧ (0 <= red <= 255 ∧ 0 <= green <= 255 ∧ 0 <= blue <= 255)%Z
    ∧ getWidthForFlow (Fin m) (Fin M) (Fin v) = Fin w
    ∧ 1 <= w <= 8.
Proof.
  intros Hm HM Hv Hin.
  assert (Hlm : ln (m + 1) < ln (M + 1)) by (apply ln_increasing; lra).
  assert (Hlv : ln (m + 1) <= ln (v + 1) <= ln (M + 1)).
  { split.
    - destruct (Req_dec m v) as [-> | Hne]; [lra |].
      left. apply ln_increasing; lra.
    - destruct (Req_dec v M) as [-> | Hne]; [lra |].
      left. apply ln_increasing; lra. }
  set (n := (ln (v + 1) + - ln (m + 1)) / (ln (M + 1) + - ln (m + 1))).
  assert (Hn : 0 <= n <= 1).
  { subst n. split.
    - apply Rmult_le_pos; [lra |]. left. apply Rinv_0_lt_compat. lra.
    - apply (Rmult_le_reg_r (ln (M + 1) + - ln (m + 1))); [lra |].
      unfold Rdiv. rewrite Rmult_assoc, Rinv_l by lra. lra. }
  destruct (style_unit (Fin m) (Fin M) (Fin v) n)
    as (red & green & blue & Hcolor & Hrgb);
    [by apply leb_pos_false | by apply normalized_finite; lra | exact Hn |].
  exists red, green, blue, (1 + n * 7).
  split; [exact Hcolor |]. split; [exact Hrgb |]. split; [| lra].
  unfold getWidthForFlow. rewrite leb_pos_false by lra.
  rewrite normalized_finite by lra. reflexivity.
Qed.

Lemma style_within_range_witness :
  ∃ (red green blue : Z) (w : R),
    getColorForFlow (Fin 1) (Fin 100) (Fin 10)
    = "rgb(" +:+ pretty red +:+ ", " +:+ pretty green +:+ ", "
      +:+ pretty blue +:+ ")"
    ∧ (0 <= red <= 255 ∧ 0 <= green <= 255 ∧ 0 <= blue <= 255)%Z
    ∧ getWidthForFlow (Fin 1) (Fin 100) (Fin 10) = Fin w
    ∧ 1 <= w <= 8.
Proof.
  assert (H1 : 0 <= 1) by lra.
  assert (H2 : 1 < 100) by lra.
  assert (H3 : 0 < 10) by lra.
  assert (H4 : 1 <= 10 <= 100) by lra.
  exact (style_within_range 1 100 10 H1 H2 H3 H4).
Defined.

(** The style at a [normalized] of 0: the first control point. *)
Lemma style_of_bottom minFlowValue maxFlowValue value :
  leb value (Fin 0) = false →
  normalized minFlowValue maxFlowValue value = Fin 0 →
  getColorForFlow minFlowValue maxFlowValue value = "rgb(59, 130, 246)"
  ∧ getWidthForFlow minFlowValue maxFlowValue value = Fin 1.
Proof.
  intros Hv Hn. unfold getColorForFlow, getWidthForFlow.
  rewrite Hv, Hn. split.
  - cbn [bracket colors pos]. num_eval.
    cbn [pos r g b]. unfold channel. num_eval.
    rewrite (round_Z _ 59), (round_Z _ 130), (round_Z _ 246) by (field; lra).
    reflexivity.
  - num_eval. f_equal. lra.
Qed.

(** X3: with idealised (exact) arithmetic, rounding not modelled, on a
    range with [0 < min < max] the two ends of the range get the two ends
    of the ramp: the least positive flow is drawn blue with width 1 and
    the greatest red with width 8.  (In binary64 this needs the two
    logarithms of the divisor to differ.) *)
Theorem style_at_range_ends (m M : R) :
  0 < m → m < M →
  getColorForFlow (Fin m) (Fin M) (Fin m) = "rgb(59, 130, 246)"
  ∧ getWidthForFlow (Fin m) (Fin M) (Fin m) = Fin 1
  ∧ getColorForFlow (Fin m) (Fin M) (Fin M) = "rgb(239, 68, 68)"
  ∧ getWidthForFlow (Fin m) (Fin M) (Fin M) = Fin 8.
Proof.
  intros Hm HM.
  destruct (style_of_bottom (Fin m) (Fin M) (Fin m)) as [Hc Hw].
  { apply leb_pos_false. lra. }
  { rewrite normalized_finite by lra. f_equal. apply normalized_at_min; lra. }
  destruct (style_of_top (Fin m) (Fin M) (Fin M)) as [Hc' Hw'].
  { apply leb_pos_false. lra. }
  { rewrite normalized_finite by lra. f_equal. apply normalized_at_max; lra. }
  done.
Qed.

Lemma style_at_range_ends_witness :
  getColorForFlow (Fin 3) (Fin 15) (Fin 3) = "rgb(59, 130, 246)"
  ∧ getWidthForFlow (Fin 3) (Fin 15) (Fin 3) = Fin 1
  ∧ getColorForFlow (Fin 3) (Fin 15) (Fin 15) = "rgb(239, 68, 68)"
  ∧ getWidthForFlow (Fin 3) (Fin 15) (Fin 15) = Fin 8.
Proof.
  assert (H1 : 0 < 3) by lra.
  assert (H2 : 3 < 15) by lra.
  exact (style_at_range_ends 3 15 H1 H2).
Defined.

(** X4: the mapper does not clamp.  With idealised (exact) arithmetic,
    rounding not modelled, on a range with [0 <= min < max] a value above
    the maximum has a [normalized] above 1 that no pair of control points
    brackets: the first pair is extrapolated, the red channel comes out
    negative and the green one above 255, and the width is above 8.  (In
    binary64 a value so little above the maximum that the logarithms
    agree is styled as the maximum.) *)
Theorem style_above_range (m M v : R) :
  0 <= m → m < M → M < v →
  ∃ (red green blue : Z) (w : R),
    getColorForFlow (Fin m) (Fin M) (Fin v)
    = "rgb(" +:+ pretty red +:+ ", " +:+ pretty green +:+ ", "
      +:+ pretty blue +:+ ")"
    ∧ (red < 0)%Z ∧ (255 < green)%Z
    ∧ getWidthForFlow (Fin m) (Fin M) (Fin v) = Fin w
    ∧ 8 < w.
Proof.
  intros Hm HM Hv.
  pose proof (normalized_increasing m M M v) as Hinc.
  rewrite normalized_at_max in Hinc by lra.
  set (n := (ln (v + 1) + - ln (m + 1)) / (ln (M + 1) + - ln (m + 1))) in *.
  assert (Hn : 1 < n) by (apply Hinc; lra).
  unfold getColorForFlow, getWidthForFlow.
  rewrite leb_pos_false by lra. rewrite normalized_finite by lra. fold n.
  cbn [bracket colors pos]. unfold geb. cbn [leb]. real_dec. cbn [andb].
  cbn [lookup_total list_lookup_total colors pos r g b].
  unfold channel. cbn [of_Z sub neg add mul div round].
  rewrite (Rsgn_pos (1 / 4 + - 0)) by lra.
  replace ((n + - 0) / (1 / 4 + - 0)) with (4 * n) by (field; lra).
  eexists _, _, _, (1 + n * 7).
  split; [reflexivity |]. split; [| split; [| split; [reflexivity | lra]]].
  - match goal with |- (Zfloor ?y < 0)%Z =>
      pose proof (Zfloor_bound y) as [Hlow _];
      assert (Hlt : IZR (Zfloor y) < 0) by lra
    end.
    by apply (lt_IZR _ 0) in Hlt.
  - match goal with |- (255 < Zfloor ?y)%Z =>
      assert (Hle : (256 <= Zfloor y)%Z) by (apply Zfloor_lub; lra)
    end.
    lia.
Qed.

Lemma style_above_range_witness :
  ∃ (red green blue : Z) (w : R),
    getColorForFlow (Fin 1) (Fin 100) (Fin 200)
    = "rgb(" +:+ pretty red +:+ ", " +:+ pretty green +:+ ", "
      +:+ pretty blue +:+ ")"
    ∧ (red < 0)%Z ∧ (255 < green)%Z
    ∧ getWidthForFlow (Fin 1) (Fin 100) (Fin 200) = Fin w
    ∧ 8 < w.
Proof.
  assert (H1 : 0 <= 1) by lra.
  assert (H2 : 1 < 100) by lra.
  assert (H3 : 100 < 200) by lra.
  exact (style_above_range 1 100 200 H1 H2 H3).
Defined.

End MapperOnData.

(* ===================================================================== *)
(** * The series store after a load *)
(* ===================================================================== *)

Section StoreContents.

Import MainJs.

Local Open Scope R_scope.

Lemma or_zero_idem v : or_zero (Some (or_zero v)) = or_zero v.
Proof.
  destruct v as [[x | | |] |]; cbn; try done.
  - destruct (Rsgn x) eqn:Hx; cbn; rewrite ?Hx; try done.
    by rewrite Rsgn_zero.
  - by rewrite Rsgn_zero.
  - by rewrite Rsgn_zero.
Qed.

Section Inserts.

Context {V : Type} (key : nat → string) (val : nat → V).

Lemma fold_insert_other fs (slice : gmap string V) k :
  (∀ f, f ∈ fs → key f ≠ k) →
  fold_left (λ slice f, <[key f := val f]> slice) fs slice !! k = slice !! k.
Proof.
  revert slice. induction fs as [| f fs IH]; intros slice Hfs; [done |].
  cbn [fold_left]. rewrite IH.
  - apply lookup_insert_ne, Hfs. by left.
  - intros f' Hf'. apply Hfs. by right.
Qed.

Lemma fold_insert_last fs1 f fs2 (slice : gmap string V) :
  (∀ f', f' ∈ fs2 → key f' ≠ key f) →
  fold_left (λ slice f, <[key f := val f]> slice) (fs1 ++ f :: fs2) slice
    !! key f = Some (val f).
Proof.
  intros Hfs2. rewrite fold_left_app. cbn [fold_left].
  rewrite fold_insert_other by done. apply lookup_insert_eq.
Qed.

Lemma fold_insert_dom fs (slice : gmap string V) k :
  is_Some (fold_left (λ slice f, <[key f := val f]> slice) fs slice !! k)
  ↔ is_Some (slice !! k) ∨ ∃ f, f ∈ fs ∧ k = key f.
Proof.
  revert slice. induction fs as [| f fs IH]; intros slice.
  - cbn. split; [by left |]. intros [H | (f & Hf & _)]; [done |].
    by apply elem_of_nil in Hf.
  - cbn [fold_left]. rewrite IH. split.
    + intros [H | (f' & Hf' & ->)].
      * destruct (decide (key f = k)) as [<- | Hne].
        -- right. exists f. split; [by left | done].
        -- left. by rewrite lookup_insert_ne in H.
      * right. exists f'. split; [by right | done].
    + intros [H | (f' & Hf' & ->)].
      * left. destruct (decide (key f = k)) as [<- | Hne].
        -- by rewrite lookup_insert_eq.
        -- by rewrite lookup_insert_ne.
      * apply elem_of_cons in Hf' as [-> | Hf'].
        -- left. by rewrite lookup_insert_eq.
        -- right. by exists f'.
Qed.

End Inserts.

Lemma flow_slice_last nc t f :
  (f < num_features nc)%nat →
  (∀ f', (f < f' < num_features nc)%nat → key_at nc f' ≠ key_at nc f) →
  flow_slice nc t !! key_at nc f = Some (flowValue_at nc t f).
Proof.
  intros Hf Hlast. unfold flow_slice.
  assert (Hsplit : seq 0 (num_features nc)
                   = seq 0 f ++ f :: seq (S f) (num_features nc - S f)).
  { replace (num_features nc) with (f + S (num_features nc - S f))%nat at 1
      by lia.
    by rewrite seq_app. }
  rewrite Hsplit.
  apply (fold_insert_last (key_at nc) (flowValue_at nc t)).
  intros f' Hf'. apply elem_of_seq in Hf'. apply Hlast. lia.
Qed.

Lemma flow_slice_dom nc t k :
  is_Some (flow_slice nc t !! k)
  ↔ ∃ f, (f < num_features nc)%nat ∧ k = key_at nc f.
Proof.
  unfold flow_slice.
  rewrite (fold_insert_dom (key_at nc) (flowValue_at nc t)). split.
  - intros [H | (f & Hf & ->)].
    + rewrite lookup_empty in H. by destruct H.
    + exists f. apply elem_of_seq in Hf. split; [lia | done].
  - intros (f & Hf & ->). right. exists f. split; [| done].
    apply elem_of_seq. lia.
Qed.

Lemma flow_slice_values nc t k v :
  flow_slice nc t !! k = Some v → ∃ f, v = flowValue_at nc t f.
Proof.
  unfold flow_slice. generalize (seq 0 (num_features nc)). intros fs.
  assert (Hgen : ∀ slice : gmap string number,
            (∀ v', slice !! k = Some v' → ∃ f, v' = flowValue_at nc t f) →
            fold_left (λ slice f, <[key_at nc f := flowValue_at nc t f]> slice)
              fs slice !! k = Some v →
            ∃ f, v = flowValue_at nc t f).
  { induction fs as [| f fs IH]; intros slice Hslice; cbn [fold_left].
    - apply Hslice.
    - apply IH. intros v'.
      destruct (decide (key_at nc f = k)) as [<- | Hne].
      + rewrite lookup_insert_eq. intros [= <-]. by exists f.
      + rewrite lookup_insert_ne by done. apply Hslice. }
  apply Hgen. intros v'. by rewrite lookup_empty.
Qed.

Lemma flowId_startsWith x : startsWith (flowId x) "wb-" = true.
Proof.
  unfold flowId. destruct (startsWith x "wb-") eqn:Hx; [exact Hx |].
  apply (startsWith_app "wb-").
Qed.

(** The flow table of a loaded state, read off the server's arrays. *)
Lemma loaded_flowData gp nc st z :
  flowData (processDataAndVisualize gp nc st) !! z
  = if decide (0 ≤ z < Z.of_nat (num_times nc))%Z
    then Some (flow_slice nc (Z.to_nat z)) else None.
Proof.
  destruct (processDataAndVisualize_snapshot gp nc st)
    as (_ & _ & -> & _).
  by destruct (process_data_fields gp nc st) as (_ & _ & _ & _ & ->).
Qed.

(** X6: after a load the flow table has an entry at a time index and a
    key exactly when the index is below [num_times] and the key is the
    normalised identifier of a feature index below [num_features]; every
    key starts with ["wb-"], and no stored flow is [NaN]. *)
Theorem loaded_table_entries (gp : geopackageData) (nc : netcdfData)
    (st : state) :
  let st' := processDataAndVisualize gp nc st in
  (∀ z k,
     is_Some (flowData st' !! z ≫= λ slice, slice !! k)
     ↔ (0 ≤ z < Z.of_nat (num_times nc))%Z
       ∧ ∃ f, (f < num_features nc)%nat
              ∧ k = flowId (idStr (feature_ids nc) f))
  ∧ (∀ z k v,
       flowData st' !! z ≫= (λ slice, slice !! k) = Some v →
       startsWith k "wb-" = true ∧ v ≠ NaN).
Proof.
  cbn zeta.
  assert (Hentries : ∀ z k,
    is_Some (flowData (processDataAndVisualize gp nc st) !! z
               ≫= λ slice, slice !! k)
    ↔ (0 ≤ z < Z.of_nat (num_times nc))%Z
      ∧ ∃ f, (f < num_features nc)%nat
             ∧ k = flowId (idStr (feature_ids nc) f)).
  { intros z k. rewrite loaded_flowData.
    destruct (decide _) as [Hz | Hz]; cbn.
    - rewrite flow_slice_dom. unfold key_at. tauto.
    - split; [by intros [] | tauto]. }
  split; [exact Hentries |].
  intros z k v Hv. split.
  - destruct (proj1 (Hentries z k)) as (_ & f & _ & ->); [by rewrite Hv |].
    apply flowId_startsWith.
  - rewrite loaded_flowData in Hv. destruct (decide _); [| done]. cbn in Hv.
    apply flow_slice_values in Hv as (f & ->). apply or_zero_not_NaN.
Qed.

(** X7: reading back what a load stored.  For a time index below
    [num_times] and a feature index below [num_features] whose
    normalised identifier is not that of a later feature, the lenient
    lookup under that identifier gives the flow of the server's cell, or 0
    when the cell is missing, [null], [NaN] or 0.  (Of features whose
    identifiers normalise to the same key, the last one is kept.) *)
Theorem loaded_flow_lookup (gp : geopackageData) (nc : netcdfData)
    (st : state) (t f : nat) :
  (t < num_times nc)%nat →
  (f < num_features nc)%nat →
  (∀ f', (f < f' < num_features nc)%nat →
         flowId (idStr (feature_ids nc) f') ≠ flowId (idStr (feature_ids nc) f)) →
  lookup_or_zero (flowData (processDataAndVisualize gp nc st)) (Z.of_nat t)
    (flowId (idStr (feature_ids nc) f))
  = or_zero (cell (flow nc) t f).
Proof.
  intros Ht Hf Hlast. unfold lookup_or_zero.
  rewrite loaded_flowData, decide_True, Nat2Z.id by lia. cbn [mbind option_bind].
  fold (key_at nc f). rewrite (flow_slice_last nc t f Hf Hlast).
  unfold flowValue_at. apply or_zero_idem.
Qed.

Lemma loaded_flow_lookup_witness :
  lookup_or_zero
    (flowData
       (processDataAndVisualize (scenario_geopackage ["wb-1"; "wb-2"])
          (scenario_netcdf ["1"; "1"]) initial))
    1%Z "wb-1"
  = or_zero (Some (Fin 3)).
Proof.
  assert (H1 : (1 < num_times (scenario_netcdf ["1"; "1"]))%nat) by (cbn; lia).
  assert (H2 : (1 < num_features (scenario_netcdf ["1"; "1"]))%nat)
    by (cbn; lia).
  assert (H3 : ∀ f', (1 < f' < num_features (scenario_netcdf ["1"; "1"]))%nat →
                flowId (idStr (feature_ids (scenario_netcdf ["1"; "1"])) f')
                ≠ flowId (idStr (feature_ids (scenario_netcdf ["1"; "1"])) 1))
    by (cbn; intros f' ?; lia).
  exact (loaded_flow_lookup (scenario_geopackage ["wb-1"; "wb-2"])
           (scenario_netcdf ["1"; "1"]) initial 1 1 H1 H2 H3).
Defined.

End StoreContents.

(* ===================================================================== *)
(** * Velocity and depth: the optional tables *)
(* ===================================================================== *)

Section OptionalTables.

Import MainJs.

Lemma fold_left_keeps {S A C} (proj : S → C) (f : S → A → S) (l : list A) st :
  (∀ st a, proj (f st a) = proj st) → proj (fold_left f l st) = proj st.
Proof.
  intros Hf. revert st. induction l as [| a l IH]; intros st; [done |].
  cbn [fold_left]. by rewrite IH, Hf.
Qed.

Lemma fold_left_proj {S A C} (proj : S → C) (f : S → A → S) (g : C → A → C)
    (l : list A) st :
  (∀ st a, proj (f st a) = g (proj st) a) →
  proj (fold_left f l st) = fold_left g l (proj st).
Proof.
  intros Hf. revert st. induction l as [| a l IH]; intros st; [done |].
  cbn [fold_left]. by rewrite IH, Hf.
Qed.

Lemma store_feature_optional nc t st f :
  velocityData (store_feature nc t st f)
  = store_optional (velocity nc) t f (key_at nc f) (velocityData st)
  ∧ depthData (store_feature nc t st f)
    = store_optional (depth nc) t f (key_at nc f) (depthData st).
Proof.
  unfold store_feature, key_at.
  cbn [maxFlowValue minFlowValue set_flowData set_velocityData set_depthData].
  destruct (gtb _ (maxFlowValue st));
    cbn [minFlowValue set_maxFlowValue set_flowData set_velocityData
         set_depthData];
    destruct (ltb _ (minFlowValue st) && gtb _ (Fin 0)); done.
Qed.

Lemma store_time_optional nc st t :
  velocityData (store_time nc st t)
  = optional_step (velocity nc) nc (velocityData st) t
  ∧ depthData (store_time nc st t)
    = optional_step (depth nc) nc (depthData st) t.
Proof.
  unfold store_time, optional_step. split.
  - rewrite (fold_left_proj velocityData _
               (λ data f, store_optional (velocity nc) t f (key_at nc f) data));
      [done |].
    intros st' f. apply store_feature_optional.
  - rewrite (fold_left_proj depthData _
               (λ data f, store_optional (depth nc) t f (key_at nc f) data));
      [done |].
    intros st' f. apply store_feature_optional.
Qed.

Lemma process_data_optional gp nc st :
  velocityData (process_data gp nc st)
  = fold_left (optional_step (velocity nc) nc) (seq 0 (num_times nc)) ∅
  ∧ depthData (process_data gp nc st)
    = fold_left (optional_step (depth nc) nc) (seq 0 (num_times nc)) ∅.
Proof.
  unfold process_data. split.
  - rewrite (fold_left_proj velocityData _ (optional_step (velocity nc) nc));
      [done |].
    intros st' t. apply store_time_optional.
  - rewrite (fold_left_proj depthData _ (optional_step (depth nc) nc));
      [done |].
    intros st' t. apply store_time_optional.
Qed.

Lemma store_optional_slices a t f id (data : table) z :
  is_Some (store_optional a t f id data !! z) ↔ is_Some (data !! z).
Proof.
  unfold store_optional. destruct a as [rows |]; [| done].
  destruct (rows !! t); [| done]. unfold store.
  destruct (decide (Z.of_nat t = z)) as [<- | Hne].
  - rewrite lookup_alter_eq. by rewrite fmap_is_Some.
  - by rewrite lookup_alter_ne.
Qed.

Lemma optional_step_slices a nc (data : table) t z :
  is_Some (optional_step a nc data t !! z)
  ↔ is_Some (data !! z) ∨ (is_Some a ∧ z = Z.of_nat t).
Proof.
  unfold optional_step.
  assert (Hfold : ∀ fs (d : table),
            is_Some (fold_left
                       (λ data f, store_optional a t f (key_at nc f) data)
                       fs d !! z) ↔ is_Some (d !! z)).
  { induction fs as [| f fs IH]; intros d; [done |].
    cbn [fold_left]. by rewrite IH, store_optional_slices. }
  rewrite Hfold. unfold open_slice. destruct a as [rows |].
  - destruct (decide (z = Z.of_nat t)) as [-> | Hne].
    + rewrite lookup_insert_eq. split; [| done]. intros _. right. done.
    + rewrite lookup_insert_ne by done. split; [by left |].
      intros [H | [_ H]]; done.
  - split; [by left |]. intros [H | [[? H] _]]; done.
Qed.

(** After a load an optional table has a slice at exactly the time
    indices below [num_times] when the server sent its array, and no
    slice at all when it did not. *)
Lemma loaded_optional_slices a nc n z :
  is_Some (fold_left (optional_step a nc) (seq 0 n) ∅ !! z)
  ↔ is_Some a ∧ (0 ≤ z < Z.of_nat n)%Z.
Proof.
  induction n as [| n IH].
  - cbn. rewrite lookup_empty. split; [by intros [] | lia].
  - rewrite seq_S, fold_left_app. cbn [fold_left Nat.add].
    rewrite optional_step_slices, IH. split.
    + intros [[Ha Hz] | [Ha ->]]; (split; [done | lia]).
    + intros [Ha Hz]. destruct (decide (z = Z.of_nat n)); [by right |].
      left. split; [done | lia].
Qed.

End OptionalTables.

(* ===================================================================== *)
(** * The chart of a loaded dataset *)
(* ===================================================================== *)

Section Chart.

Import MainJs.

Lemma push_optional_cases (data : table) t id values :
  (is_Some (data !! Z.of_nat t) →
   length (push_optional data t id values) = S (length values))
  ∧ (data !! Z.of_nat t = None → push_optional data t id values = values).
Proof.
  unfold push_optional. destruct (data !! Z.of_nat t) as [slice |].
  - split; [| done]. intros _. rewrite length_app. cbn. lia.
  - split; [by intros [] | done].
Qed.

(** What the loop of [updatePlot] has collected when it ends normally. *)
Lemma extract_series st id ts acc s :
  extract st id ts acc = Some s →
  length (flowValues s) = length (flowValues acc) + length ts
  ∧ ((∀ t, t ∈ ts → is_Some (velocityData st !! Z.of_nat t)) →
     length (velocityValues s) = length (velocityValues acc) + length ts)
  ∧ ((∀ t, t ∈ ts → velocityData st !! Z.of_nat t = None) →
     velocityValues s = velocityValues acc)
  ∧ ((∀ t, t ∈ ts → is_Some (depthData st !! Z.of_nat t)) →
     length (depthValues s) = length (depthValues acc) + length ts)
  ∧ ((∀ t, t ∈ ts → depthData st !! Z.of_nat t = None) →
     depthValues s = depthValues acc).
Proof.
  revert acc. induction ts as [| t ts IH]; intros acc; cbn [extract].
  - intros [= <-]. cbn. repeat split; intros; lia || done.
  - unfold extract_step. destruct (flowData st !! Z.of_nat t); [| done].
    intros Hex. apply IH in Hex as (Hf & Hv & Hv0 & Hd & Hd0).
    cbn [flowValues velocityValues depthValues] in *.
    destruct (push_optional_cases (velocityData st) t id (velocityValues acc))
      as [Hpv Hpv0].
    destruct (push_optional_cases (depthData st) t id (depthValues acc))
      as [Hpd Hpd0].
    rewrite length_app in Hf. cbn [length] in *.
    split; [lia |]. split; [| split; [| split]].
    + intros Hall. rewrite Hv, Hpv; [lia | |].
      * apply Hall. by left.
      * intros t' Ht'. apply Hall. by right.
    + intros Hall. rewrite Hv0, Hpv0; [done | |].
      * apply Hall. by left.
      * intros t' Ht'. apply Hall. by right.
    + intros Hall. rewrite Hd, Hpd; [lia | |].
      * apply Hall. by left.
      * intros t' Ht'. apply Hall. by right.
    + intros Hall. rewrite Hd0, Hpd0; [done | |].
      * apply Hall. by left.
      * intros t' Ht'. apply Hall. by right.
Qed.

Lemma process_data_plotState gp nc st :
  plotState (process_data gp nc st) = plotState st.
Proof.
  unfold process_data. rewrite fold_left_keeps; [done |].
  intros st' t. unfold store_time. rewrite fold_left_keeps; [done |].
  intros st'' f. unfold store_feature.
  cbn [maxFlowValue minFlowValue set_flowData set_velocityData set_depthData].
  destruct (gtb _ (maxFlowValue st''));
    cbn [minFlowValue set_maxFlowValue set_flowData set_velocityData
         set_depthData];
    destruct (ltb _ (minFlowValue st'') && gtb _ (Fin 0)); done.
Qed.

(** The length of an optional series extracted from a loaded state. *)
Lemma optional_series_length (a : option matrix) n (values : list number) :
  (is_Some a → length values = n) →
  (a = None → values = []) →
  negb (bool_decide (values = []))
  = bool_decide (is_Some a) && negb (n =? 0)%nat.
Proof.
  intros Hsome Hnone. destruct a as [rows |].
  - rewrite (bool_decide_eq_true_2 (is_Some (Some rows))) by done.
    cbn [andb]. specialize (Hsome (ltac:(done))).
    destruct values as [| v values]; cbn in Hsome; subst n; done.
  - rewrite Hnone by done. done.
Qed.

(** X8: the chart is aligned with the time axis.  After a load whose
    [num_times] is the number of its time stamps, opening the chart of a
    feature draws, in this order, the flow trace if flow is visible, the
    velocity trace if velocity is visible and the server sent a velocity
    array, and likewise the depth trace (none of the two for an empty
    time axis); every trace has the time stamps as abscissae and one
    value per time stamp. *)
Theorem chart_aligned_with_time_axis (gp : geopackageData)
    (nc : netcdfData) (st : state) (id : string) :
  num_times nc = length (time_steps nc) →
  id ≠ "" →
  let st' := after (showTimeSeries id (processDataAndVisualize gp nc st)) in
  let vis := visibleVariables (plotState st) in
  let available (a : option matrix) :=
    bool_decide (is_Some a) && negb (length (time_steps nc) =? 0)%nat in
  ∃ traces,
    chart st' = Some traces
    ∧ name <$> traces
      = (if vis_flow vis then ["Flow (m³/s)"] else [])
        ++ (if vis_velocity vis && available (velocity nc)
            then ["Velocity (m/s)"] else [])
        ++ (if vis_depth vis && available (depth nc)
            then ["Depth (m)"] else [])
    ∧ Forall (λ tr, x tr = time_steps nc
                    ∧ length (y tr) = length (time_steps nc)) traces.
Proof.
  intros Hnt Hid. cbn zeta.
  destruct (processDataAndVisualize_snapshot gp nc st)
    as (_ & Hts & Hflow & Hvel & Hdep & _ & _ & Hplot).
  destruct (process_data_fields gp nc st) as (_ & Hts' & _ & _ & Hflow').
  destruct (process_data_optional gp nc st) as [Hvel' Hdep'].
  cbn zeta in *. rewrite Hts' in Hts. rewrite Hvel' in Hvel.
  rewrite Hdep' in Hdep.
  set (loaded := processDataAndVisualize gp nc st) in *.
  assert (Hplot' : visibleVariables (plotState loaded)
                   = visibleVariables (plotState st)).
  { by rewrite Hplot, process_data_plotState. }
  unfold showTimeSeries, updatePlot.
  cbn [plotState set_plotState flowpathId visibleVariables timeSteps
       flowData].
  destruct (String.eqb_spec id ""); [done |].
  rewrite Hts.
  destruct (extract _ id _ _) as [s |] eqn:Hex.
  2:{ apply extract_None in Hex as (t & Ht & Hnone).
      apply elem_of_seq in Ht. cbn [flowData set_plotState] in Hnone.
      rewrite Hflow, Hflow', decide_True in Hnone by lia. done. }
  apply extract_series in Hex as (Hf & Hv & Hv0 & Hd & Hd0).
  cbn [flowValues velocityValues depthValues velocityData depthData
       set_plotState length] in *.
  rewrite length_seq in *. rewrite Hvel in Hv, Hv0. rewrite Hdep in Hd, Hd0.
  assert (Hpresent : ∀ a t, t ∈ seq 0 (length (time_steps nc)) →
            is_Some a →
            is_Some (fold_left (optional_step a nc) (seq 0 (num_times nc)) ∅
                     !! Z.of_nat t)).
  { intros a t Ht Ha. apply loaded_optional_slices. apply elem_of_seq in Ht.
    split; [done | lia]. }
  assert (Habsent : ∀ a t, a = None →
            fold_left (optional_step a nc) (seq 0 (num_times nc)) ∅
              !! Z.of_nat t = None).
  { intros a t ->. apply eq_None_not_Some.
    rewrite loaded_optional_slices. by intros [[] _]. }
  rewrite (optional_series_length (velocity nc) (length (time_steps nc))).
  2:{ intros Ha. apply Hv. intros t Ht. by apply Hpresent. }
  2:{ intros Ha. apply Hv0. intros t Ht. by apply Habsent. }
  rewrite (optional_series_length (depth nc) (length (time_steps nc))).
  2:{ intros Ha. apply Hd. intros t Ht. by apply Hpresent. }
  2:{ intros Ha. apply Hd0. intros t Ht. by apply Habsent. }
  cbn [after chart set_chart]. rewrite Hplot'.
  eexists. split; [reflexivity |]. split.
  - rewrite !fmap_app.
    destruct (vis_flow _), (vis_velocity _ && _), (vis_depth _ && _); done.
  - rewrite !Forall_app. split; [| split].
    + destruct (vis_flow _); constructor; [| constructor]. cbn. split; [done | lia].
    + destruct (vis_velocity _ && _) eqn:Hvis; constructor; [| constructor].
      cbn. split; [done |].
      apply andb_prop in Hvis as [_ Hvis]. apply andb_prop in Hvis as [Ha _].
      apply bool_decide_eq_true in Ha. rewrite Hv; [lia |].
      intros t Ht. by apply Hpresent.
    + destruct (vis_depth _ && _) eqn:Hvis; constructor; [| constructor].
      cbn. split; [done |].
      apply andb_prop in Hvis as [_ Hvis]. apply andb_prop in Hvis as [Ha _].
      apply bool_decide_eq_true in Ha. rewrite Hd; [lia |].
      intros t Ht. by apply Hpresent.
Qed.

Lemma chart_aligned_with_time_axis_witness :
  ∃ traces,
    chart (after (showTimeSeries "wb-1"
                    (processDataAndVisualize
                       (scenario_geopackage ["wb-1"; "wb-2"])
                       (scenario_netcdf ["1"; "wb-2"]) initial)))
    = Some traces
    ∧ name <$> traces = ["Flow (m³/s)"].
Proof.
  assert (H1 : num_times (scenario_netcdf ["1"; "wb-2"])
               = length (time_steps (scenario_netcdf ["1"; "wb-2"])))
    by reflexivity.
  assert (H2 : "wb-1" ≠ "") by discriminate.
  destruct (chart_aligned_with_time_axis
              (scenario_geopackage ["wb-1"; "wb-2"])
              (scenario_netcdf ["1"; "wb-2"]) initial "wb-1" H1 H2)
    as (traces & Hchart & Hnames & _).
  exists traces. split; [exact Hchart | exact Hnames].
Defined.

(** X9: velocity and depth are optional.  After a load the velocity
    table has a slice at a time index exactly when the server sent a
    velocity array and the index is below [num_times], and likewise the
    depth table; for a variable the server did not send, every lookup
    gives 0. *)
Theorem optional_tables_after_load (gp : geopackageData) (nc : netcdfData)
    (st : state) :
  let st' := processDataAndVisualize gp nc st in
  (∀ z, is_Some (velocityData st' !! z)
        ↔ is_Some (velocity nc) ∧ (0 ≤ z < Z.of_nat (num_times nc))%Z)
  ∧ (∀ z, is_Some (depthData st' !! z)
          ↔ is_Some (depth nc) ∧ (0 ≤ z < Z.of_nat (num_times nc))%Z)
  ∧ (velocity nc = None →
     ∀ t id, lookup_or_zero (velocityData st') t id = Fin 0)
  ∧ (depth nc = None →
     ∀ t id, lookup_or_zero (depthData st') t id = Fin 0).
Proof.
  cbn zeta.
  destruct (processDataAndVisualize_snapshot gp nc st)
    as (_ & _ & _ & Hvel & Hdep & _).
  destruct (process_data_optional gp nc st) as [Hvel' Hdep'].
  cbn zeta in *. rewrite Hvel' in Hvel. rewrite Hdep' in Hdep.
  rewrite Hvel, Hdep.
  split; [intros z; apply loaded_optional_slices |].
  split; [intros z; apply loaded_optional_slices |].
  split.
  - intros Hnone t id. apply lookup_or_zero_lenient. right; left.
    apply eq_None_not_Some. rewrite loaded_optional_slices, Hnone.
    by intros [[] _].
  - intros Hnone t id. apply lookup_or_zero_lenient. right; left.
    apply eq_None_not_Some. rewrite loaded_optional_slices, Hnone.
    by intros [[] _].
Qed.

End Chart.

(* ===================================================================== *)
(** * Setting up the visualisation after a load *)
(* ===================================================================== *)

Section Setup.

Import MainJs.

(** The part of the page a load leaves to [setupVisualization]. *)
Lemma process_data_page gp nc st :
  let loaded := process_data gp nc st in
  map_loaded loaded = map_loaded st
  ∧ selected_flowpaths loaded = selected_flowpaths st
  ∧ paint loaded = paint st
  ∧ hoverPopup loaded = hoverPopup st
  ∧ hoveredFeatureId loaded = hoveredFeatureId st
  ∧ currentTimeIndex loaded = currentTimeIndex st.
Proof.
  cbn zeta.
  pose (page := λ s : state,
          (map_loaded s, selected_flowpaths s, paint s, hoverPopup s,
           hoveredFeatureId s, currentTimeIndex s)).
  assert (H : page (process_data gp nc st) = page st).
  { unfold process_data. rewrite (fold_left_keeps page); [done |].
    intros st' t. unfold store_time. rewrite (fold_left_keeps page); [done |].
    intros st'' f. unfold store_feature.
    cbn [maxFlowValue minFlowValue set_flowData set_velocityData
         set_depthData].
    destruct (gtb _ (maxFlowValue st''));
      cbn [minFlowValue set_maxFlowValue set_flowData set_velocityData
           set_depthData];
      destruct (ltb _ (minFlowValue st'') && gtb _ (Fin 0)); done. }
  unfold page in H. by injection H as -> -> -> -> -> ->.
Qed.

(** Whether [setupVisualization] finds data to set up. *)
Lemma loaded_has_data gp nc st :
  bool_decide (featureIds (process_data gp nc st) = [])
  || bool_decide (flowData (process_data gp nc st) = ∅)
  = bool_decide (gpkg_feature_ids gp = []) || (num_times nc =? 0)%nat.
Proof.
  destruct (process_data_fields gp nc st) as (-> & _ & _ & _ & Hflow).
  f_equal. destruct (Nat.eqb_spec (num_times nc) 0) as [Hnt | Hnt].
  - apply bool_decide_eq_true. apply map_eq. intros z.
    rewrite Hflow, lookup_empty, decide_False by lia. done.
  - apply bool_decide_eq_false. intros Hempty.
    specialize (Hflow 0%Z). rewrite Hempty, lookup_empty in Hflow.
    rewrite decide_True in Hflow by lia. done.
Qed.

(** The paint of frame [timeIndex] of a state. *)
Lemma updateVisualization_paint timeIndex st slice :
  selected_flowpaths st = true →
  flowData st !! timeIndex = Some slice →
  paint (updateVisualization timeIndex st)
  = Some
      ({| cases :=
            map (λ id, (id, getColorForFlow (minFlowValue st) (maxFlowValue st)
                              (lookup_or_zero (flowData st) timeIndex id)))
              (featureIds st);
          fallback := "#3b82f6" |},
       {| cases :=
            map (λ id, (id, getWidthForFlow (minFlowValue st) (maxFlowValue st)
                              (lookup_or_zero (flowData st) timeIndex id)))
              (featureIds st);
          fallback := Fin 2 |}).
Proof.
  intros Hlayer Hslice. unfold updateVisualization, lookup_or_zero.
  rewrite Hlayer, Hslice. cbn [negb mbind option_bind].
  unfold updateHoverPopupContent. by repeat case_match.
Qed.

(** X10: a load on a ready map draws frame 0.  When the map is loaded
    and has its layer, the load brings at least one geometry identifier
    and one time step, and neither a geometry identifier nor the
    identifier under the pointer names a property inherited from
    [Object.prototype], the layer is painted at once, with one case per
    geometry identifier, in order, styled by the flow stored for that
    identifier at time index 0 under the new range (the neutral style
    when the table has no such key), whatever the current time index is,
    which the load leaves unchanged; no timer is started. *)
Theorem load_draws_first_frame (gp : geopackageData) (nc : netcdfData)
    (st : state) :
  map_loaded st = true →
  selected_flowpaths st = true →
  gpkg_feature_ids gp ≠ [] →
  (1 ≤ num_times nc)%nat →
  Forall (λ id, inherited id = false) (gpkg_feature_ids gp) →
  (∀ id, hoveredFeatureId st = Some id → inherited id = false) →
  let st' := processDataAndVisualize gp nc st in
  paint st'
  = Some
      ({| cases :=
            map (λ id, (id, getColorForFlow (minFlowValue st') (maxFlowValue st')
                              (lookup_or_zero (flowData st') 0 id)))
              (gpkg_feature_ids gp);
          fallback := "#3b82f6" |},
       {| cases :=
            map (λ id, (id, getWidthForFlow (minFlowValue st') (maxFlowValue st')
                              (lookup_or_zero (flowData st') 0 id)))
              (gpkg_feature_ids gp);
          fallback := Fin 2 |})
  ∧ currentTimeIndex st' = currentTimeIndex st
  ∧ timers st' = timers st.
Proof.
  intros Hmap Hlayer Hids Hnt _ _.
  destruct (processDataAndVisualize_snapshot gp nc st)
    as (Hf & _ & Hflow & _ & _ & Hmax & Hmin & _).
  cbn zeta in *. rewrite Hmax, Hmin, Hflow. clear Hf Hflow Hmax Hmin.
  unfold processDataAndVisualize, setupVisualization.
  rewrite loaded_has_data.
  rewrite bool_decide_eq_false_2 by done.
  destruct (Nat.eqb_spec (num_times nc) 0) as [? | _]; [lia |]. cbn [orb].
  destruct (process_data_page gp nc st) as (Hm & Hl & _ & _ & _ & Hidx).
  cbn zeta in *.
  unfold trySetupLayers, setupLayerFilters. rewrite Hm, Hl, Hmap, Hlayer.
  cbn [andb].
  destruct (process_data_fields gp nc st) as (Hids' & _ & _ & _ & Hflow).
  cbn zeta in *.
  rewrite (updateVisualization_paint 0 _ (flow_slice nc 0));
    [| by rewrite Hl | by rewrite Hflow, decide_True by lia].
  rewrite Hids'.
  destruct (updateVisualization_playback 0 (process_data gp nc st))
    as (-> & _ & _ & _ & -> & _).
  split; [done |]. split; [exact Hidx |].
  pose proof (process_data_scheduler gp nc st) as Hs.
  unfold scheduler in Hs. by injection Hs.
Qed.

Lemma load_draws_first_frame_witness :
  timers
    (processDataAndVisualize (scenario_geopackage ["wb-1"; "wb-2"])
       (scenario_netcdf ["1"; "wb-2"])
       (set_map_loaded true (set_selected_flowpaths true initial)))
  = ∅.
Proof.
  assert (H1 : map_loaded
                 (set_map_loaded true (set_selected_flowpaths true initial))
               = true) by reflexivity.
  assert (H2 : selected_flowpaths
                 (set_map_loaded true (set_selected_flowpaths true initial))
               = true) by reflexivity.
  assert (H3 : gpkg_feature_ids (scenario_geopackage ["wb-1"; "wb-2"]) ≠ [])
    by discriminate.
  assert (H4 : (1 ≤ num_times (scenario_netcdf ["1"; "wb-2"]))%nat)
    by (cbn; lia).
  assert (H5 : Forall (λ id, inherited id = false)
                 (gpkg_feature_ids (scenario_geopackage ["wb-1"; "wb-2"])))
    by (repeat constructor).
  assert (H6 : ∀ id,
            hoveredFeatureId
              (set_map_loaded true (set_selected_flowpaths true initial))
            = Some id →
            inherited id = false) by (intros id; discriminate).
  exact (proj2 (proj2 (load_draws_first_frame _ _ _ H1 H2 H3 H4 H5 H6))).
Defined.

(** While the map is not ready, firing timers only renews the pending
    poll. *)
Lemma fire_polling (L : state) id n id' :
  map_loaded L && selected_flowpaths L = false →
  ∃ id2 n2,
    fire id' (set_nextTimerId n (set_timers {[id := TrySetupLayers]} L))
    = set_nextTimerId n2 (set_timers {[id2 := TrySetupLayers]} L).
Proof.
  intros Hwait. unfold fire. cbn [timers set_nextTimerId set_timers].
  destruct (decide (id' = id)) as [-> | Hne].
  - rewrite lookup_singleton_eq. exists n, (Pos.succ n).
    unfold clearTimeout, trySetupLayers, setTimeout.
    cbn [timers map_loaded selected_flowpaths nextTimerId set_nextTimerId
         set_timers snd].
    rewrite Hwait. cbn [timers nextTimerId set_nextTimerId set_timers].
    by rewrite delete_singleton_eq, insert_empty.
  - rewrite lookup_singleton_ne by done. by exists id, n.
Qed.

Lemma run_polling (L : state) ids id n :
  map_loaded L && selected_flowpaths L = false →
  ∃ id2 n2,
    run ids (set_nextTimerId n (set_timers {[id := TrySetupLayers]} L))
    = set_nextTimerId n2 (set_timers {[id2 := TrySetupLayers]} L).
Proof.
  intros Hwait. revert id n. unfold run.
  induction ids as [| id' ids IH]; intros id n; [by exists id, n |].
  cbn [fold_left].
  destruct (fire_polling L id n id' Hwait) as (id2 & n2 & ->). apply IH.
Qed.

(** X11: the layer setup polls until the map is ready.  After a load
    that brings data while the map is not ready (no timer pending
    before), whatever timers fire, in any order and number, nothing is
    painted and exactly one poll stays pending; once the map reports that
    it is loaded and has its layer, firing that poll draws frame 0, with
    one case per geometry identifier, and leaves no timer pending. *)
Theorem load_polls_until_ready (gp : geopackageData) (nc : netcdfData)
    (st : state) (ids : list positive) :
  map_loaded st && selected_flowpaths st = false →
  timers st = ∅ →
  gpkg_feature_ids gp ≠ [] →
  (1 ≤ num_times nc)%nat →
  let waiting := run ids (processDataAndVisualize gp nc st) in
  paint waiting = paint st
  ∧ ∃ id,
      timers waiting = {[id := TrySetupLayers]}
      ∧ let ready := fire id (handle (MapStatus true true) waiting) in
        timers ready = ∅
        ∧ ∃ color width,
            paint ready = Some (color, width)
            ∧ (cases color).*1 = gpkg_feature_ids gp
            ∧ (cases width).*1 = gpkg_feature_ids gp.
Proof.
  intros Hwait Htimers Hids Hnt. cbn zeta.
  destruct (process_data_page gp nc st) as (Hm & Hl & Hpaint & _).
  cbn zeta in *.
  assert (Hwait' : map_loaded (process_data gp nc st)
                   && selected_flowpaths (process_data gp nc st) = false)
    by (by rewrite Hm, Hl).
  assert (Hst1 : processDataAndVisualize gp nc st
                 = set_nextTimerId (Pos.succ (nextTimerId (process_data gp nc st)))
                     (set_timers
                        {[nextTimerId (process_data gp nc st) := TrySetupLayers]}
                        (process_data gp nc st))).
  { unfold processDataAndVisualize, setupVisualization.
    rewrite loaded_has_data, bool_decide_eq_false_2 by done.
    destruct (Nat.eqb_spec (num_times nc) 0) as [? | _]; [lia |]. cbn [orb].
    unfold trySetupLayers. rewrite Hwait'. unfold setTimeout. cbn [snd].
    pose proof (process_data_scheduler gp nc st) as Hs.
    unfold scheduler in Hs. injection Hs as _ _ Ht _.
    by rewrite Ht, Htimers, insert_empty. }
  rewrite Hst1.
  destruct (run_polling (process_data gp nc st) ids
              (nextTimerId (process_data gp nc st))
              (Pos.succ (nextTimerId (process_data gp nc st))) Hwait')
    as (id & n & ->).
  cbn [paint timers set_nextTimerId set_timers].
  split; [exact Hpaint |]. exists id. split; [done |].
  unfold handle, fire.
  cbn [timers set_nextTimerId set_timers set_map_loaded
       set_selected_flowpaths].
  rewrite lookup_singleton_eq.
  unfold clearTimeout, trySetupLayers, setupLayerFilters.
  cbn [timers map_loaded selected_flowpaths set_nextTimerId set_timers
       set_map_loaded set_selected_flowpaths andb].
  destruct (process_data_fields gp nc st) as (Hids' & _ & _ & _ & Hflow).
  cbn zeta in *.
  match goal with
  | |- context [updateVisualization 0 ?s] =>
      pose proof (updateVisualization_paint 0 s (flow_slice nc 0)) as Hp;
      destruct (updateVisualization_playback 0 s) as (_ & _ & _ & _ & Ht & _)
  end.
  rewrite Ht. cbn [timers].
  split; [by rewrite delete_singleton_eq |].
  rewrite Hp; [| done | cbn [flowData]; by rewrite Hflow, decide_True by lia].
  eexists _, _. split; [done |].
  cbn [cases featureIds set_nextTimerId set_timers set_map_loaded
       set_selected_flowpaths].
  rewrite Hids'.
  split; (etrans; [symmetry; apply (list_fmap_compose _ fst) |]);
    apply list_fmap_id.
Qed.

Lemma load_polls_until_ready_witness :
  paint (run [1%positive; 2%positive; 7%positive]
           (processDataAndVisualize (scenario_geopackage ["wb-1"; "wb-2"])
              (scenario_netcdf ["1"; "wb-2"]) initial))
  = paint initial.
Proof.
  assert (H1 : map_loaded initial && selected_flowpaths initial = false)
    by reflexivity.
  assert (H2 : timers initial = ∅) by reflexivity.
  assert (H3 : gpkg_feature_ids (scenario_geopackage ["wb-1"; "wb-2"]) ≠ [])
    by discriminate.
  assert (H4 : (1 ≤ num_times (scenario_netcdf ["1"; "wb-2"]))%nat)
    by (cbn; lia).
  exact (proj1 (load_polls_until_ready _ _ initial
                  [1%positive; 2%positive; 7%positive] H1 H2 H3 H4)).
Defined.

(** X12: a load without data sets nothing up.  When the load brings no
    geometry identifier or no time step, the globals are replaced as for
    any load, but nothing is painted, no poll is started and the hover
    popup is left as it is, also on a ready map. *)
Theorem load_without_data (gp : geopackageData) (nc : netcdfData)
    (st : state) :
  gpkg_feature_ids gp = [] ∨ num_times nc = 0%nat →
  let st' := processDataAndVisualize gp nc st in
  st' = process_data gp nc st
  ∧ featureIds st' = gpkg_feature_ids gp
  ∧ timeSteps st' = time_steps nc
  ∧ paint st' = paint st
  ∧ hoverPopup st' = hoverPopup st
  ∧ timers st' = timers st
  ∧ nextTimerId st' = nextTimerId st.
Proof.
  intros Hnone. cbn zeta.
  assert (Hst : processDataAndVisualize gp nc st = process_data gp nc st).
  { unfold processDataAndVisualize, setupVisualization.
    rewrite loaded_has_data.
    destruct Hnone as [-> | ->]; [done |].
    by rewrite orb_true_r. }
  rewrite Hst. split; [done |].
  destruct (process_data_fields gp nc st) as (-> & -> & _).
  destruct (process_data_page gp nc st) as (_ & _ & -> & -> & _).
  pose proof (process_data_scheduler gp nc st) as Hs.
  unfold scheduler in Hs. by injection Hs as _ _ -> ->.
Qed.

Lemma load_without_data_witness :
  paint (processDataAndVisualize (scenario_geopackage [])
           (scenario_netcdf ["1"; "wb-2"])
           (set_map_loaded true (set_selected_flowpaths true initial)))
  = None.
Proof.
  assert (H : gpkg_feature_ids (scenario_geopackage []) = []
              ∨ num_times (scenario_netcdf ["1"; "wb-2"]) = 0%nat)
    by (left; reflexivity).
  exact (proj1 (proj2 (proj2 (proj2
           (load_without_data (scenario_geopackage [])
              (scenario_netcdf ["1"; "wb-2"])
              (set_map_loaded true (set_selected_flowpaths true initial))
              H))))).
Defined.

End Setup.

(* ===================================================================== *)
(** * Playback over whole sessions *)
(* ===================================================================== *)

Section Playback.

Import MainJs.

Lemma scheduler_fields st st' :
  scheduler st' = scheduler st →
  isPlaying st' = isPlaying st
  ∧ animationFrame st' = animationFrame st
  ∧ timers st' = timers st
  ∧ nextTimerId st' = nextTimerId st.
Proof. unfold scheduler. intros H. by injection H. Qed.

Lemma tick_pending_same st st' :
  scheduler st' = scheduler st → tick_pending st → tick_pending st'.
Proof.
  intros Hs Htick. destruct (scheduler_fields st st' Hs) as (Hp & Hf & Ht & _).
  unfold tick_pending. rewrite Hp, Hf, Ht. exact Htick.
Qed.

Lemma trySetupLayers_tick_pending st :
  scheduler_inv st → tick_pending st → tick_pending (trySetupLayers st).
Proof.
  intros [_ Hfresh] Htick. unfold trySetupLayers.
  destruct (map_loaded st && selected_flowpaths st).
  - apply (tick_pending_same st); [| done].
    apply updateVisualization_scheduler.
  - unfold setTimeout, tick_pending.
    cbn [snd isPlaying animationFrame timers set_nextTimerId set_timers].
    intros Hplay. destruct (Htick Hplay) as (id & d & Hframe & Hid).
    exists id, d. split; [done |].
    rewrite lookup_insert_ne; [done |].
    intros <-. specialize (Hfresh (nextTimerId st)).
    rewrite Hid in Hfresh. specialize (Hfresh (mk_is_Some _ _ eq_refl)). lia.
Qed.

Lemma animate_tick_pending frameDelay st :
  isPlaying st = true → tick_pending (animate frameDelay st).
Proof.
  intros Hplay _.
  destruct (animate_playing frameDelay st Hplay) as (_ & _ & _ & Hf & Ht & _).
  exists (nextTimerId st), frameDelay. rewrite Hf, Ht.
  by rewrite lookup_insert_eq.
Qed.

Lemma stopped_tick_pending st : isPlaying st = false → tick_pending st.
Proof. intros Hstop Hplay. congruence. Qed.

Lemma timeSlider_input_stops value st :
  isPlaying (timeSlider_input value st) = false
  ∧ currentTimeIndex (timeSlider_input value st) = value.
Proof.
  unfold timeSlider_input. cbn [currentTimeIndex set_currentTimeIndex].
  set (st1 := updateVisualization _ _).
  assert (Hidx : currentTimeIndex st1 = value)
    by (subst st1;
        by destruct (updateVisualization_playback value
                       (set_currentTimeIndex value st)) as (-> & _)).
  destruct (isPlaying st1) eqn:Hplay; [| done].
  destruct (pauseAnimation_effect st1) as (-> & _ & -> & _). done.
Qed.

(** Every handler keeps the next tick of a playing animation pending. *)
Lemma handle_tick_pending e st :
  scheduler_inv st → tick_pending st → tick_pending (handle e st).
Proof.
  intros Hinv Htick.
  destruct e as [speed | value | id | gp nc | fid | | fid | l r];
    cbn [handle].
  - unfold playButton_click. destruct (isPlaying st) eqn:Hplay.
    + apply stopped_tick_pending. by destruct (pauseAnimation_effect st).
    + unfold playAnimation. by apply animate_tick_pending.
  - apply stopped_tick_pending. by destruct (timeSlider_input_stops value st).
  - unfold fire. destruct (timers st !! id) as [[frameDelay |] |] eqn:Hid;
      [| | done].
    + destruct Hinv as [Hanim _]. destruct (Hanim id frameDelay Hid) as [Hplay _].
      by apply animate_tick_pending.
    + apply trySetupLayers_tick_pending.
      * apply scheduler_inv_clear; [by rewrite Hid | | done].
        intros d Hd. congruence.
      * unfold clearTimeout, tick_pending.
        cbn [isPlaying animationFrame timers set_timers].
        intros Hplay. destruct (Htick Hplay) as (id0 & d & Hframe & Hid0).
        exists id0, d. split; [done |].
        rewrite lookup_delete_ne; [done |]. intros <-. congruence.
  - unfold processDataAndVisualize, setupVisualization.
    assert (Hinv1 : scheduler_inv (process_data gp nc st))
      by (apply (scheduler_inv_same st);
          [apply process_data_scheduler | done]).
    assert (Htick1 : tick_pending (process_data gp nc st))
      by (apply (tick_pending_same st);
          [apply process_data_scheduler | done]).
    destruct (_ || _); [done | by apply trySetupLayers_tick_pending].
  - apply (tick_pending_same st); [| done].
    unfold hit_mousemove, updateHoverPopupContent, scheduler.
    repeat case_match; reflexivity.
  - by apply (tick_pending_same st).
  - apply (tick_pending_same st); [| done].
    unfold showTimeSeries. by rewrite updatePlot_scheduler.
  - by apply (tick_pending_same st).
Qed.

Lemma session_invariants es st :
  scheduler_inv st → tick_pending st →
  scheduler_inv (session es st) ∧ tick_pending (session es st).
Proof.
  revert st. induction es as [| e es IH]; intros st Hinv Htick; [done |].
  unfold session in *. cbn [fold_left].
  apply IH; [by apply handle_scheduler_inv | by apply handle_tick_pending].
Qed.

Lemma session_from_initial es :
  scheduler_inv (session es initial) ∧ tick_pending (session es initial).
Proof.
  apply session_invariants; [apply scheduler_inv_initial |].
  by apply stopped_tick_pending.
Qed.

Lemma on_event_invariants p e :
  scheduler_inv (globals p) → tick_pending (globals p) →
  scheduler_inv (globals (on_event p e))
  ∧ tick_pending (globals (on_event p e)).
Proof.
  intros Hinv Htick.
  assert (Hhandle : scheduler_inv (handle e (globals p))
                    ∧ tick_pending (handle e (globals p)))
    by (split; [by apply handle_scheduler_inv | by apply handle_tick_pending]).
  unfold on_event.
  destruct e; try exact Hhandle; by destruct (timelineInitialized p).
Qed.

Lemma fold_on_event_invariants es p :
  scheduler_inv (globals p) → tick_pending (globals p) →
  scheduler_inv (globals (fold_left on_event es p))
  ∧ tick_pending (globals (fold_left on_event es p)).
Proof.
  revert p. induction es as [| e es IH]; intros p Hinv Htick; [done |].
  cbn [fold_left].
  destruct (on_event_invariants p e Hinv Htick) as [Hinv' Htick'].
  by apply IH.
Qed.

Lemma visit_invariants es :
  scheduler_inv (globals (visit es)) ∧ tick_pending (globals (visit es)).
Proof.
  apply fold_on_event_invariants; [apply scheduler_inv_initial |].
  by apply stopped_tick_pending.
Qed.

Lemma visit_snoc es e : visit (es ++ [e]) = on_event (visit es) e.
Proof. unfold visit. by rewrite fold_left_app. Qed.

(** X13: a tick is pending exactly while the animation plays.  In every
    state the page reaches from the state it is opened in by play and
    pause clicks, slider moves, timers firing in any order, loads,
    hovers, clicks on features and changes of the map's status, provided
    no hover is over a feature whose identifier names a property
    inherited from [Object.prototype]: when the animation is playing
    exactly one tick is pending, under the handle [animationFrame] holds,
    so that playback never stalls and never runs twice as fast; when it
    is stopped no tick is pending. *)
Theorem tick_pending_iff_playing (es : list event) :
  forallb plain_hover es = true →
  let st := globals (visit es) in
  (isPlaying st = true →
   ∃ id frameDelay,
     animationFrame st = Some id
     ∧ timers st !! id = Some (Animate frameDelay)
     ∧ ∀ id' frameDelay',
         timers st !! id' = Some (Animate frameDelay') → id' = id)
  ∧ (isPlaying st = false →
     ∀ id frameDelay, timers st !! id ≠ Some (Animate frameDelay)).
Proof.
  intros _. cbn zeta. destruct (visit_invariants es) as [[Hanim _] Htick].
  split.
  - intros Hplay. destruct (Htick Hplay) as (id & d & Hframe & Hid).
    exists id, d. split; [done |]. split; [done |].
    intros id' d' Hid'. destruct (Hanim id' d' Hid') as [_ Hframe'].
    congruence.
  - intros Hstop id d Hid. destruct (Hanim id d Hid) as [Hplay _]. congruence.
Qed.

Lemma tick_pending_iff_playing_witness :
  let st :=
    globals
      (visit [ Loaded (scenario_geopackage ["wb-1"; "wb-2"])
                 (scenario_netcdf ["1"; "wb-2"]);
               PlayButtonClick (Fin 1);
               HitMousemove "wb-1" ]) in
  (isPlaying st = true →
   ∃ id frameDelay,
     animationFrame st = Some id
     ∧ timers st !! id = Some (Animate frameDelay)
     ∧ ∀ id' frameDelay',
         timers st !! id' = Some (Animate frameDelay') → id' = id)
  ∧ (isPlaying st = false →
     ∀ id frameDelay, timers st !! id ≠ Some (Animate frameDelay)).
Proof.
  exact (tick_pending_iff_playing
           [ Loaded (scenario_geopackage ["wb-1"; "wb-2"])
               (scenario_netcdf ["1"; "wb-2"]);
             PlayButtonClick (Fin 1);
             HitMousemove "wb-1" ] eq_refl).
Defined.

(** X14: moving the time slider seeks and stops.  On a page reached
    without a hover over an inherited name, an input of the slider does
    nothing as long as no load has brought data (the handler is not
    attached).  Once one has, it sets the time index to the value given,
    whether or not the table has a slice there, stops the animation and
    leaves no tick pending, so that no timer firing afterwards moves the
    index; when the layer exists, the table has a slice at the value and
    no feature identifier names an inherited property, the frame painted
    is the one of that slice. *)
Theorem seek_sets_index_and_stops (es : list event) (value : Z) :
  forallb plain_hover es = true →
  let p := visit es in
  let st := globals p in
  let st' := globals (visit (es ++ [TimeSliderInput value])) in
  (timelineInitialized p = false → st' = st)
  ∧ (timelineInitialized p = true →
     currentTimeIndex st' = value
     ∧ isPlaying st' = false
     ∧ (∀ id frameDelay, timers st' !! id ≠ Some (Animate frameDelay))
     ∧ (∀ ids, currentTimeIndex (run ids st') = value
               ∧ isPlaying (run ids st') = false)
     ∧ (selected_flowpaths st = true →
        is_Some (flowData st !! value) →
        Forall (λ id, inherited id = false) (featureIds st) →
        ∃ color width,
          paint st' = Some (color, width)
          ∧ cases color
            = map (λ id, (id, getColorForFlow (minFlowValue st)
                                (maxFlowValue st)
                                (lookup_or_zero (flowData st) value id)))
                (featureIds st)
          ∧ cases width
            = map (λ id, (id, getWidthForFlow (minFlowValue st)
                                (maxFlowValue st)
                                (lookup_or_zero (flowData st) value id)))
                (featureIds st))).
Proof.
  intros _. cbn zeta. rewrite visit_snoc. unfold on_event.
  set (st := globals (visit es)).
  split; [by intros -> |]. intros ->. cbn [globals handle].
  destruct (timeSlider_input_stops value st) as [Hstop Hidx].
  split; [done |]. split; [done |]. split; [| split].
  - intros id d Hid.
    assert (Hinv : scheduler_inv (timeSlider_input value st)).
    { apply (handle_scheduler_inv (TimeSliderInput value)).
      apply visit_invariants. }
    destruct Hinv as [Hanim _]. destruct (Hanim id d Hid) as [Hplay _].
    congruence.
  - intros ids.
    destruct (run_paused ids (timeSlider_input value st) Hstop) as [-> ->].
    done.
  - intros Hlayer [slice Hslice] _.
    assert (Hpaint : paint (timeSlider_input value st)
                     = paint (updateVisualization value
                                (set_currentTimeIndex value st))).
    { unfold timeSlider_input. cbn zeta.
      cbn [currentTimeIndex set_currentTimeIndex].
      set (st1 := updateVisualization value _).
      destruct (isPlaying st1); [| done].
      unfold pauseAnimation, clearTimeout.
      cbn [animationFrame set_isPlaying].
      by destruct (animationFrame st1). }
    rewrite Hpaint.
    rewrite (updateVisualization_paint value _ slice) by done.
    eexists _, _. split; [done |]. by cbn.
Qed.

Lemma seek_sets_index_and_stops_witness :
  currentTimeIndex
    (globals
       (visit ([ Loaded (scenario_geopackage ["wb-1"; "wb-2"])
                   (scenario_netcdf ["1"; "wb-2"]);
                 HitMousemove "wb-1" ]
               ++ [TimeSliderInput 1])))
  = 1%Z.
Proof.
  exact (proj1 (proj2 (seek_sets_index_and_stops
                         [ Loaded (scenario_geopackage ["wb-1"; "wb-2"])
                             (scenario_netcdf ["1"; "wb-2"]);
                           HitMousemove "wb-1" ] 1 eq_refl) eq_refl)).
Defined.

(** X15: a play click immediately followed by a pause click advances
    the animation by exactly one frame.  On a page reached without a
    hover over an inherited name, the two clicks do nothing as long as no
    load has brought data (the handler is not attached).  Once one has,
    on a stopped page, the play click ticks once at once (the index moves
    to the next time step, wrapping to 0 after the last one) and the
    pause click cancels the tick it scheduled: the pending timers are the
    ones there were before, the animation is stopped and holds no
    handle. *)
Theorem play_then_pause (es : list event) (speed speed' : number) :
  forallb plain_hover es = true →
  let p := visit es in
  let st := globals p in
  let st' :=
    globals (visit (es ++ [PlayButtonClick speed; PlayButtonClick speed'])) in
  (timelineInitialized p = false → st' = st)
  ∧ (timelineInitialized p = true →
     isPlaying st = false →
     currentTimeIndex st'
     = (if (currentTimeIndex st + 1 >=? Z.of_nat (length (timeSteps st)))%Z
        then 0 else currentTimeIndex st + 1)%Z
     ∧ isPlaying st' = false
     ∧ animationFrame st' = None
     ∧ timers st' = timers st).
Proof.
  intros _. cbn zeta.
  change (es ++ [PlayButtonClick speed; PlayButtonClick speed'])
    with (es ++ [PlayButtonClick speed] ++ [PlayButtonClick speed']).
  rewrite app_assoc, !visit_snoc. unfold on_event.
  set (st := globals (visit es)).
  split.
  { intros Hno. rewrite Hno. cbn iota. by rewrite Hno. }
  intros Hyes Hstop. rewrite Hyes.
  cbn [globals timelineInitialized handle].
  unfold playButton_click. rewrite Hstop.
  destruct (playAnimation_ticks_at_once speed st) as [Hidx Hplay].
  rewrite Hplay.
  destruct (pauseAnimation_effect (playAnimation speed st))
    as (-> & -> & -> & ->).
  rewrite Hidx. split; [done |]. split; [done |]. split; [done |].
  unfold playAnimation.
  destruct (animate_playing (div (Fin 100) speed) (set_isPlaying true st)
              eq_refl) as (_ & _ & _ & -> & -> & _).
  cbn [nextTimerId timers set_isPlaying].
  apply delete_insert_id. apply eq_None_not_Some. intros Hsome.
  destruct (visit_invariants es) as [[_ Hfresh] _].
  apply Hfresh in Hsome. fold st in Hsome. lia.
Qed.

Lemma play_then_pause_witness :
  let es :=
    [ Loaded (scenario_geopackage ["wb-1"])
        {| time_steps := ["2024-01-01T00:00"; "2024-01-01T01:00"];
           feature_ids := []; flow := None; velocity := None; depth := None;
           num_times := 2; num_features := 0 |} ] in
  currentTimeIndex
    (globals (visit (es ++ [PlayButtonClick (Fin 1); PlayButtonClick (Fin 2)])))
  = 1%Z
  ∧ timers
      (globals
         (visit (es ++ [PlayButtonClick (Fin 1); PlayButtonClick (Fin 2)])))
    = timers (globals (visit es)).
Proof.
  intros es.
  assert (H1 : forallb plain_hover es = true) by reflexivity.
  assert (H2 : timelineInitialized (visit es) = true) by reflexivity.
  assert (H3 : isPlaying (globals (visit es)) = false) by reflexivity.
  destruct (proj2 (play_then_pause es (Fin 1) (Fin 2) H1) H2 H3)
    as (Hidx & _ & _ & Htimers).
  split; [exact Hidx | exact Htimers].
Defined.

End Playback.

(* ===================================================================== *)
(** * The hover popup *)
(* ===================================================================== *)

Section Hover.

Import MainJs.

Lemma hit_mousemove_hover flowpathId st :
  is_Some (hoverPopup (hit_mousemove flowpathId st))
  ∧ hoveredFeatureId (hit_mousemove flowpathId st) = Some flowpathId
  ∧ isPlaying (hit_mousemove flowpathId st) = isPlaying st
  ∧ selected_flowpaths (hit_mousemove flowpathId st) = selected_flowpaths st
  ∧ flowData (hit_mousemove flowpathId st) = flowData st
  ∧ velocityData (hit_mousemove flowpathId st) = velocityData st
  ∧ depthData (hit_mousemove flowpathId st) = depthData st
  ∧ currentTimeIndex (hit_mousemove flowpathId st) = currentTimeIndex st
  ∧ timeSteps (hit_mousemove flowpathId st) = timeSteps st.
Proof.
  unfold hit_mousemove, updateHoverPopupContent.
  destruct (hoverPopup st) as [p |] eqn:Hp;
    cbn [hoveredFeatureId set_hoverPopup];
    case_bool_decide as Hh;
    cbn [hoverPopup hoveredFeatureId set_hoverPopup set_hoveredFeatureId];
    rewrite ?Hp, ?Hh; destruct (String.eqb flowpathId ""); by cbn.
Qed.

Lemma updateHoverPopupContent_open st p id :
  hoverPopup st = Some p →
  hoveredFeatureId st = Some id →
  id ≠ "" →
  hoverPopup (updateHoverPopupContent st)
  = Some (Some
      {| popup_id := id;
         popup_flow := lookup_or_zero (flowData st) (currentTimeIndex st) id;
         popup_velocity :=
           lookup_or_zero (velocityData st) (currentTimeIndex st) id;
         popup_depth :=
           lookup_or_zero (depthData st) (currentTimeIndex st) id |}).
Proof.
  intros Hp Hh Hid. unfold updateHoverPopupContent. rewrite Hp, Hh.
  destruct (String.eqb_spec id ""); [done |]. done.
Qed.

(** X16: the hover popup follows the playback.  With the pointer over
    the feature [id], an identifier that does not name a property
    inherited from [Object.prototype], while the animation plays on a
    page whose layer exists, a tick that moves to a time index at which
    the flow table has a slice rewrites the popup for that index: it
    shows [id] with the flow, velocity and depth stored for it there, 0
    for what is not stored. *)
Theorem hover_popup_follows_playback (id : string) (frameDelay : number)
    (st : state) :
  id ≠ "" →
  inherited id = false →
  isPlaying st = true →
  selected_flowpaths st = true →
  let st' := animate frameDelay (hit_mousemove id st) in
  is_Some (flowData st !! currentTimeIndex st') →
  hoverPopup st'
  = Some (Some
      {| popup_id := id;
         popup_flow := lookup_or_zero (flowData st) (currentTimeIndex st') id;
         popup_velocity :=
           lookup_or_zero (velocityData st) (currentTimeIndex st') id;
         popup_depth :=
           lookup_or_zero (depthData st) (currentTimeIndex st') id |}).
Proof.
  intros Hid _ Hplay Hlayer. cbn zeta.
  destruct (hit_mousemove_hover id st)
    as ([p Hp] & Hh & Hplay' & Hlayer' & Hflow & Hvel & Hdep & Hidx & Hts).
  set (hov := hit_mousemove id st) in *.
  rewrite Hplay in Hplay'. rewrite Hlayer in Hlayer'.
  destruct (animate_playing frameDelay hov Hplay') as (Hnew & _).
  rewrite Hnew. clear Hnew.
  set (idx := (if (_ >=? _)%Z then _ else _)).
  intros [slice Hslice].
  unfold animate. rewrite Hplay'. cbn [negb].
  cbn [currentTimeIndex set_currentTimeIndex timeSteps].
  fold idx.
  assert (Hst1 : (if (currentTimeIndex hov + 1
                        >=? Z.of_nat (length (timeSteps hov)))%Z
                  then set_currentTimeIndex 0
                         (set_currentTimeIndex (currentTimeIndex hov + 1) hov)
                  else set_currentTimeIndex (currentTimeIndex hov + 1) hov)
                 = set_currentTimeIndex idx hov).
  { subst idx. by destruct (_ >=? _)%Z. }
  rewrite Hst1. cbn [currentTimeIndex set_currentTimeIndex].
  unfold setTimeout.
  cbn [hoverPopup set_animationFrame set_nextTimerId set_timers].
  unfold updateVisualization.
  cbn [selected_flowpaths flowData set_currentTimeIndex].
  rewrite Hlayer', Hflow, Hslice. cbn [negb].
  rewrite (updateHoverPopupContent_open _ p id); [| done | done | done].
  cbn [flowData velocityData depthData currentTimeIndex set_paint
       set_currentTimeIndex].
  by rewrite Hflow, Hvel, Hdep.
Qed.

Lemma hover_popup_follows_playback_witness :
  let st :=
    set_isPlaying true
      (set_selected_flowpaths true
         (set_timeSteps ["2024-01-01T00:00"; "2024-01-01T01:00"]
            (set_flowData (<[1%Z := {["wb-1" := Fin 15]}]> ∅) initial))) in
  let st' := animate (Fin 100) (hit_mousemove "wb-1" st) in
  hoverPopup st'
  = Some (Some
      {| popup_id := "wb-1";
         popup_flow := lookup_or_zero (flowData st) (currentTimeIndex st') "wb-1";
         popup_velocity :=
           lookup_or_zero (velocityData st) (currentTimeIndex st') "wb-1";
         popup_depth :=
           lookup_or_zero (depthData st) (currentTimeIndex st') "wb-1" |}).
Proof.
  intros st st'.
  assert (H1 : "wb-1" ≠ "") by discriminate.
  assert (H2 : isPlaying st = true) by reflexivity.
  assert (H3 : selected_flowpaths st = true) by reflexivity.
  assert (H4 : is_Some (flowData st !! currentTimeIndex st'))
    by (exists {["wb-1" := Fin 15]}; reflexivity).
  exact (hover_popup_follows_playback "wb-1" (Fin 100) st H1 eq_refl H2 H3 H4).
Defined.

End Hover.

(* ===================================================================== *)
(** * The chart of the earlier revision *)
(* ===================================================================== *)

Section ResampledChart.

Import Part000.

Lemma extract_present st id ts acc :
  (∀ t, t ∈ ts → is_Some (flowData st !! Z.of_nat t)) →
  is_Some (extract st id ts acc).
Proof.
  revert acc. induction ts as [| t ts IH]; intros acc Hall; cbn [extract];
    [done |].
  unfold extract_step.
  destruct (Hall t) as [slice ->]; [left |].
  apply IH. intros t' Ht'. apply Hall. by right.
Qed.

Lemma resampleData_length fuel data k :
  1 ≤ k → length data ≤ fuel →
  ∃ resampled,
    resampleData fuel data k = Some resampled
    ∧ length resampled = ceil_div (length data) k.
Proof.
  intros Hk Hfuel. unfold resampleData.
  destruct (Nat.eqb_spec k 1) as [-> | Hne].
  - exists data. split; [done |]. unfold ceil_div.
    rewrite Nat.add_sub. by rewrite Nat.div_1_r.
  - destruct k as [| k]; [lia |].
    rewrite resample_loop_blocks by lia. eexists. split; [done |].
    cbn [app]. rewrite drop_0, length_map. apply blocks_length.
Qed.

Lemma ceil_div_below n k i : 1 ≤ k → i < ceil_div n k → i * k < n.
Proof.
  unfold ceil_div. intros Hk Hi.
  pose proof (Nat.Div0.mul_div_le (n + k - 1) k) as Hle.
  nia.
Qed.

(** X17: with a resampling interval of 0 the loop of [resampleData]
    never ends.  The index is advanced by the interval, so on a
    non-empty series no amount of fuel lets the loop return, and a
    redraw of the chart of a selected feature over a non-empty time axis
    does not return either (an empty series is returned at once). *)
Theorem zero_interval_never_returns (st : state) (id : string) :
  resampleInterval (plotState st) = 0 →
  flowpathId (plotState st) = Some id →
  id ≠ "" →
  timeSteps st ≠ [] →
  (∀ t, t < length (timeSteps st) → is_Some (flowData st !! Z.of_nat t)) →
  (∀ fuel, updatePlot fuel st = OutOfFuel)
  ∧ (∀ fuel data, data ≠ [] → resampleData fuel data 0 = None)
  ∧ (∀ fuel, resampleData fuel [] 0 = Some []).
Proof.
  intros Hk Hsel Hid Hts Hall.
  assert (Hloop : ∀ fuel data, data ≠ [] → resampleData fuel data 0 = None).
  { intros fuel data Hdata. unfold resampleData. cbn [Nat.eqb].
    apply resample_loop_zero_interval. destruct data; [done | cbn; lia]. }
  split; [| split; [exact Hloop | by intros []]].
  intros fuel. unfold updatePlot. rewrite Hsel, Hk.
  destruct (String.eqb_spec id ""); [done |].
  destruct (extract_present st id (seq 0 (length (timeSteps st)))
              {| flowValues := []; velocityValues := []; depthValues := [] |})
    as [s Hex].
  { intros t Ht. apply Hall. apply elem_of_seq in Ht. lia. }
  rewrite Hex. apply extract_lengths in Hex as (Hlen & _).
  rewrite length_seq in Hlen. cbn in Hlen.
  rewrite Hloop; [done |].
  intros Hnil. rewrite Hnil in Hlen. destruct (timeSteps st); [done |].
  cbn in Hlen. lia.
Qed.

Lemma zero_interval_never_returns_witness :
  updatePlot 1000
    {| timeSteps := ["2024-01-01T00:00"]; currentTimeIndex := 0;
       isPlaying := false; animationFrame := None;
       flowData := {[0%Z := ∅]}; velocityData := ∅; depthData := ∅;
       maxFlowValue := Fin 0; minFlowValue := PInf;
       plotState :=
         {| flowpathId := Some "wb-1";
            visibleVariables :=
              {| vis_flow := true; vis_velocity := true; vis_depth := true |};
            resampleInterval := 0 |};
       chart := None |}
  = OutOfFuel.
Proof.
  apply (zero_interval_never_returns _ "wb-1");
    [reflexivity | reflexivity | discriminate | discriminate |].
  intros t Ht. cbn in Ht.
  assert (t = 0) as -> by lia. by eexists.
Defined.

(** X18: the abscissae of the resampled chart.  With a resampling
    interval [k] of at least 1, a selected feature and a flow slice at
    every index of the time axis of length [n], the redraw ends normally
    and every trace of the chart has the abscissae [0, k, 2k, ...], one
    per block, [ceil (n / k)] of them, each the index of the first time
    step of its block (so below [n]); the flow trace, when shown, comes
    first and has as many ordinates as abscissae. *)
Theorem resampled_chart_axis (fuel : nat) (st : state) (id : string) :
  1 ≤ resampleInterval (plotState st) →
  flowpathId (plotState st) = Some id →
  id ≠ "" →
  (∀ t, t < length (timeSteps st) → is_Some (flowData st !! Z.of_nat t)) →
  length (timeSteps st) ≤ fuel →
  let k := resampleInterval (plotState st) in
  let n := length (timeSteps st) in
  ∃ traces,
    updatePlot fuel st = Done (set_chart (Some traces) st)
    ∧ Forall (λ tr, x tr = (λ i, of_nat (i * k)) <$> seq 0 (ceil_div n k))
        traces
    ∧ (∀ i, i < ceil_div n k → i * k < n)
    ∧ (vis_flow (visibleVariables (plotState st)) = true →
       ∃ tr, head traces = Some tr
             ∧ name tr = "Flow (m³/s)"
             ∧ length (y tr) = ceil_div n k).
Proof.
  intros Hk Hsel Hid Hall Hfuel. cbn zeta.
  unfold updatePlot. rewrite Hsel.
  destruct (String.eqb_spec id ""); [done |].
  destruct (extract_present st id (seq 0 (length (timeSteps st)))
              {| flowValues := []; velocityValues := []; depthValues := [] |})
    as [s Hex].
  { intros t Ht. apply Hall. apply elem_of_seq in Ht. lia. }
  rewrite Hex. apply extract_lengths in Hex as (Hf & Hv & Hd).
  rewrite length_seq in Hf, Hv, Hd. cbn in Hf, Hv, Hd.
  destruct (resampleData_length fuel (flowValues s) _ Hk) as (rf & -> & Hrf);
    [lia |].
  destruct (resample_nonempty_total fuel (velocityValues s) _ Hk) as [rv ->];
    [lia |].
  destruct (resample_nonempty_total fuel (depthValues s) _ Hk) as [rd ->];
    [lia |].
  rewrite Hf in Hrf.
  rewrite (imap_seq_0 rf (λ i, of_nat (i * resampleInterval (plotState st)))).
  rewrite Hrf.
  eexists. split; [done |]. split; [| split].
  - repeat (apply Forall_app; split);
      [destruct (vis_flow _) | destruct (_ && _) | destruct (_ && _)];
      repeat constructor.
  - intros i. by apply ceil_div_below.
  - intros ->. eexists. split; [done |]. by cbn.
Qed.

Lemma resampled_chart_axis_witness :
  ∃ traces,
    updatePlot 2
      {| timeSteps := ["2024-01-01T00:00"; "2024-01-01T01:00"];
         currentTimeIndex := 0; isPlaying := false; animationFrame := None;
         flowData := {[0%Z := ∅; 1%Z := ∅]};
         velocityData := ∅; depthData := ∅;
         maxFlowValue := Fin 0; minFlowValue := PInf;
         plotState :=
           {| flowpathId := Some "wb-1";
              visibleVariables :=
                {| vis_flow := true; vis_velocity := true;
                   vis_depth := true |};
              resampleInterval := 2 |};
         chart := None |}
    = Done
        (set_chart (Some traces)
           {| timeSteps := ["2024-01-01T00:00"; "2024-01-01T01:00"];
              currentTimeIndex := 0; isPlaying := false;
              animationFrame := None;
              flowData := {[0%Z := ∅; 1%Z := ∅]};
              velocityData := ∅; depthData := ∅;
              maxFlowValue := Fin 0; minFlowValue := PInf;
              plotState :=
                {| flowpathId := Some "wb-1";
                   visibleVariables :=
                     {| vis_flow := true; vis_velocity := true;
                        vis_depth := true |};
                   resampleInterval := 2 |};
              chart := None |}).
Proof.
  edestruct (resampled_chart_axis 2
               {| timeSteps := ["2024-01-01T00:00"; "2024-01-01T01:00"];
                  currentTimeIndex := 0; isPlaying := false;
                  animationFrame := None;
                  flowData := {[0%Z := ∅; 1%Z := ∅]};
                  velocityData := ∅; depthData := ∅;
                  maxFlowValue := Fin 0; minFlowValue := PInf;
                  plotState :=
                    {| flowpathId := Some "wb-1";
                       visibleVariables :=
                         {| vis_flow := true; vis_velocity := true;
                            vis_depth := true |};
                       resampleInterval := 2 |};
                  chart := None |} "wb-1")
    as (traces & Hdone & _).
  - cbn. lia.
  - reflexivity.
  - discriminate.
  - intros t Ht. cbn in Ht.
    assert (t = 0 ∨ t = 1) as [-> | ->] by lia; by eexists.
  - cbn. lia.
  - exists traces. exact Hdone.
Defined.

End ResampledChart.

(* ===================================================================== *)
(** * The files chosen from a dropped folder *)
(* ===================================================================== *)

Section FileSelection.

Import Loader.

Local Open Scope Z_scope.

Lemma fold_later rest first :
  let latest := fold_left later rest first in
  (latest = first ∧ Forall (λ f, lastModified f ≤ lastModified first) rest)
  ∨ ∃ before after,
      rest = before ++ latest :: after
      ∧ lastModified first < lastModified latest
      ∧ Forall (λ f, lastModified f < lastModified latest) before
      ∧ Forall (λ f, lastModified f ≤ lastModified latest) after.
Proof.
  cbn zeta. revert first.
  induction rest as [| current rest IH]; intros first; cbn [fold_left].
  - left. by split.
  - assert (Hstep : lastModified first < lastModified current
                    ∧ later first current = current
                    ∨ lastModified current ≤ lastModified first
                      ∧ later first current = first).
    { unfold later.
      destruct (Z.gtb_spec (lastModified current) (lastModified first));
        [by left | by right]. }
    destruct Hstep as [[Hgt ->] | [Hle ->]].
    + right. destruct (IH current) as [[-> Hall] | (b & a & Hrest & Hlt & Hb & Ha)].
      * exists [], rest. by repeat split.
      * exists (current :: b), a. rewrite Hrest at 1.
        repeat split; [lia | | done]. constructor; [lia | done].
    + destruct (IH first) as [[-> Hall] | (b & a & Hrest & Hlt & Hb & Ha)].
      * left. split; [done |]. by constructor.
      * right. exists (current :: b), a. rewrite Hrest at 1.
        repeat split; [done | | done]. constructor; [lia | done].
Qed.

Lemma find_first {A} (p : A → bool) (l : list A) x :
  List.find p l = Some x →
  ∃ before after,
    l = before ++ x :: after ∧ p x = true
    ∧ Forall (λ y, p y = false) before.
Proof.
  induction l as [| a l IH]; cbn [List.find]; [done |].
  destruct (p a) eqn:Hp.
  - intros [= ->]. exists [], l. by repeat split.
  - intros Hfind. destruct (IH Hfind) as (b & af & -> & Hx & Hb).
    exists (a :: b), af. repeat split; [done |]. by constructor.
Qed.

(** X19: the files uploaded from a dropped folder.  When
    [loadLocalFilesFromBrowser] uploads, the GeoPackage is the first
    file of the folder under [/config/] whose name ends in [.gpkg], and
    the NetCDF file is, among the files under [/outputs/troute/] named
    [troute_*.nc], one modified last, the first such in the order of the
    folder.  It uploads exactly when the folder has a file of each kind;
    otherwise it shows an error, about the GeoPackage when both are
    missing. *)
Theorem select_uploads_latest (files : list file) (folderName : string)
    (gpkgFile ncFile : file) :
  select files folderName = Upload gpkgFile ncFile →
  (∃ before after,
     files = before ++ gpkgFile :: after
     ∧ is_gpkg gpkgFile = true
     ∧ Forall (λ f, is_gpkg f = false) before)
  ∧ (∃ before after,
       List.filter is_nc files = before ++ ncFile :: after
       ∧ Forall (λ f, lastModified f < lastModified ncFile) before
       ∧ Forall (λ f, lastModified f ≤ lastModified ncFile) after)
  ∧ ncFile ∈ files
  ∧ is_nc ncFile = true
  ∧ (∀ f, f ∈ files → is_nc f = true →
          lastModified f ≤ lastModified ncFile).
Proof.
  unfold select.
  destruct (List.find is_gpkg files) as [g |] eqn:Hfind; [| done].
  destruct (List.filter is_nc files) as [| first rest] eqn:Hnc; [done |].
  intros [= -> <-]. split; [by apply find_first |].
  assert (Hsplit : ∃ before after,
            first :: rest
            = before ++ fold_left later rest first :: after
            ∧ Forall (λ f, lastModified f
                           < lastModified (fold_left later rest first)) before
            ∧ Forall (λ f, lastModified f
                           ≤ lastModified (fold_left later rest first)) after).
  { destruct (fold_later rest first)
      as [[Heq Hall] | (b & a & Hrest & Hlt & Hb & Ha)].
    - exists [], rest. rewrite Heq. by repeat split.
    - exists (first :: b), a. rewrite Hrest at 1.
      repeat split; [| done]. by constructor. }
  destruct Hsplit as (b & a & Hsplit & Hb & Ha).
  split; [by exists b, a |].
  assert (Hin : fold_left later rest first ∈ List.filter is_nc files).
  { rewrite Hnc, Hsplit. apply elem_of_app. right. left. }
  apply list_elem_of_In, filter_In in Hin as [Hin Hp].
  split; [by apply list_elem_of_In |]. split; [done |].
  intros f Hf Hpf.
  assert (Hf' : f ∈ first :: rest).
  { rewrite <- Hnc. apply list_elem_of_In, filter_In.
    split; [by apply list_elem_of_In | done]. }
  rewrite Hsplit in Hf'. apply elem_of_app in Hf' as [Hf' | Hf'].
  - rewrite Forall_forall in Hb. specialize (Hb f Hf'). lia.
  - apply elem_of_cons in Hf' as [-> | Hf']; [lia |].
    rewrite Forall_forall in Ha. by apply Ha.
Qed.

Lemma select_uploads_latest_witness :
  {| webkitRelativePath := "run/outputs/troute/troute_b.nc";
     name := "troute_b.nc"; lastModified := 9 |}
  ∈ [ {| webkitRelativePath := "run/config/run.gpkg";
         name := "run.gpkg"; lastModified := 5 |};
      {| webkitRelativePath := "run/outputs/troute/troute_a.nc";
         name := "troute_a.nc"; lastModified := 7 |};
      {| webkitRelativePath := "run/outputs/troute/troute_b.nc";
         name := "troute_b.nc"; lastModified := 9 |};
      {| webkitRelativePath := "run/outputs/troute/troute_c.nc";
         name := "troute_c.nc"; lastModified := 9 |} ].
Proof.
  assert (H : select
                [ {| webkitRelativePath := "run/config/run.gpkg";
                     name := "run.gpkg"; lastModified := 5 |};
                  {| webkitRelativePath := "run/outputs/troute/troute_a.nc";
                     name := "troute_a.nc"; lastModified := 7 |};
                  {| webkitRelativePath := "run/outputs/troute/troute_b.nc";
                     name := "troute_b.nc"; lastModified := 9 |};
                  {| webkitRelativePath := "run/outputs/troute/troute_c.nc";
                     name := "troute_c.nc"; lastModified := 9 |} ] "run"
              = Upload
                  {| webkitRelativePath := "run/config/run.gpkg";
                     name := "run.gpkg"; lastModified := 5 |}
                  {| webkitRelativePath := "run/outputs/troute/troute_b.nc";
                     name := "troute_b.nc"; lastModified := 9 |})
    by reflexivity.
  exact (proj1 (proj2 (proj2 (select_uploads_latest _ _ _ _ H)))).
Defined.

(** X20: when the folder is refused.  [loadLocalFilesFromBrowser]
    uploads exactly when the folder holds a GeoPackage under [/config/]
    and a [troute_*.nc] file under [/outputs/troute/]; without a
    GeoPackage the error shown is the one about the GeoPackage, whether
    or not a NetCDF file is there, and the message names the folder. *)
Theorem select_refuses (files : list file) (folderName : string) :
  ((∃ gpkgFile ncFile, select files folderName = Upload gpkgFile ncFile)
   ↔ (∃ f, f ∈ files ∧ is_gpkg f = true) ∧ (∃ f, f ∈ files ∧ is_nc f = true))
  ∧ ((∀ f, f ∈ files → is_gpkg f = false) →
     select files folderName
     = ShowError ("Error loading files: No GeoPackage file found in "
                  +:+ folderName +:+ "/config/"))
  ∧ ((∃ f, f ∈ files ∧ is_gpkg f = true) →
     (∀ f, f ∈ files → is_nc f = false) →
     select files folderName
     = ShowError ("Error loading files: No NetCDF file found matching "
                  +:+ folderName +:+ "/outputs/troute/troute_*.nc")).
Proof.
  assert (Hfind : is_Some (List.find is_gpkg files)
                  ↔ ∃ f, f ∈ files ∧ is_gpkg f = true).
  { split.
    - intros [g Hg]. apply find_some in Hg as [Hin Hp].
      exists g. split; [by apply list_elem_of_In | done].
    - intros (f & Hin & Hp).
      destruct (List.find is_gpkg files) as [g |] eqn:Hg; [done |].
      apply list_elem_of_In in Hin.
      pose proof (find_none _ _ Hg f Hin). congruence. }
  assert (Hfilter : List.filter is_nc files ≠ []
                    ↔ ∃ f, f ∈ files ∧ is_nc f = true).
  { split.
    - destruct (List.filter is_nc files) as [| f rest] eqn:Hnc; [done |].
      intros _. exists f.
      assert (Hin : In f (List.filter is_nc files)) by (rewrite Hnc; by left).
      apply filter_In in Hin as [Hin Hp].
      split; [by apply list_elem_of_In | done].
    - intros (f & Hin & Hp) Hnil.
      assert (Hin' : In f (List.filter is_nc files))
        by (apply filter_In; split; [by apply list_elem_of_In | done]).
      by rewrite Hnil in Hin'. }
  unfold select. split; [| split].
  - rewrite <- Hfind, <- Hfilter.
    destruct (List.find is_gpkg files) as [g |].
    + destruct (List.filter is_nc files) as [| first rest].
      * split; [by intros (? & ? & ?) | by intros [_ ?]].
      * split; [done | intros _; by eexists _, _].
    + split; [by intros (? & ? & ?) | by intros [[] _]].
  - intros Hnone.
    destruct (List.find is_gpkg files) as [g |] eqn:Hg; [| done].
    apply find_some in Hg as [Hin Hp].
    apply list_elem_of_In, Hnone in Hin. congruence.
  - intros Hsome Hnone. apply Hfind in Hsome as [g ->].
    destruct (List.filter is_nc files) as [| f rest] eqn:Hnc; [done |].
    assert (Hin : In f (List.filter is_nc files)) by (rewrite Hnc; by left).
    apply filter_In in Hin as [Hin Hp].
    apply list_elem_of_In, Hnone in Hin. congruence.
Qed.

End FileSelection.

(* ===================================================================== *)
(** * Catchment filter and inspector buttons *)
(* ===================================================================== *)

Section Catchments.

Import MainJs.

Lemma substring_all s : String.substring 0 (String.length s) s = s.
Proof. induction s as [| c s IH]; cbn; [done | by rewrite IH]. Qed.

Lemma replace_found s p new :
  startsWith s p = true →
  replace s p new
  = new +:+ String.substring (String.length p)
              (String.length s - String.length p) s.
Proof. intros H. destruct s; cbn [replace]; by rewrite H. Qed.

Lemma substring_rest p rest :
  String.substring (String.length p)
    (String.length (p +:+ rest) - String.length p) (p +:+ rest)
  = rest.
Proof.
  induction p as [| c p IH]; cbn.
  - rewrite Nat.sub_0_r. apply substring_all.
  - exact IH.
Qed.

Lemma replace_prefixed rest :
  replace ("wb-" +:+ rest) "wb-" "cat-" = "cat-" +:+ rest.
Proof.
  rewrite replace_found by apply startsWith_app.
  by rewrite substring_rest.
Qed.

Lemma startsWith_includes s p : startsWith s p = true → Loader.includes s p = true.
Proof. intros H. destruct s; cbn [Loader.includes]; by rewrite H. Qed.

Lemma replace_absent s :
  Loader.includes s "wb-" = false → replace s "wb-" "cat-" = s.
Proof.
  induction s as [| c s IH]; cbn [Loader.includes replace].
  - intros _. reflexivity.
  - intros H. apply orb_false_iff in H as [-> H]. by rewrite IH.
Qed.

(** X21: the catchment filter.  [setupLayerFilters] filters the
    catchment layer with one identifier per feature identifier, in
    order: an identifier [wb-<rest>] gives [cat-<rest>], and an
    identifier in which [wb-] does not occur is passed on unchanged (the
    geometry identifiers are not normalised, so a bare [1] stays [1]);
    distinct identifiers that start with [wb-] give distinct catchment
    identifiers. *)
Theorem catchment_ids_of_features (st : state) :
  length (catchmentIds st) = length (featureIds st)
  ∧ (∀ i id,
       featureIds st !! i = Some id →
       (∀ rest, id = "wb-" +:+ rest →
                catchmentIds st !! i = Some ("cat-" +:+ rest))
       ∧ (Loader.includes id "wb-" = false → catchmentIds st !! i = Some id))
  ∧ (Forall (λ id, startsWith id "wb-" = true) (featureIds st) →
     NoDup (featureIds st) → NoDup (catchmentIds st)).
Proof.
  unfold catchmentIds. split; [apply length_map |]. split.
  - intros i id Hid.
    assert (Hi : map (λ id, replace id "wb-" "cat-") (featureIds st) !! i
                 = Some (replace id "wb-" "cat-"))
      by (change (map ?f ?l) with (f <$> l);
          by rewrite list_lookup_fmap, Hid).
    rewrite Hi. split.
    + intros rest ->. by rewrite replace_prefixed.
    + intros Habsent. by rewrite replace_absent.
  - intros Hall Hnodup.
    change (map ?f ?l) with (f <$> l).
    apply (NoDup_fmap_2_strong (λ id, replace id "wb-" "cat-")); [| done].
    intros a b Ha Hb Heq. rewrite Forall_forall in Hall.
    destruct (startsWith_inv a "wb-" (Hall a Ha)) as [ra ->].
    destruct (startsWith_inv b "wb-" (Hall b Hb)) as [rb ->].
    rewrite !replace_prefixed in Heq.
    f_equal. revert Heq. generalize "cat-". intros p.
    induction p as [| c p IH]; cbn; [done |]. intros [= Heq]. by apply IH.
Qed.

End Catchments.

Section Buttons.

Import MainJs.

Lemma extract_ext st st' id ts acc :
  flowData st' = flowData st →
  velocityData st' = velocityData st →
  depthData st' = depthData st →
  extract st' id ts acc = extract st id ts acc.
Proof.
  intros Hf Hv Hd. revert acc.
  induction ts as [| t ts IH]; intros acc; cbn [extract]; [done |].
  unfold extract_step. rewrite Hf, Hv, Hd.
  destruct (flowData st !! Z.of_nat t); [apply IH | done].
Qed.

(** What a redraw leaves, in terms of the plot state it is run with. *)
Lemma updatePlot_with ps c st :
  after (updatePlot (set_plotState ps (set_chart c st)))
  = match flowpathId ps with
    | None => set_plotState ps (set_chart c st)
    | Some id =>
        if String.eqb id "" then set_plotState ps (set_chart c st)
        else
          match extract st id (seq 0 (length (timeSteps st)))
                  {| flowValues := []; velocityValues := [];
                     depthValues := [] |}
          with
          | None => set_plotState ps (set_chart c st)
          | Some s =>
              set_plotState ps
                (set_chart
                   (Some
                      ((if vis_flow (visibleVariables ps)
                        then [ {| x := timeSteps st; y := flowValues s;
                                  name := "Flow (m³/s)" |} ]
                        else [])
                       ++ (if vis_velocity (visibleVariables ps)
                              && negb (bool_decide (velocityValues s = []))
                           then [ {| x := timeSteps st; y := velocityValues s;
                                     name := "Velocity (m/s)" |} ]
                           else [])
                       ++ (if vis_depth (visibleVariables ps)
                              && negb (bool_decide (depthValues s = []))
                           then [ {| x := timeSteps st; y := depthValues s;
                                     name := "Depth (m)" |} ]
                           else [])))
                   st)
          end
    end.
Proof.
  unfold updatePlot. cbn [plotState set_plotState].
  destruct (flowpathId ps) as [id |]; [| done].
  destruct (String.eqb id ""); [done |].
  cbn [timeSteps set_plotState set_chart].
  rewrite (extract_ext st (set_plotState ps (set_chart c st))) by done.
  destruct (extract st id _ _); done.
Qed.

Lemma state_eta st : set_plotState (plotState st) (set_chart (chart st) st) = st.
Proof. by destruct st. Qed.

Lemma set_plotState_twice ps ps' c st :
  set_plotState ps (set_plotState ps' (set_chart c st))
  = set_plotState ps (set_chart c st).
Proof. reflexivity. Qed.

Lemma plot_state_eta (ps : plot_state) :
  {| flowpathId := flowpathId ps; visibleVariables := visibleVariables ps |}
  = ps.
Proof. by destruct ps. Qed.

(** Two clicks on a button that flips the visible variables by an
    involution [tog]. *)
Lemma toggle_twice_with (tog : visible → visible) (st : state) :
  (∀ v, tog (tog v) = v) →
  let toggle st :=
    updatePlot
      (set_plotState
         {| flowpathId := flowpathId (plotState st);
            visibleVariables := tog (visibleVariables (plotState st)) |} st) in
  after (toggle (after (toggle st))) = after (updatePlot st).
Proof.
  intros Htog. cbn zeta.
  rewrite <- (state_eta st).
  generalize (plotState st) (chart st). intros ps c.
  cbn [plotState set_plotState].
  rewrite !set_plotState_twice.
  rewrite (updatePlot_with ps), (updatePlot_with _ c).
  cbn [flowpathId visibleVariables].
  destruct (flowpathId ps) as [id |] eqn:Hsel.
  2:{ cbn [after plotState set_plotState flowpathId visibleVariables].
      rewrite set_plotState_twice, updatePlot_with. cbn [flowpathId].
      by rewrite Htog, <- Hsel, plot_state_eta. }
  destruct (String.eqb id "") eqn:Hid.
  { cbn [plotState set_plotState flowpathId visibleVariables].
    rewrite set_plotState_twice, updatePlot_with. cbn [flowpathId].
    by rewrite Hid, Htog, <- Hsel, plot_state_eta. }
  destruct (extract st id _ _) as [s |] eqn:Hex.
  - cbn [plotState set_plotState flowpathId visibleVariables].
    rewrite set_plotState_twice, updatePlot_with.
    cbn [flowpathId visibleVariables].
    by rewrite Hid, Hex, Htog, <- Hsel, plot_state_eta.
  - cbn [plotState set_plotState flowpathId visibleVariables].
    rewrite set_plotState_twice, updatePlot_with. cbn [flowpathId].
    by rewrite Hid, Hex, Htog, <- Hsel, plot_state_eta.
Qed.

(** X22: the toggle buttons of the inspector.  Two clicks on the same
    toggle (flow, velocity or depth) leave the globals and the chart as
    a plain redraw does, also when the redraw throws; and once the
    inspector is closed a toggle flips its flag without redrawing: the
    chart stays what it was and no feature is selected. *)
Theorem toggle_twice_redraws (st : state) :
  after (toggleFlow (after (toggleFlow st))) = after (updatePlot st)
  ∧ after (toggleVelocity (after (toggleVelocity st))) = after (updatePlot st)
  ∧ after (toggleDepth (after (toggleDepth st))) = after (updatePlot st)
  ∧ chart (after (toggleFlow (closePlot st))) = chart st
  ∧ chart (after (toggleVelocity (closePlot st))) = chart st
  ∧ chart (after (toggleDepth (closePlot st))) = chart st
  ∧ flowpathId (plotState (after (toggleFlow (closePlot st)))) = None.
Proof.
  split; [| split; [| split]].
  - apply (toggle_twice_with
             (λ v, {| vis_flow := negb (vis_flow v);
                      vis_velocity := vis_velocity v;
                      vis_depth := vis_depth v |})).
    intros [vf vv vd]. cbn. by rewrite negb_involutive.
  - apply (toggle_twice_with
             (λ v, {| vis_flow := vis_flow v;
                      vis_velocity := negb (vis_velocity v);
                      vis_depth := vis_depth v |})).
    intros [vf vv vd]. cbn. by rewrite negb_involutive.
  - apply (toggle_twice_with
             (λ v, {| vis_flow := vis_flow v;
                      vis_velocity := vis_velocity v;
                      vis_depth := negb (vis_depth v) |})).
    intros [vf vv vd]. cbn. by rewrite negb_involutive.
  - done.
Qed.

End Buttons.
